(** * Q-Bot backend: conversation lifecycle and context-window assembly

    A shallow embedding of
      - [app/models/conversation.py]   (Message, Conversation, add_message,
                                        get_messages),
      - [app/ai/conversation_manager.py] (ConversationManager),
      - [app/ai/models.py]             (ModelManager.generate_response,
                                        _format_conversation,
                                        _calculate_confidence),
      - [app/api/routes/conversations.py] (get_conversation_messages,
                                        update_conversation, archive and
                                        restore),
      - [app/api/routes/chat.py]       (send_message, get_conversation,
                                        create_conversation,
                                        delete_conversation),
      - [app/api/dependencies.py]      (get_object_id),
      - [app/database.py]              (the documents given to the ODM),
      - [app/security.py]              (sanitize_input, InputValidator,
                                        RateLimiter),
      - [app/websocket.py]             (ConnectionManager),
    together with the properties of the lifecycle that the design document
    states about them, and further properties that the code shows.

    Conventions of the embedding:
      - a Python [str] is the list of its code points;
      - a Python [int] is a [Z], a Python [float] is a binary64 [float];
      - a [dict] with string keys is a [gmap string PyVal];
      - the document store, the clock and the language-model pipeline are
        the environment: the store is explicit state ([World]), the clock
        and the store's failures are oracles indexed by call number, the
        pipeline is an oracle on its arguments;
      - [await]-ed code is a state-and-exception computation [M]: an
        exception keeps every write made before it (the store has no
        transactions). *)

From Stdlib Require Import ZArith NArith List Bool Ascii String Floats Lia.
From stdpp Require Import base option list gmap strings sorting.

#[local] Set Warnings "-inexact-float".
#[local] Open Scope Z_scope.

(** ** Python values *)

(** A [str]: the sequence of its Unicode code points. *)
Definition pystr := list N.

(** The code points of an ASCII literal. *)
Definition lit (s : string) : pystr :=
  map N_of_ascii (list_ascii_of_string s).

(** The values that occur in the dictionaries of the program. *)
Inductive PyVal :=
| VNone
| VInt (z : Z)
| VFloat (f : float)
| VStr (s : pystr).

(** [bool(v)]: [None], [0], [0.0], [-0.0] and [''] are false. *)
Definition truthy (v : PyVal) : bool :=
  match v with
  | VNone => false
  | VInt z => negb (z =? 0)
  | VFloat f => negb (PrimFloat.eqb f 0%float)
  | VStr s => match s with [] => false | _ => true end
  end.

(** [a or b]. *)
Definition py_or (a b : PyVal) : PyVal := if truthy a then a else b.

(** [d.get(k)]: the value, or [None]. *)
Definition dict_get (d : gmap string PyVal) (k : string) : PyVal :=
  default VNone (d !! k).

(** [d.get(k, dflt)]. *)
Definition dict_get_default (d : gmap string PyVal) (k : string) (dflt : PyVal) : PyVal :=
  default dflt (d !! k).

(** [a // b] on ints is [Z.div] (floor division, sign of the divisor). *)
Definition floordiv (a b : Z) : Z := a / b.

(** [a / b] on ints whose magnitudes are below 2^53: both convert exactly,
    and the binary64 quotient is correctly rounded, as Python's is. *)
Definition truediv (a b : Z) : float :=
  (PrimFloat.of_uint63 (Uint63.of_Z a) / PrimFloat.of_uint63 (Uint63.of_Z b))%float.

(** [min(a, b)] on floats: Python keeps the first argument unless the
    second compares strictly smaller. *)
Definition float_min (a b : float) : float :=
  if PrimFloat.ltb b a then b else a.

(** [l[k:]] with Python's treatment of negative and out-of-range [k]. *)
Definition slice_from {A} (l : list A) (k : Z) : list A :=
  let n := Z.of_nat (length l) in
  let k' := if k <? 0 then Z.max 0 (k + n) else Z.min k n in
  drop (Z.to_nat k') l.

(** *** Whitespace, [strip] and [split] *)

(** [str.isspace] on one code point (Unicode White_Space as CPython has it). *)
Definition isspace (c : N) : bool :=
  ((9 <=? c) && (c <=? 13) || (28 <=? c) && (c <=? 32)
   || (c =? 133) || (c =? 160) || (c =? 5760)
   || (8192 <=? c) && (c <=? 8202)
   || (c =? 8232) || (c =? 8233) || (c =? 8239) || (c =? 8287)
   || (c =? 12288))%N.

Fixpoint lstrip (s : pystr) : pystr :=
  match s with
  | c :: s' => if isspace c then lstrip s' else s
  | [] => []
  end.

(** [s.strip()]. *)
Definition strip (s : pystr) : pystr := rev (lstrip (rev (lstrip s))).

(** [s.split()]: the maximal runs of non-whitespace code points.
    [cur] is the run being read, in reverse. *)
Fixpoint split_aux (cur : pystr) (s : pystr) : list pystr :=
  match s with
  | [] => match cur with [] => [] | _ => [rev cur] end
  | c :: s' =>
      if isspace c
      then match cur with [] => split_aux [] s' | _ => rev cur :: split_aux [] s' end
      else split_aux (c :: cur) s'
  end.

Definition split (s : pystr) : list pystr := split_aux [] s.

Definition len {A} (l : list A) : Z := Z.of_nat (length l).

(** ** [app/config.py]: the settings the model manager reads *)

Module Settings.
Record t := {
  default_model : pystr;
  max_tokens : Z;
  temperature : float;
}.
End Settings.

(** The defaults of [class Settings]. *)
Definition settings : Settings.t := {|
  Settings.default_model := lit "microsoft/DialoGPT-medium";
  Settings.max_tokens := 512;
  Settings.temperature := 0.7%float;
|}.

(** ** [app/ai/models.py]: the pure parts of [ModelManager] *)

(** One entry of the conversation history: [{"role": ..., "content": ...}]. *)
Module Turn.
Record t := { role : string; content : pystr }.
End Turn.

(** [_calculate_confidence]. *)
Definition _calculate_confidence (text : pystr) : float :=
  if (match text with [] => true | _ => false end) || (len (strip text) <? 5)
  then 0.1%float
  else
    let word_count := len (split text) in
    if word_count <? 3 then 0.3%float
    else if 100 <? word_count then 0.6%float
    else float_min 0.9%float (0.4 + (truediv word_count 100) * 0.5)%float.

(** [_format_conversation]: the slice [[-settings.max_tokens//50:]] of the
    history (the unary minus binds first: 512 gives the last 11 turns), one
    line per turn, then the cue for the reply.  A turn with another role
    adds nothing. *)
Definition format_turn (formatted : pystr) (message : Turn.t) : pystr :=
  if String.eqb (Turn.role message) "user"
  then formatted ++ lit "Human: " ++ Turn.content message ++ [10%N]
  else if String.eqb (Turn.role message) "assistant"
  then formatted ++ lit "Assistant: " ++ Turn.content message ++ [10%N]
  else formatted.

Definition _format_conversation (st : Settings.t) (conversation_history : list Turn.t) : pystr :=
  let window := slice_from conversation_history (floordiv (- Settings.max_tokens st) 50) in
  fold_left format_turn window [] ++ lit "Assistant: ".

(** ** [app/models/conversation.py]: the documents *)

(** A [bson.ObjectId] holds a string of bytes: twelve in every id the
    driver generates, fewer in some of the ids that are read from a string
    (see [ObjectId_of_str]).  It is kept as a number: the number its bytes
    spell, and for an id of fewer than twelve bytes that number plus [2^96]
    for every byte it lacks, so that ids of different bytes are different
    numbers, and the ids of twelve bytes are the numbers below [2^96]. *)
Definition ObjectId := N.

(** A [datetime], in ticks of the clock. *)
Definition datetime := Z.

Definition hex_digit (c : N) : option N :=
  if ((48 <=? c) && (c <=? 57))%N then Some (c - 48)%N
  else if ((97 <=? c) && (c <=? 102))%N then Some (c - 87)%N
  else if ((65 <=? c) && (c <=? 70))%N then Some (c - 55)%N
  else None.

(** The ASCII whitespace that [bytes.fromhex] skips. *)
Definition ascii_space (c : N) : bool :=
  ((c =? 32) || (9 <=? c) && (c <=? 13))%N.

(** [bytes.fromhex(s)]: two hexadecimal digits for each byte, with ASCII
    whitespace skipped before a byte and at the end, but not between the two
    digits of a byte; anything else is a [ValueError]. *)
Fixpoint fromhex (s : pystr) : option (list N) :=
  match s with
  | [] => Some []
  | c :: s' =>
      if ascii_space c then fromhex s'
      else
        match hex_digit c, s' with
        | Some top, d :: s'' =>
            match hex_digit d with
            | Some bot => cons (16 * top + bot)%N <$> fromhex s''
            | None => None
            end
        | _, _ => None
        end
  end.

(** The number that stands for the ObjectId of the bytes [b]. *)
Definition ObjectId_of_bytes (b : list N) : ObjectId :=
  (fold_left (fun acc byte => 256 * acc + byte) b 0
   + 2 ^ 96 * (12 - N.of_nat (length b)))%N.

(** [ObjectId(id_str)] for a [str]: [bytes.fromhex(id_str)] when the string
    has 24 characters, and [InvalidId] when it has not or when [fromhex]
    raises.  Twenty-four hexadecimal digits give twelve bytes; a string of
    24 characters with whitespace in it gives fewer. *)
Definition ObjectId_of_str (id_str : pystr) : option ObjectId :=
  if (length id_str =? 24)%nat then ObjectId_of_bytes <$> fromhex id_str else None.

Module MessageType.
Inductive t := USER | ASSISTANT | SYSTEM.
#[global] Instance eq_dec : EqDecision t.
Proof. solve_decision. Defined.
End MessageType.

Module MessageStatus.
Inductive t := PENDING | PROCESSING | COMPLETED | FAILED.
#[global] Instance eq_dec : EqDecision t.
Proof. solve_decision. Defined.
End MessageStatus.

Module ConversationStatus.
Inductive t := ACTIVE | PAUSED | COMPLETED | ARCHIVED.
#[global] Instance eq_dec : EqDecision t.
Proof. solve_decision. Defined.
End ConversationStatus.

(** [class Message(Document)].  The three AI fields are [Optional] in the
    class and are assigned whatever [metadata.get] returns, so they hold a
    [PyVal]. *)
Module Message.
Record t := {
  id : ObjectId;
  conversation_id : ObjectId;
  content : pystr;
  message_type : MessageType.t;
  status : MessageStatus.t;
  timestamp : datetime;
  model_used : PyVal;
  confidence_score : PyVal;
  processing_time : PyVal;
  metadata : gmap string PyVal;
}.

(** [Message(conversation_id=.., content=.., message_type=.., **kwargs)]
    where [kwargs] carries at most [status]; [now] is the reading of
    [datetime.utcnow] taken by the default factory.  The document gets
    its [id] when it is inserted. *)
Definition init (conversation_id : ObjectId) (content : pystr)
    (message_type : MessageType.t) (status : option MessageStatus.t)
    (now : datetime) (id : ObjectId) : t :=
  {| id := id; conversation_id := conversation_id; content := content;
     message_type := message_type;
     status := default MessageStatus.COMPLETED status;
     timestamp := now;
     model_used := VNone; confidence_score := VNone; processing_time := VNone;
     metadata := ∅ |}.

(** Lines 67-72 of the manager: the assignments after a generation. *)
Definition complete (m : t) (response_text : pystr) (md : gmap string PyVal) : t :=
  {| id := id m; conversation_id := conversation_id m;
     content := response_text;
     message_type := message_type m;
     status := MessageStatus.COMPLETED;
     timestamp := timestamp m;
     model_used := dict_get md "model_used";
     confidence_score := dict_get md "confidence_score";
     processing_time := dict_get md "processing_time";
     metadata := md |}.

(** Lines 106-107 of the manager: the assignments of the handler. *)
Definition fail (m : t) (error : pystr) : t :=
  {| id := id m; conversation_id := conversation_id m;
     content := content m;
     message_type := message_type m;
     status := MessageStatus.FAILED;
     timestamp := timestamp m;
     model_used := model_used m;
     confidence_score := confidence_score m;
     processing_time := processing_time m;
     metadata := {[ "error" := VStr error ]} |}.
End Message.

(** [class Conversation(Document)]. *)
Module Conversation.
Record t := {
  id : ObjectId;
  user_id : ObjectId;
  title : option pystr;
  status : ConversationStatus.t;
  created_at : datetime;
  updated_at : datetime;
  model_config : gmap string PyVal;
  context_window : Z;
  message_count : Z;
  total_tokens_used : Z;
  metadata : gmap string PyVal;
}.

(** [Conversation(user_id=.., title=.., model_config=..)]; the two
    timestamps come from two readings of the clock. *)
Definition init (user_id : ObjectId) (title : option pystr)
    (model_config : gmap string PyVal) (now1 now2 : datetime) (id : ObjectId) : t :=
  {| id := id; user_id := user_id; title := title;
     status := ConversationStatus.ACTIVE;
     created_at := now1; updated_at := now2;
     model_config := model_config;
     context_window := 10; message_count := 0; total_tokens_used := 0;
     metadata := ∅ |}.

Definition set_status (s : ConversationStatus.t) (c : t) : t :=
  {| id := id c; user_id := user_id c; title := title c; status := s;
     created_at := created_at c; updated_at := updated_at c;
     model_config := model_config c; context_window := context_window c;
     message_count := message_count c;
     total_tokens_used := total_tokens_used c; metadata := metadata c |}.

Definition set_updated_at (now : datetime) (c : t) : t :=
  {| id := id c; user_id := user_id c; title := title c; status := status c;
     created_at := created_at c; updated_at := now;
     model_config := model_config c; context_window := context_window c;
     message_count := message_count c;
     total_tokens_used := total_tokens_used c; metadata := metadata c |}.

Definition set_message_count (n : Z) (c : t) : t :=
  {| id := id c; user_id := user_id c; title := title c; status := status c;
     created_at := created_at c; updated_at := updated_at c;
     model_config := model_config c; context_window := context_window c;
     message_count := n;
     total_tokens_used := total_tokens_used c; metadata := metadata c |}.

Definition set_total_tokens_used (n : Z) (c : t) : t :=
  {| id := id c; user_id := user_id c; title := title c; status := status c;
     created_at := created_at c; updated_at := updated_at c;
     model_config := model_config c; context_window := context_window c;
     message_count := message_count c;
     total_tokens_used := n; metadata := metadata c |}.
End Conversation.

(** ** The environment: store, clock, pipeline *)

(** What the program does to its collaborators, in order: the writes to the
    two collections, the calls of [generate_response] with their arguments
    and the calls of the pipeline with the parameters in force.  The journal
    is ghost state: no operation reads it. *)
Inductive Event :=
| MessageInserted (m : Message.t)
| MessageSaved (m : Message.t)
| ConversationInserted (c : Conversation.t)
| ConversationSaved (c : Conversation.t)
| Generate (conversation_history : list Turn.t) (max_tokens temperature : PyVal)
| PipelineCall (prompt : pystr) (max_length temperature : PyVal).

(** The two collections, the next fresh [ObjectId], and how many times the
    clock and the store have been called. *)
Record World := {
  conversations : gmap ObjectId Conversation.t;
  messages : list Message.t;
  next_id : ObjectId;
  clock_reads : nat;
  store_calls : nat;
  journal : list Event;
}.

Inductive Exn :=
| StoreError (call : nat)
| GenerationError (msg : pystr)
| TypeError
| HTTPException (status_code : Z) (detail : pystr)
| CollectionWasNotInitialized.

(** [str(e)]. *)
Definition str_exn (e : Exn) : pystr :=
  match e with
  | StoreError _ => lit "store error"
  | GenerationError msg => msg
  | TypeError => lit "unsupported operand type"
  | HTTPException _ detail => detail
  | CollectionWasNotInitialized => []
  end.

(** The collaborators the program cannot see into:
    [clock n] is what the [n]-th call of [datetime.utcnow] returns;
    [store_fails n] tells whether the [n]-th call of the store raises;
    [pipeline prompt max_length temperature] is the conversation pipeline:
    it raises ([inl]) or returns the generated text and the seconds the
    call took ([inr]). *)
Record Env := {
  clock : nat -> datetime;
  store_fails : nat -> bool;
  pipeline : pystr -> PyVal -> PyVal -> pystr + pystr * float;
  env_settings : Settings.t;
  device : pystr;
}.

(** Computations that read and write the world and may raise. *)
Definition M (A : Type) : Type := World -> (Exn + A) * World.

Definition ret {A} (a : A) : M A := fun w => (inr a, w).

Definition raise {A} (e : Exn) : M A := fun w => (inl e, w).

Definition bind {A B} (c : M A) (k : A -> M B) : M B := fun w =>
  match c w with
  | (inr a, w') => k a w'
  | (inl e, w') => (inl e, w')
  end.

(** [try: c / except Exception as e: h e]. *)
Definition try_except {A} (c : M A) (h : Exn -> M A) : M A := fun w =>
  match c w with
  | (inr a, w') => (inr a, w')
  | (inl e, w') => h e w'
  end.

Declare Scope py_scope.
Delimit Scope py_scope with py.
Notation "'let*' x := c 'in' k" := (bind c (fun x => k))
  (at level 10, x pattern, c at level 100, k at level 200) : py_scope.
Notation "c ;; k" := (bind c (fun _ => k))
  (at level 100, k at level 200, right associativity) : py_scope.

Definition log (e : Event) (w : World) : World :=
  {| conversations := conversations w; messages := messages w;
     next_id := next_id w; clock_reads := clock_reads w;
     store_calls := store_calls w; journal := journal w ++ [e] |}.

Definition set_conversations (cs : gmap ObjectId Conversation.t) (w : World) : World :=
  {| conversations := cs; messages := messages w;
     next_id := next_id w; clock_reads := clock_reads w;
     store_calls := store_calls w; journal := journal w |}.

Definition set_messages (ms : list Message.t) (w : World) : World :=
  {| conversations := conversations w; messages := ms;
     next_id := next_id w; clock_reads := clock_reads w;
     store_calls := store_calls w; journal := journal w |}.

Definition take_id (w : World) : World :=
  {| conversations := conversations w; messages := messages w;
     next_id := N.succ (next_id w); clock_reads := clock_reads w;
     store_calls := store_calls w; journal := journal w |}.

Definition count_store_call (w : World) : World :=
  {| conversations := conversations w; messages := messages w;
     next_id := next_id w; clock_reads := clock_reads w;
     store_calls := S (store_calls w); journal := journal w |}.

Definition count_clock_read (w : World) : World :=
  {| conversations := conversations w; messages := messages w;
     next_id := next_id w; clock_reads := S (clock_reads w);
     store_calls := store_calls w; journal := journal w |}.

(** [cursor.sort(-Message.timestamp)]: newest first. *)
Definition newer_first (m1 m2 : Message.t) : Prop :=
  Message.timestamp m2 <= Message.timestamp m1.

#[global] Instance newer_first_dec : RelDecision newer_first.
Proof. intros m1 m2. unfold newer_first. apply _. Defined.

(** [.limit(n)]: Beanie keeps [n] and passes it to the driver's
    [find(limit=n)], for which a limit of 0 is no limit at all, and a
    negative [n] is read as [|n|] (and asks for a single batch). *)
Definition store_limit {A} (n : Z) (l : list A) : list A :=
  if n =? 0 then l else take (Z.abs_nat n) l.

(** [doc.save()] on the messages collection: replace the document that has
    this [_id], or add it. *)
Fixpoint replace_message (m : Message.t) (ms : list Message.t) : list Message.t :=
  match ms with
  | [] => [m]
  | m' :: ms' =>
      if (Message.id m' =? Message.id m)%N then m :: ms'
      else m' :: replace_message m ms'
  end.

Section Store.
Context (env : Env).
#[local] Open Scope py_scope.

(** [datetime.utcnow()]. *)
Definition utcnow : M datetime := fun w =>
  (inr (clock env (clock_reads w)), count_clock_read w).

(** One round trip to the store: it is counted, and it raises when the
    environment says so, before having any effect. *)
Definition store_call {A} (op : World -> A * World) : M A := fun w =>
  let n := store_calls w in
  let w := count_store_call w in
  if store_fails env n then (inl (StoreError n), w)
  else let '(a, w') := op w in (inr a, w').

(** [Conversation.get(id)]. *)
Definition Conversation_get (id : ObjectId) : M (option Conversation.t) :=
  store_call (fun w => (conversations w !! id, w)).

(** [conversation.insert()] of a new document. *)
Definition Conversation_insert (doc : ObjectId -> Conversation.t) : M Conversation.t :=
  store_call (fun w =>
    let c := doc (next_id w) in
    (c, log (ConversationInserted c)
          (set_conversations (<[Conversation.id c := c]> (conversations w)) (take_id w)))).

(** [conversation.save()]. *)
Definition Conversation_save (c : Conversation.t) : M unit :=
  store_call (fun w =>
    (tt, log (ConversationSaved c)
           (set_conversations (<[Conversation.id c := c]> (conversations w)) w))).

(** [message.insert()] of a new document. *)
Definition Message_insert (doc : ObjectId -> Message.t) : M Message.t :=
  store_call (fun w =>
    let m := doc (next_id w) in
    (m, log (MessageInserted m) (set_messages (messages w ++ [m]) (take_id w)))).

(** [message.save()]. *)
Definition Message_save (m : Message.t) : M unit :=
  store_call (fun w =>
    (tt, log (MessageSaved m) (set_messages (replace_message m (messages w)) w))).

(** [Message.find(Message.conversation_id == id).sort(-Message.timestamp)
    .limit(limit).to_list()].  The store does not say in which order it
    returns messages with equal timestamps; here it is the order of
    [merge_sort]. *)
Definition Message_find_newest (id : ObjectId) (limit : Z) : M (list Message.t) :=
  store_call (fun w =>
    (store_limit limit
       (merge_sort newer_first
          (filter (fun m => Message.conversation_id m = id) (messages w))), w)).
End Store.

(** ** The methods of [Conversation] *)

Section Documents.
Context (env : Env).
#[local] Open Scope py_scope.

(** [update_timestamp]. *)
Definition update_timestamp (self : Conversation.t) : M Conversation.t :=
  let* now := utcnow env in
  ret (Conversation.set_updated_at now self).

(** [get_messages]. *)
Definition get_messages (self : Conversation.t) (limit : Z) : M (list Message.t) :=
  Message_find_newest env (Conversation.id self) limit.

(** [add_message]; the result carries [self] as the method leaves it. *)
Definition add_message (self : Conversation.t) (content : pystr)
    (message_type : MessageType.t) (status : option MessageStatus.t)
    : M (Message.t * Conversation.t) :=
  let* now := utcnow env in
  let* message :=
    Message_insert env
      (Message.init (Conversation.id self) content message_type status now) in
  let self := Conversation.set_message_count (Conversation.message_count self + 1) self in
  let* self := update_timestamp self in
  Conversation_save env self ;;
  ret (message, self).
End Documents.

(** ** [ModelManager.generate_response] *)

Section Models.
Context (env : Env).
#[local] Open Scope py_scope.

Definition record (e : Event) : M unit := fun w => (inr tt, log e w).

(** The pipeline is called with the effective parameters; whatever it
    raises is logged and raised again. *)
Definition generate_response (conversation_history : list Turn.t)
    (max_tokens temperature : PyVal) : M (pystr * gmap string PyVal) :=
  record (Generate conversation_history max_tokens temperature) ;;
  let max_tokens := py_or max_tokens (VInt (Settings.max_tokens (env_settings env))) in
  let temperature := py_or temperature (VFloat (Settings.temperature (env_settings env))) in
  let formatted_conversation := _format_conversation (env_settings env) conversation_history in
  record (PipelineCall formatted_conversation max_tokens temperature) ;;
  match pipeline env formatted_conversation max_tokens temperature with
  | inl msg => raise (GenerationError msg)
  | inr (generated_text, processing_time) =>
      let confidence_score := _calculate_confidence generated_text in
      let metadata : gmap string PyVal :=
        <[ "model_used" := VStr (Settings.default_model (env_settings env)) ]>
        (<[ "processing_time" := VFloat processing_time ]>
        (<[ "confidence_score" := VFloat confidence_score ]>
        (<[ "max_tokens" := max_tokens ]>
        (<[ "temperature" := temperature ]>
        (<[ "device" := VStr (device env) ]> ∅))))) in
      ret (generated_text, metadata)
  end.
End Models.

(** ** [ConversationManager] *)

(** The dictionary [process_user_message] returns; the three ids are
    returned as their [str]. *)
Record Reply := {
  reply_conversation_id : ObjectId;
  reply_user_message_id : ObjectId;
  reply_ai_message_id : ObjectId;
  reply_response : pystr;
  reply_metadata : gmap string PyVal;
}.

Definition turn_of (message : Message.t) : Turn.t :=
  {| Turn.role :=
       if decide (Message.message_type message = MessageType.USER)
       then "user"%string else "assistant"%string;
     Turn.content := Message.content message |}.

Section Manager.
Context (env : Env).
#[local] Open Scope py_scope.

(** [_get_or_create_conversation].  [found] is what the first [if] block
    returns, when it returns. *)
Definition _get_or_create_conversation (conversation_id : option ObjectId)
    (user_id : ObjectId) : M Conversation.t :=
  let* found :=
    match conversation_id with
    | Some id =>
        let* conversation := Conversation_get env id in
        match conversation with
        | Some c =>
            if decide (Conversation.user_id c = user_id) then ret (Some c) else ret None
        | None => ret None
        end
    | None => ret None
    end in
  match found with
  | Some c => ret c
  | None =>
      let* now1 := utcnow env in
      let* now2 := utcnow env in
      Conversation_insert env
        (Conversation.init user_id (Some (lit "New Conversation"))
           (<[ "max_tokens" := VInt 512 ]> (<[ "temperature" := VFloat 0.7%float ]> ∅))
           now1 now2)
  end.

(** The loop of [_get_conversation_context] over the reversed list. *)
Definition context_step (context : list Turn.t) (message : Message.t) : list Turn.t :=
  if decide (Message.status message = MessageStatus.COMPLETED)
  then context ++ [turn_of message]
  else context.

(** [_get_conversation_context]. *)
Definition _get_conversation_context (conversation : Conversation.t) : M (list Turn.t) :=
  let* messages := get_messages env conversation (Conversation.context_window conversation) in
  let messages := reverse messages in
  ret (fold_left context_step messages []).

(** The handler of [process_user_message] once [ai_msg] is bound: mark it
    failed, save it, raise [e] again. *)
Definition mark_failed {A} (ai_msg : Message.t) (e : Exn) : M A :=
  Message_save env (Message.fail ai_msg (str_exn e)) ;;
  raise e.

(** [process_user_message], lines 39-54: resolve the conversation and
    append the two messages.  [ai_msg] is bound only when this returns. *)
Definition open_turn (conversation_id : option ObjectId)
    (user_message : pystr) (user_id : ObjectId)
    : M (Conversation.t * Message.t * Message.t) :=
  let* conversation := _get_or_create_conversation conversation_id user_id in
  let* (user_msg, conversation) :=
    add_message env conversation user_message MessageType.USER None in
  let* (ai_msg, conversation) :=
    add_message env conversation [] MessageType.ASSISTANT
      (Some MessageStatus.PROCESSING) in
  ret (conversation, user_msg, ai_msg).

(** Lines 57-64: build the context and call the model. *)
Definition generate_turn (conversation : Conversation.t)
    : M (pystr * gmap string PyVal) :=
  let* conversation_history := _get_conversation_context conversation in
  generate_response env conversation_history
    (dict_get (Conversation.model_config conversation) "max_tokens")
    (dict_get (Conversation.model_config conversation) "temperature").

(** Lines 74-94: save the completed message, add the tokens used to the
    conversation, save it, return. *)
Definition close_turn (conversation : Conversation.t) (user_msg ai_msg : Message.t)
    (response_text : pystr) (metadata : gmap string PyVal) : M Reply :=
  Message_save env ai_msg ;;
  let* conversation :=
    match dict_get_default metadata "tokens_used" (VInt 0) with
    | VInt n =>
        ret (Conversation.set_total_tokens_used
               (Conversation.total_tokens_used conversation + n) conversation)
    | _ => raise TypeError
    end in
  Conversation_save env conversation ;;
  ret {| reply_conversation_id := Conversation.id conversation;
         reply_user_message_id := Message.id user_msg;
         reply_ai_message_id := Message.id ai_msg;
         reply_response := response_text;
         reply_metadata := metadata |}.

(** [process_user_message].  The one [try] of the source is cut where the
    local [ai_msg] changes, so that the handler sees it as it is when the
    exception is raised: unbound up to the second [add_message], the
    placeholder up to the generation, the completed message after it. *)
Definition process_user_message (conversation_id : option ObjectId)
    (user_message : pystr) (user_id : ObjectId) : M Reply :=
  let* (conversation, user_msg, ai_msg) :=
    try_except (open_turn conversation_id user_message user_id)
      (fun e => raise e) in
  let* (response_text, metadata) :=
    try_except (generate_turn conversation)
      (fun e => mark_failed ai_msg e) in
  let ai_msg := Message.complete ai_msg response_text metadata in
  try_except (close_turn conversation user_msg ai_msg response_text metadata)
    (fun e => mark_failed ai_msg e).
End Manager.

(** ** The route handlers: [app/api/routes/conversations.py] (archive,
    restore) and [app/api/routes/chat.py] (send_message) *)

(** [ChatResponse]; the three ids are their [str] in the source. *)
Record ChatResponse := {
  chat_conversation_id : ObjectId;
  chat_user_message_id : ObjectId;
  chat_ai_message_id : ObjectId;
  chat_response : pystr;
  chat_metadata : gmap string PyVal;
}.

Section Routes.
Context (env : Env).
#[local] Open Scope py_scope.

(** [get_object_id]. *)
Definition get_object_id (id_str : pystr) : M ObjectId :=
  match ObjectId_of_str id_str with
  | Some id => ret id
  | None => raise (HTTPException 400 (lit "Invalid ID format"))
  end.

(** [except HTTPException: raise / except Exception: raise HTTPException(500)]. *)
Definition http_errors {A} (detail : pystr) (c : M A) : M A :=
  try_except c (fun e =>
    match e with
    | HTTPException _ _ => raise e
    | _ => raise (HTTPException 500 detail)
    end).

(** The body both handlers share but for the status they write. *)
Definition set_conversation_status (new_status : ConversationStatus.t)
    (conversation_id : pystr) (current_user_id : ObjectId) : M unit :=
  let* conv_id := get_object_id conversation_id in
  let* conversation := Conversation_get env conv_id in
  match conversation with
  | Some conversation =>
      if decide (Conversation.user_id conversation = current_user_id)
      then
        let conversation := Conversation.set_status new_status conversation in
        let* conversation := update_timestamp env conversation in
        Conversation_save env conversation
      else raise (HTTPException 404 (lit "Conversation not found"))
  | None => raise (HTTPException 404 (lit "Conversation not found"))
  end.

(** [archive_conversation]. *)
Definition archive_conversation (conversation_id : pystr) (current_user_id : ObjectId) : M unit :=
  http_errors (lit "Failed to archive conversation")
    (set_conversation_status ConversationStatus.ARCHIVED conversation_id current_user_id).

(** [restore_conversation]. *)
Definition restore_conversation (conversation_id : pystr) (current_user_id : ObjectId) : M unit :=
  http_errors (lit "Failed to restore conversation")
    (set_conversation_status ConversationStatus.ACTIVE conversation_id current_user_id).

(** [send_message]: [request_conversation_id] is converted when it is given
    and not empty; the response names the id of the request when there was
    one, and the id the manager returns otherwise.  The only handler is
    [except Exception], which turns everything into a 500. *)
Definition send_message (message : pystr) (request_conversation_id : option pystr)
    (current_user_id : ObjectId) : M ChatResponse :=
  try_except
    (let* conversation_id :=
       match request_conversation_id with
       | Some (c :: s) => let* id := get_object_id (c :: s) in ret (Some id)
       | _ => ret None
       end in
     let* result :=
       process_user_message env conversation_id message current_user_id in
     ret {| chat_conversation_id :=
              match conversation_id with
              | Some id => id
              | None => reply_conversation_id result
              end;
            chat_user_message_id := reply_user_message_id result;
            chat_ai_message_id := reply_ai_message_id result;
            chat_response := reply_response result;
            chat_metadata := reply_metadata result |})
    (fun _ => raise (HTTPException 500 (lit "Failed to process message"))).
End Routes.

(** ** Predicates of the statements *)

(** [0.1 <= v <= 0.9], with the comparisons of binary64. *)
Definition in_confidence_range (v : float) : Prop :=
  PrimFloat.leb 0.1%float v = true /\ PrimFloat.leb v 0.9%float = true.

(** The store never raises. *)
Definition reliable (env : Env) : Prop := forall n, store_fails env n = false.

Definition confidence_formula (word_count : Z) : float :=
  float_min 0.9%float (0.4 + (truediv word_count 100) * 0.5)%float.

Definition in_confidence_rangeb (v : float) : bool :=
  PrimFloat.leb 0.1%float v && PrimFloat.leb v 0.9%float.

(** The conversation a supplied id resolves to: stored under it and owned by
    the caller. *)
Definition resolves (conversation_id : option ObjectId) (user_id : ObjectId)
    (w : World) (c : Conversation.t) : Prop :=
  exists id, conversation_id = Some id /\ conversations w !! id = Some c /\
             Conversation.user_id c = user_id.

(** The document [_get_or_create_conversation] inserts otherwise. *)
Definition new_conversation (env : Env) (user_id : ObjectId) (w : World) : Conversation.t :=
  Conversation.init user_id (Some (lit "New Conversation"))
    (<[ "max_tokens" := VInt 512 ]> (<[ "temperature" := VFloat 0.7%float ]> ∅))
    (clock env (clock_reads w)) (clock env (S (clock_reads w))) (next_id w).

Definition completed (m : Message.t) : Prop :=
  Message.status m = MessageStatus.COMPLETED.

#[global] Instance completed_dec m : Decision (completed m).
Proof. unfold completed. apply _. Defined.

(** What [get_messages] hands to the loop: the messages of the conversation,
    newest first, cut by the store at [context_window]. *)
Definition fetched (conversation : Conversation.t) (w : World) : list Message.t :=
  store_limit (Conversation.context_window conversation)
    (merge_sort newer_first
       (filter (fun m => Message.conversation_id m = Conversation.id conversation)
               (messages w))).

(** The messages the entries of the context are made from, in order. *)
Definition context_sources (conversation : Conversation.t) (w : World) : list Message.t :=
  filter completed (reverse (fetched conversation w)).

Definition older_first (m1 m2 : Message.t) : Prop :=
  Message.timestamp m1 <= Message.timestamp m2.

(** The writes to the messages collection that a journal records: which
    document, of which type, with which status. *)
Definition message_write (e : Event) : option (ObjectId * MessageType.t * MessageStatus.t) :=
  match e with
  | MessageInserted m | MessageSaved m =>
      Some (Message.id m, Message.message_type m, Message.status m)
  | _ => None
  end.

Definition message_writes (j : list Event) : list (ObjectId * MessageType.t * MessageStatus.t) :=
  omap message_write j.

(** How many stored messages refer to the conversation [id]. *)
Definition stored_count (id : ObjectId) (w : World) : Z :=
  len (filter (fun m => Message.conversation_id m = id) (messages w)).

(** The invariant of the data model: every stored conversation counts the
    stored messages that refer to it. *)
Definition counts_agree (w : World) : Prop :=
  forall id c, conversations w !! id = Some c ->
    Conversation.message_count c = stored_count id w.

(** What the store guarantees by itself: a document is stored under its own
    id, and ids handed out later are not in use. *)
Definition store_ok (w : World) : Prop :=
  (forall id c, conversations w !! id = Some c ->
     Conversation.id c = id /\ (id < next_id w)%N) /\
  (forall m, m ∈ messages w ->
     (Message.id m < next_id w)%N /\ (Message.conversation_id m < next_id w)%N).

(** The conversation histories a journal shows [generate_response] to have
    been called with. *)
Definition generate_call (e : Event) : option (list Turn.t) :=
  match e with
  | Generate conversation_history _ _ => Some conversation_history
  | _ => None
  end.

Definition generate_calls (j : list Event) : list (list Turn.t) := omap generate_call j.

(** The parameters a journal shows the pipeline to have been called with. *)
Definition pipeline_call (e : Event) : option (PyVal * PyVal) :=
  match e with
  | PipelineCall _ max_length temperature => Some (max_length, temperature)
  | _ => None
  end.

Definition pipeline_calls (j : list Event) : list (PyVal * PyVal) := omap pipeline_call j.

(** ** Sample environments and stores *)

(** A store with nothing in it. *)
Definition empty_world : World :=
  {| conversations := ∅; messages := []; next_id := 1%N;
     clock_reads := 0; store_calls := 0; journal := [] |}.

(** A reliable store, a clock that ticks once per reading, and a pipeline
    that always answers the same sentence. *)
Definition echo_env : Env :=
  {| clock := fun n => 100 + Z.of_nat n;
     store_fails := fun _ => false;
     pipeline := fun _ _ _ => inr (lit "I am fine, thank you for asking", 0.25%float);
     env_settings := settings;
     device := lit "cpu" |}.

Definition sample_message (id conversation_id : ObjectId) (text : string)
    (message_type : MessageType.t) (status : MessageStatus.t) (timestamp : datetime)
    : Message.t :=
  {| Message.id := id; Message.conversation_id := conversation_id;
     Message.content := lit text; Message.message_type := message_type;
     Message.status := status; Message.timestamp := timestamp;
     Message.model_used := VNone; Message.confidence_score := VNone;
     Message.processing_time := VNone; Message.metadata := ∅ |}.

Definition sample_conversation (id user_id : ObjectId) (context_window message_count : Z)
    (model_config : gmap string PyVal) : Conversation.t :=
  {| Conversation.id := id; Conversation.user_id := user_id;
     Conversation.title := Some (lit "Chat");
     Conversation.status := ConversationStatus.ACTIVE;
     Conversation.created_at := 0; Conversation.updated_at := 0;
     Conversation.model_config := model_config;
     Conversation.context_window := context_window;
     Conversation.message_count := message_count;
     Conversation.total_tokens_used := 0; Conversation.metadata := ∅ |}.

Definition store_of (c : Conversation.t) (ms : list Message.t) (next_id : ObjectId) : World :=
  {| conversations := {[ Conversation.id c := c ]}; messages := ms; next_id := next_id;
     clock_reads := 0; store_calls := 0; journal := [] |}.

Arguments sample_message (id conversation_id)%_N text%_string _ _ timestamp%_Z.
Arguments sample_conversation (id user_id)%_N (context_window message_count)%_Z _.
Arguments store_of c ms next_id%_N.

(** Five completed messages in a conversation whose window is two. *)
Definition short_window_conversation : Conversation.t := sample_conversation 1 7 2 5 ∅.

Definition short_window_world : World :=
  store_of short_window_conversation
    [ sample_message 2 1 "one" MessageType.USER MessageStatus.COMPLETED 10;
      sample_message 3 1 "two" MessageType.ASSISTANT MessageStatus.COMPLETED 20;
      sample_message 4 1 "three" MessageType.USER MessageStatus.COMPLETED 30;
      sample_message 5 1 "four" MessageType.ASSISTANT MessageStatus.COMPLETED 40;
      sample_message 6 1 "five" MessageType.USER MessageStatus.COMPLETED 50 ] 7.

(** Two completed messages in a conversation whose window is zero. *)
Definition zero_window_conversation : Conversation.t := sample_conversation 1 7 0 2 ∅.

Definition zero_window_world : World :=
  store_of zero_window_conversation
    [ sample_message 2 1 "one" MessageType.USER MessageStatus.COMPLETED 10;
      sample_message 3 1 "two" MessageType.ASSISTANT MessageStatus.COMPLETED 20 ] 4.

(** A conversation that holds one completed SYSTEM message. *)
Definition system_message : Message.t :=
  sample_message 2 1 "Be brief." MessageType.SYSTEM MessageStatus.COMPLETED 10.

Definition system_conversation : Conversation.t := sample_conversation 1 7 10 1 ∅.

Definition system_world : World := store_of system_conversation [system_message] 3.

(** As [echo_env], but the pipeline always raises. *)
Definition failing_env : Env :=
  {| clock := fun n => 100 + Z.of_nat n;
     store_fails := fun _ => false;
     pipeline := fun _ _ _ => inl (lit "model not loaded");
     env_settings := settings;
     device := lit "cpu" |}.

(** As [echo_env], but the eighth call of the store raises: in a call that
    starts a conversation, that is the save of the conversation after the
    placeholder has been completed and saved. *)
Definition late_fault_env : Env :=
  {| clock := fun n => 100 + Z.of_nat n;
     store_fails := fun n => (n =? 7)%nat;
     pipeline := fun _ _ _ => inr (lit "I am fine, thank you for asking", 0.25%float);
     env_settings := settings;
     device := lit "cpu" |}.

(** The conversation [1], owned by user [7], last written at time 0. *)
Definition archive_conversation_sample : Conversation.t := sample_conversation 1 7 10 0 ∅.

Definition archive_world : World := store_of archive_conversation_sample [] 2.

(** [str(ObjectId)] of the conversation [1]. *)
Definition id_one : pystr := lit "000000000000000000000001".

(** A conversation whose window is one, with nothing in it yet. *)
Definition unit_window_conversation : Conversation.t := sample_conversation 1 7 1 0 ∅.

Definition unit_window_world : World := store_of unit_window_conversation [] 2.

(** A conversation whose overrides are [max_tokens = 0] and
    [temperature = 0.0]. *)
Definition zero_overrides : gmap string PyVal :=
  <[ "max_tokens" := VInt 0 ]> (<[ "temperature" := VFloat 0%float ]> ∅).

Definition zero_overrides_conversation : Conversation.t :=
  sample_conversation 1 7 10 0 zero_overrides.

Definition zero_overrides_world : World := store_of zero_overrides_conversation [] 2.

(** * The rest of the lifecycle code *)

(** ** More of the store *)

(** [cursor.skip(n)], for the [n >= 0] that the handlers pass. *)
Definition store_skip {A} (n : Z) (l : list A) : list A := drop (Z.to_nat n) l.

Section MoreStore.
Context (env : Env).

(** [Message.find(Message.conversation_id == id).sort(-Message.timestamp)
    .skip(offset).limit(limit).to_list()]. *)
Definition Message_find_page (id : ObjectId) (offset limit : Z) : M (list Message.t) :=
  store_call env (fun w =>
    (store_limit limit
       (store_skip offset
          (merge_sort newer_first
             (filter (fun m => Message.conversation_id m = id) (messages w)))), w)).

(** [Message.find(Message.conversation_id == id).delete()].  The journal
    keeps inserts and saves only. *)
Definition Message_delete_many (id : ObjectId) : M unit :=
  store_call env (fun w =>
    (tt, set_messages (filter (fun m => Message.conversation_id m <> id) (messages w)) w)).

(** [conversation.delete()]. *)
Definition Conversation_delete (c : Conversation.t) : M unit :=
  store_call env (fun w =>
    (tt, set_conversations (delete (Conversation.id c) (conversations w)) w)).
End MoreStore.

(** ** [ConversationManager]: summary and title *)

Definition Conversation_set_title (title : option pystr) (c : Conversation.t) : Conversation.t :=
  {| Conversation.id := Conversation.id c; Conversation.user_id := Conversation.user_id c;
     Conversation.title := title; Conversation.status := Conversation.status c;
     Conversation.created_at := Conversation.created_at c;
     Conversation.updated_at := Conversation.updated_at c;
     Conversation.model_config := Conversation.model_config c;
     Conversation.context_window := Conversation.context_window c;
     Conversation.message_count := Conversation.message_count c;
     Conversation.total_tokens_used := Conversation.total_tokens_used c;
     Conversation.metadata := Conversation.metadata c |}.

Definition Conversation_set_model_config (model_config : gmap string PyVal)
    (c : Conversation.t) : Conversation.t :=
  {| Conversation.id := Conversation.id c; Conversation.user_id := Conversation.user_id c;
     Conversation.title := Conversation.title c; Conversation.status := Conversation.status c;
     Conversation.created_at := Conversation.created_at c;
     Conversation.updated_at := Conversation.updated_at c;
     Conversation.model_config := model_config;
     Conversation.context_window := Conversation.context_window c;
     Conversation.message_count := Conversation.message_count c;
     Conversation.total_tokens_used := Conversation.total_tokens_used c;
     Conversation.metadata := Conversation.metadata c |}.

(** One entry of ["recent_messages"] in the summary. *)
Module Preview.
Record t := {
  id : ObjectId;
  content : pystr;
  type : MessageType.t;
  timestamp : datetime;
}.
End Preview.

(** The dictionary [get_conversation_summary] returns. *)
Module Summary.
Record t := {
  conversation_id : ObjectId;
  title : option pystr;
  status : ConversationStatus.t;
  message_count : Z;
  created_at : datetime;
  updated_at : datetime;
  recent_messages : list Preview.t;
}.
End Summary.

(** [ValueError(msg)]. *)
Inductive ValueError := ValueError_of (msg : pystr).

(** [msg.content[:100] + "..." if len(msg.content) > 100 else msg.content]:
    the conditional expression binds last. *)
Definition preview_content (content : pystr) : pystr :=
  if 100 <? len content then take 100 content ++ lit "..." else content.

Definition preview_of (msg : Message.t) : Preview.t :=
  {| Preview.id := Message.id msg;
     Preview.content := preview_content (Message.content msg);
     Preview.type := Message.message_type msg;
     Preview.timestamp := Message.timestamp msg |}.

Section ManagerRest.
Context (env : Env).
#[local] Open Scope py_scope.

(** [get_conversation_summary].  The function has no handler of its own:
    its [raise ValueError] is the [inl] of the value, an exception of the
    store is the exception of the computation. *)
Definition get_conversation_summary (conversation_id : ObjectId)
    : M (ValueError + Summary.t) :=
  let* conversation := Conversation_get env conversation_id in
  match conversation with
  | None => ret (inl (ValueError_of (lit "Conversation not found")))
  | Some conversation =>
      let* messages := get_messages env conversation 10 in
      ret (inr {| Summary.conversation_id := Conversation.id conversation;
                  Summary.title := Conversation.title conversation;
                  Summary.status := Conversation.status conversation;
                  Summary.message_count := Conversation.message_count conversation;
                  Summary.created_at := Conversation.created_at conversation;
                  Summary.updated_at := Conversation.updated_at conversation;
                  Summary.recent_messages := preview_of <$> take 5 messages |})
  end.

(** [update_conversation_title]. *)
Definition update_conversation_title (conversation_id : ObjectId) (title : pystr) : M bool :=
  try_except
    (let* conversation := Conversation_get env conversation_id in
     match conversation with
     | Some conversation =>
         let conversation := Conversation_set_title (Some title) conversation in
         let* conversation := update_timestamp env conversation in
         Conversation_save env conversation ;;
         ret true
     | None => ret false
     end)
    (fun _ => ret false).
End ManagerRest.

(** ** The other route handlers *)

(** [MessageResponse]. *)
Module MessageResponse.
Record t := {
  id : ObjectId;
  conversation_id : ObjectId;
  content : pystr;
  message_type : MessageType.t;
  status : MessageStatus.t;
  timestamp : datetime;
  confidence_score : PyVal;
}.
End MessageResponse.

(** [ConversationResponse]. *)
Module ConversationResponse.
Record t := {
  id : ObjectId;
  user_id : ObjectId;
  title : option pystr;
  status : ConversationStatus.t;
  created_at : datetime;
  updated_at : datetime;
  message_count : Z;
  recent_messages : list MessageResponse.t;
}.
End ConversationResponse.

(** [ConversationUpdate]: every field is optional. *)
Module ConversationUpdate.
Record t := {
  title : option pystr;
  status : option ConversationStatus.t;
  model_config : option (gmap string PyVal);
}.
End ConversationUpdate.

(** *** [app/database.py]: the documents the ODM is given *)

(** The classes of [app/models] that derive from beanie's [Document]. *)
Inductive DocumentClass :=
| User_class
| Conversation_class
| Message_class
| MessageCreate_class
| MessageResponse_class
| ConversationCreate_class
| ConversationResponse_class.

#[global] Instance DocumentClass_eq_dec : EqDecision DocumentClass.
Proof. solve_decision. Defined.

(** [init_database]:
    [init_beanie(database=..., document_models=[User, Conversation, Message])]. *)
Definition document_models : list DocumentClass :=
  [User_class; Conversation_class; Message_class].

(** The constructor call of a class that derives from [Document]: the
    constructor asks for the collection of the class, and that raises
    [CollectionWasNotInitialized] for a class that [init_beanie] was not
    given.  [Conversation] and [Message] were given, so that
    [Conversation.init] and [Message.init] return; the response classes
    were not. *)
Definition new_document {A} (cls : DocumentClass) (fields : A) : M A :=
  if decide (cls ∈ document_models) then ret fields
  else raise CollectionWasNotInitialized.

(** A list comprehension whose element may raise. *)
Fixpoint for_each {A B} (f : A -> M B) (l : list A) : M (list B) :=
  match l with
  | [] => ret []
  | a :: l' => bind (f a) (fun b => bind (for_each f l') (fun bs => ret (b :: bs)))
  end.

(** [MessageResponse(id=str(msg.id), ...)]. *)
Definition MessageResponse_of (msg : Message.t) : M MessageResponse.t :=
  new_document MessageResponse_class
    {| MessageResponse.id := Message.id msg;
       MessageResponse.conversation_id := Message.conversation_id msg;
       MessageResponse.content := Message.content msg;
       MessageResponse.message_type := Message.message_type msg;
       MessageResponse.status := Message.status msg;
       MessageResponse.timestamp := Message.timestamp msg;
       MessageResponse.confidence_score := Message.confidence_score msg |}.

(** [ConversationResponse(id=str(conversation.id), ...,
    recent_messages=recent_messages)]. *)
Definition ConversationResponse_of (conversation : Conversation.t)
    (recent_messages : list MessageResponse.t) : M ConversationResponse.t :=
  new_document ConversationResponse_class
    {| ConversationResponse.id := Conversation.id conversation;
       ConversationResponse.user_id := Conversation.user_id conversation;
       ConversationResponse.title := Conversation.title conversation;
       ConversationResponse.status := Conversation.status conversation;
       ConversationResponse.created_at := Conversation.created_at conversation;
       ConversationResponse.updated_at := Conversation.updated_at conversation;
       ConversationResponse.message_count := Conversation.message_count conversation;
       ConversationResponse.recent_messages := recent_messages |}.

(** The three [if ... is not None] blocks of [update_conversation]: the
    conversation as they leave it and the names of the fields they set.
    [model_config.update(d)] keeps the old keys that [d] does not have. *)
Definition apply_update (update_data : ConversationUpdate.t) (conversation : Conversation.t)
    : Conversation.t * list string :=
  let '(conversation, updated_fields) :=
    match ConversationUpdate.title update_data with
    | Some title => (Conversation_set_title (Some title) conversation, ["title"%string])
    | None => (conversation, [])
    end in
  let '(conversation, updated_fields) :=
    match ConversationUpdate.status update_data with
    | Some status => (Conversation.set_status status conversation,
                      updated_fields ++ ["status"%string])
    | None => (conversation, updated_fields)
    end in
  match ConversationUpdate.model_config update_data with
  | Some model_config =>
      (Conversation_set_model_config
         (model_config ∪ Conversation.model_config conversation) conversation,
       updated_fields ++ ["model_config"%string])
  | None => (conversation, updated_fields)
  end.

Section RoutesRest.
Context (env : Env).
#[local] Open Scope py_scope.

(** What the handlers of one conversation start with: convert the id, get
    the conversation, 404 unless it is there and the caller's.  It gives
    the locals [conv_id] and [conversation]. *)
Definition get_owned_conversation (conversation_id : pystr) (current_user_id : ObjectId)
    : M (ObjectId * Conversation.t) :=
  let* conv_id := get_object_id conversation_id in
  let* conversation := Conversation_get env conv_id in
  match conversation with
  | Some conversation =>
      if decide (Conversation.user_id conversation = current_user_id)
      then ret (conv_id, conversation)
      else raise (HTTPException 404 (lit "Conversation not found"))
  | None => raise (HTTPException 404 (lit "Conversation not found"))
  end.

(** [get_conversation_messages].  The framework admits [1 <= limit <= 200]
    and [0 <= offset] only.  The response is built inside the [try]. *)
Definition get_conversation_messages (conversation_id : pystr) (limit offset : Z)
    (current_user_id : ObjectId) : M (list MessageResponse.t) :=
  http_errors (lit "Failed to retrieve messages")
    (let* (conv_id, conversation) :=
       get_owned_conversation conversation_id current_user_id in
     let* messages := Message_find_page env conv_id offset limit in
     for_each MessageResponse_of messages).

(** [update_conversation]: nothing is saved when no field was given. *)
Definition update_conversation (conversation_id : pystr)
    (update_data : ConversationUpdate.t) (current_user_id : ObjectId) : M (list string) :=
  http_errors (lit "Failed to update conversation")
    (let* (conv_id, conversation) :=
       get_owned_conversation conversation_id current_user_id in
     let '(conversation, updated_fields) := apply_update update_data conversation in
     match updated_fields with
     | [] => ret updated_fields
     | _ =>
         let* conversation := update_timestamp env conversation in
         Conversation_save env conversation ;;
         ret updated_fields
     end).

(** [get_conversation] of [chat.py]; the list of [recent_messages] is
    built before the response that takes it. *)
Definition get_conversation (conversation_id : pystr) (current_user_id : ObjectId)
    : M ConversationResponse.t :=
  http_errors (lit "Failed to retrieve conversation")
    (let* (conv_id, conversation) :=
       get_owned_conversation conversation_id current_user_id in
     let* messages := get_messages env conversation 100 in
     let* recent_messages := for_each MessageResponse_of messages in
     ConversationResponse_of conversation recent_messages).

(** [create_conversation] of [chat.py]: [request.title or "New Conversation"],
    [request.model_config or {}]; the only handler is [except Exception]. *)
Definition create_conversation (request_title : option pystr)
    (request_model_config : gmap string PyVal) (current_user_id : ObjectId)
    : M ConversationResponse.t :=
  try_except
    (let title :=
       match request_title with
       | Some (c :: s) => c :: s
       | _ => lit "New Conversation"
       end in
     let* now1 := utcnow env in
     let* now2 := utcnow env in
     let* conversation :=
       Conversation_insert env
         (Conversation.init current_user_id (Some title) request_model_config now1 now2) in
     ConversationResponse_of conversation [])
    (fun _ => raise (HTTPException 500 (lit "Failed to create conversation"))).

(** [delete_conversation] of [chat.py]: the messages first, then the
    conversation. *)
Definition delete_conversation (conversation_id : pystr) (current_user_id : ObjectId)
    : M unit :=
  http_errors (lit "Failed to delete conversation")
    (let* (conv_id, conversation) :=
       get_owned_conversation conversation_id current_user_id in
     Message_delete_many env conv_id ;;
     Conversation_delete env conversation).
End RoutesRest.

(** The exception of the handlers for a conversation that is not the
    caller's to see. *)
Definition not_found : Exn := HTTPException 404 (lit "Conversation not found").

(** What a handler lets out: an [HTTPException] with one of these codes. *)
Definition http_error (codes : list Z) (e : Exn) : Prop :=
  exists code detail, e = HTTPException code detail /\ code ∈ codes.

(** Every [HTTPException] that the computation raises has one of these
    codes; it may raise other exceptions. *)
Definition passes {A} (codes : list Z) (c : M A) : Prop :=
  forall w, match (c w).1 with
            | inl (HTTPException code _) => code ∈ codes
            | _ => True
            end.

(** The result is a value, or an exception that satisfies [P]. *)
Definition raises_only {A} (P : Exn -> Prop) (r : Exn + A) : Prop :=
  match r with
  | inl e => P e
  | inr _ => True
  end.

(** A conversation of user [7] with a title, a status and two overrides, and
    an update that renames it and sets one override. *)
Definition titled_conversation : Conversation.t :=
  sample_conversation 1 7 10 0
    (<[ "max_tokens" := VInt 256 ]> (<[ "temperature" := VFloat 0.5%float ]> ∅)).

Definition titled_world : World := store_of titled_conversation [] 2.

Definition rename_update : ConversationUpdate.t :=
  {| ConversationUpdate.title := Some (lit "Holiday plans");
     ConversationUpdate.status := None;
     ConversationUpdate.model_config := Some {[ "max_tokens" := VInt 64 ]} |}.

(** [[name]] when the optional field was given. *)
Definition if_given {A} (field : option A) (name : string) : list string :=
  match field with
  | Some _ => [name]
  | None => []
  end.

(** The messages of a conversation as the store sorts them, newest first. *)
Definition newest_first_of (id : ObjectId) (w : World) : list Message.t :=
  merge_sort newer_first (filter (fun m => Message.conversation_id m = id) (messages w)).

(** A conversation with seven messages, the newest of 120 code points. *)
Definition long_text : pystr := repeat 97%N 120.

Definition busy_conversation : Conversation.t := sample_conversation 1 7 10 7 ∅.

Definition busy_world : World :=
  {| conversations := {[ 1%N := busy_conversation ]};
     messages :=
       [ sample_message 2 1 "one" MessageType.USER MessageStatus.COMPLETED 10;
         sample_message 3 1 "two" MessageType.ASSISTANT MessageStatus.COMPLETED 20;
         sample_message 4 1 "three" MessageType.USER MessageStatus.COMPLETED 30;
         sample_message 5 1 "four" MessageType.ASSISTANT MessageStatus.COMPLETED 40;
         sample_message 6 1 "five" MessageType.USER MessageStatus.COMPLETED 50;
         sample_message 7 1 "six" MessageType.ASSISTANT MessageStatus.COMPLETED 60;
         {| Message.id := 8%N; Message.conversation_id := 1%N;
            Message.content := long_text; Message.message_type := MessageType.USER;
            Message.status := MessageStatus.COMPLETED; Message.timestamp := 70;
            Message.model_used := VNone; Message.confidence_score := VNone;
            Message.processing_time := VNone; Message.metadata := ∅ |} ];
     next_id := 9%N; clock_reads := 0; store_calls := 0; journal := [] |}.

(** The store is in order and every counter agrees with the messages. *)
Definition healthy (w : World) : Prop := store_ok w /\ counts_agree w.

(** As [echo_env], but the third call of the store raises: in
    [delete_conversation], that is the delete of the conversation, after
    its messages have been deleted. *)
Definition delete_fault_env : Env :=
  {| clock := fun n => 100 + Z.of_nat n;
     store_fails := fun n => (n =? 2)%nat;
     pipeline := fun _ _ _ => inr (lit "I am fine, thank you for asking", 0.25%float);
     env_settings := settings;
     device := lit "cpu" |}.


(** The fields of a conversation that [add_message] leaves alone. *)
Definition same_but_count_and_time (c c' : Conversation.t) : Prop :=
  Conversation.id c' = Conversation.id c /\
  Conversation.user_id c' = Conversation.user_id c /\
  Conversation.title c' = Conversation.title c /\
  Conversation.status c' = Conversation.status c /\
  Conversation.created_at c' = Conversation.created_at c /\
  Conversation.model_config c' = Conversation.model_config c /\
  Conversation.context_window c' = Conversation.context_window c /\
  Conversation.total_tokens_used c' = Conversation.total_tokens_used c /\
  Conversation.metadata c' = Conversation.metadata c.

(** The conversation [1] of user [7], archived, with nothing in it. *)
Definition archived_world : World :=
  store_of (Conversation.set_status ConversationStatus.ARCHIVED archive_conversation_sample)
    [] 2.

(** As [echo_env], but the fifth call of the store raises: in a turn on a
    stored conversation, that is the save of the conversation in the second
    [add_message]. *)
Definition placeholder_fault_env : Env :=
  {| clock := fun n => 100 + Z.of_nat n;
     store_fails := fun n => (n =? 4)%nat;
     pipeline := fun _ _ _ => inr (lit "I am fine, thank you for asking", 0.25%float);
     env_settings := settings;
     device := lit "cpu" |}.

(** The prompts a journal shows the pipeline to have been called with. *)
Definition prompt_of (e : Event) : option pystr :=
  match e with
  | PipelineCall prompt _ _ => Some prompt
  | _ => None
  end.

Definition prompts (j : list Event) : list pystr := omap prompt_of j.

(** A history of twelve turns, numbered from the oldest. *)
Definition twelve_turns : list Turn.t :=
  (fun n : nat => {| Turn.role := if Nat.even n then "user" else "assistant";
                     Turn.content := [N.of_nat (48 + n)] |}) <$> seq 0 12.

(** ** [app/security.py]: input validation and rate limiting *)

(** [l[:k]] with Python's treatment of negative and out-of-range [k]. *)
Definition slice_to {A} (l : list A) (k : Z) : list A :=
  let n := Z.of_nat (length l) in
  let k' := if k <? 0 then Z.max 0 (k + n) else Z.min k n in
  take (Z.to_nat k') l.

(** [ord(char) >= 32 or char in "\n\r\t"]. *)
Definition keeps (char : N) : bool :=
  ((32 <=? char) || (char =? 10) || (char =? 13) || (char =? 9))%N.

(** [sanitize_input]. *)
Definition sanitize_input (text : pystr) (max_length : Z) : pystr :=
  match text with
  | [] => []
  | _ =>
      let sanitized := filter (fun char => Is_true (keeps char)) text in
      let sanitized :=
        if max_length <? len sanitized then slice_to sanitized max_length else sanitized in
      strip sanitized
  end.

(** [InputValidator.validate_conversation_message]. *)
Definition validate_conversation_message (content : pystr) : Exn + pystr :=
  if match content with [] => true | _ => false end
     || match strip content with [] => true | _ => false end
  then inl (HTTPException 400 (lit "Message content cannot be empty"))
  else
    let sanitized := sanitize_input content 2000 in
    if len sanitized <? 1
    then inl (HTTPException 400 (lit "Message content is too short"))
    else inr sanitized.

(** [InputValidator.validate_conversation_title]. *)
Definition validate_conversation_title (title : pystr) : pystr :=
  match title with
  | [] => lit "Untitled Conversation"
  | _ =>
      let sanitized := sanitize_input title 100 in
      match sanitized with
      | [] => lit "Untitled Conversation"
      | _ => sanitized
      end
  end.

(** [float(n)] for an int of magnitude below 2^53, where the conversion is
    exact and comparing with the float is comparing with the int. *)
Definition float_of_int (n : Z) : float :=
  if n <? 0 then (- PrimFloat.of_uint63 (Uint63.of_Z (- n)))%float
  else PrimFloat.of_uint63 (Uint63.of_Z n).

(** [class RateLimiter]; [requests] maps an identifier to the times of the
    requests that were let through.  [window_seconds] is an int of
    magnitude below 2^53, as the 3600 of the two limiters of the module. *)
Module RateLimiter.
Record t := {
  max_requests : Z;
  window_seconds : Z;
  requests : gmap pystr (list float);
}.

Definition init (max_requests window_seconds : Z) : t :=
  {| max_requests := max_requests; window_seconds := window_seconds; requests := ∅ |}.

Definition set_requests (r : gmap pystr (list float)) (self : t) : t :=
  {| max_requests := max_requests self; window_seconds := window_seconds self;
     requests := r |}.

(** [is_allowed]; [current_time] is the reading of [time.time()]. *)
Definition is_allowed (self : t) (identifier : pystr) (current_time : float) : bool * t :=
  let self :=
    match requests self !! identifier with
    | Some times =>
        set_requests
          (<[identifier :=
               filter (fun req_time =>
                         Is_true (PrimFloat.ltb (current_time - req_time)
                                    (float_of_int (window_seconds self))))
                      times]> (requests self)) self
    | None => set_requests (<[identifier := []]> (requests self)) self
    end in
  let times := default [] (requests self !! identifier) in
  if max_requests self <=? len times then (false, self)
  else (true, set_requests (<[identifier := times ++ [current_time]]> (requests self)) self).

(** A sequence of calls, each an identifier and the time of the call. *)
Definition run (self : t) (calls : list (pystr * float)) : t :=
  fold_left (fun self call => (is_allowed self call.1 call.2).2) calls self.

(** No identifier has more recorded requests than the limit. *)
Definition bounded (self : t) : Prop :=
  forall identifier times,
    requests self !! identifier = Some times -> len times <= max_requests self.
End RateLimiter.

(** Has neither leading nor trailing whitespace. *)
Definition stripped (s : pystr) : Prop := lstrip s = s /\ lstrip (rev s) = rev s.

(** ** [app/websocket.py]: the connection manager *)

(** A [WebSocket] object, by its [id(websocket)]. *)
Definition WebSocket := N.

(** What the sockets do: [accept_raises ws] tells whether
    [websocket.accept()] raises, [send_raises ws n] whether sending a text
    raises when [n] texts have been handed to the sockets before. *)
Record Net := {
  accept_raises : WebSocket -> bool;
  send_raises : WebSocket -> nat -> bool;
}.

Module ConnectionManager.
(** The two dictionaries of the manager; [outbox] is the texts the sockets
    have taken and [attempts] the number of sends tried, neither is a field
    of the class. *)
Record t := {
  active_connections : gmap pystr WebSocket;
  user_connections : gmap pystr pystr;
  outbox : list (WebSocket * gmap string PyVal);
  attempts : nat;
}.

Definition init : t :=
  {| active_connections := ∅; user_connections := ∅; outbox := []; attempts := 0 |}.

Section Manager.
Context (net : Net).

(** [connect]: [None] when [websocket.accept()] raises, which it does
    before anything is registered. *)
Definition connect (websocket : WebSocket) (user_id connection_id : pystr) (self : t)
    : option t :=
  if accept_raises net websocket then None
  else Some {| active_connections := <[connection_id := websocket]> (active_connections self);
               user_connections := <[user_id := connection_id]> (user_connections self);
               outbox := outbox self; attempts := attempts self |}.

(** [disconnect]. *)
Definition disconnect (connection_id : pystr) (user_id : option pystr) (self : t) : t :=
  {| active_connections := delete connection_id (active_connections self);
     user_connections :=
       match user_id with
       | Some (c :: s) => delete (c :: s) (user_connections self)
       | _ => user_connections self
       end;
     outbox := outbox self; attempts := attempts self |}.

(** [send_personal_message]. *)
Definition send_personal_message (message : gmap string PyVal) (user_id : pystr) (self : t)
    : bool * t :=
  match user_connections self !! user_id with
  | Some (c :: s) =>
      let connection_id := c :: s in
      match active_connections self !! connection_id with
      | Some websocket =>
          let self := {| active_connections := active_connections self;
                         user_connections := user_connections self;
                         outbox := outbox self; attempts := S (attempts self) |} in
          if send_raises net websocket (pred (attempts self))
          then (false, disconnect connection_id (Some user_id) self)
          else (true, {| active_connections := active_connections self;
                         user_connections := user_connections self;
                         outbox := outbox self ++ [(websocket, message)];
                         attempts := attempts self |})
      | None => (false, self)
      end
  | _ => (false, self)
  end.
End Manager.
End ConnectionManager.

(** Sockets that never raise. *)
Definition quiet_net : Net :=
  {| accept_raises := fun _ => false; send_raises := fun _ _ => false |}.

(** ** The routes together *)

(** A request to one of the routes of [chat.py] and [conversations.py]
    that the development covers, with the arguments the route takes. *)
Inductive Request :=
| SendMessage (message : pystr) (conversation_id : option pystr)
| GetConversation (conversation_id : pystr)
| CreateConversation (title : option pystr) (model_config : gmap string PyVal)
| DeleteConversation (conversation_id : pystr)
| GetConversationMessages (conversation_id : pystr) (limit offset : Z)
| UpdateConversation (conversation_id : pystr) (update_data : ConversationUpdate.t)
| ArchiveConversation (conversation_id : pystr)
| RestoreConversation (conversation_id : pystr).

(** The store after the handler of a request has run for a user, whether
    it returned or raised. *)
Definition serve (env : Env) (current_user_id : ObjectId) (request : Request) (w : World)
    : World :=
  match request with
  | SendMessage message conversation_id =>
      (send_message env message conversation_id current_user_id w).2
  | GetConversation conversation_id =>
      (get_conversation env conversation_id current_user_id w).2
  | CreateConversation title model_config =>
      (create_conversation env title model_config current_user_id w).2
  | DeleteConversation conversation_id =>
      (delete_conversation env conversation_id current_user_id w).2
  | GetConversationMessages conversation_id limit offset =>
      (get_conversation_messages env conversation_id limit offset current_user_id w).2
  | UpdateConversation conversation_id update_data =>
      (update_conversation env conversation_id update_data current_user_id w).2
  | ArchiveConversation conversation_id =>
      (archive_conversation env conversation_id current_user_id w).2
  | RestoreConversation conversation_id =>
      (restore_conversation env conversation_id current_user_id w).2
  end.

(** A sequence of requests, each with the user who makes it. *)
Definition serve_all (env : Env) (requests : list (ObjectId * Request)) (w : World) : World :=
  fold_left (fun w request => serve env request.1 request.2 w) requests w.

(** * Properties *)

(** ** The monad *)

Lemma bind_inr_inv {A B} (c : M A) (k : A -> M B) w b w' :
  bind c k w = (inr b, w') ->
  exists a w1, c w = (inr a, w1) /\ k a w1 = (inr b, w').
Proof.
  unfold bind. destruct (c w) as [[e|a] w1]; intros H; [discriminate|eauto].
Qed.

Lemma try_except_inr_inv {A} (c : M A) (h : Exn -> M A) w a w' :
  (forall e w1, fst (h e w1) <> inr a) ->
  try_except c h w = (inr a, w') -> c w = (inr a, w').
Proof.
  unfold try_except. intros Hh. destruct (c w) as [[e|a0] w1]; intros H; [|done].
  exfalso. apply (Hh e w1). by rewrite H.
Qed.

Lemma raise_not_inr {A} (e : Exn) w (a : A) : fst (raise e w) <> inr a.
Proof. done. Qed.

Lemma mark_failed_not_inr {A} env ai_msg e w (a : A) :
  fst (mark_failed env ai_msg e w) <> inr a.
Proof.
  unfold mark_failed, bind. destruct (Message_save _ _ _) as [[e'|[]] w1]; done.
Qed.

(** ** [_calculate_confidence] *)

Lemma confidence_formula_table :
  forallb (fun n => in_confidence_rangeb (confidence_formula (Z.of_nat n))) (seq 3 98) = true.
Proof. vm_compute. reflexivity. Qed.

Lemma confidence_formula_range word_count :
  3 <= word_count <= 100 -> in_confidence_range (confidence_formula word_count).
Proof.
  intros Hwc.
  pose proof confidence_formula_table as Htab.
  rewrite forallb_forall in Htab.
  specialize (Htab (Z.to_nat word_count)).
  rewrite Z2Nat.id in Htab by lia.
  unfold in_confidence_rangeb in Htab. unfold in_confidence_range.
  apply andb_prop. apply Htab.
  apply in_seq. lia.
Qed.

Lemma calculate_confidence_range text :
  in_confidence_range (_calculate_confidence text).
Proof.
  unfold _calculate_confidence.
  destruct (_ || _); [split; reflexivity|].
  destruct (_ <? 3) eqn:H3; [split; reflexivity|].
  destruct (100 <? _) eqn:H100; [split; reflexivity|].
  apply confidence_formula_range. lia.
Qed.

(** ** [generate_response] *)

(** ** The store *)

Lemma store_call_inr_inv {A} env (op : World -> A * World) w a w' :
  store_call env op w = (inr a, w') ->
  store_fails env (store_calls w) = false /\ op (count_store_call w) = (a, w').
Proof.
  unfold store_call. destruct (store_fails _ _); [discriminate|].
  destruct (op _) as [a0 w0]. intros H. by injection H as <- <-.
Qed.

Lemma replace_message_elem m ms : m ∈ replace_message m ms.
Proof.
  induction ms as [|m' ms IH]; simpl; [set_solver|].
  destruct (_ =? _)%N; set_solver.
Qed.

Lemma Message_save_inr_inv env m w u w' :
  Message_save env m w = (inr u, w') ->
  messages w' = replace_message m (messages w) /\
  conversations w' = conversations w /\
  next_id w' = next_id w /\
  clock_reads w' = clock_reads w /\
  journal w' = journal w ++ [MessageSaved m].
Proof.
  intros H. apply store_call_inr_inv in H as [_ H].
  injection H as _ <-. done.
Qed.

Lemma Conversation_save_inr_inv env c w u w' :
  Conversation_save env c w = (inr u, w') ->
  messages w' = messages w /\
  conversations w' = <[Conversation.id c := c]> (conversations w) /\
  next_id w' = next_id w /\
  clock_reads w' = clock_reads w /\
  journal w' = journal w ++ [ConversationSaved c].
Proof.
  intros H. apply store_call_inr_inv in H as [_ H].
  injection H as _ <-. done.
Qed.

Lemma Message_insert_inr_inv env doc w m w' :
  Message_insert env doc w = (inr m, w') ->
  m = doc (next_id w) /\
  messages w' = messages w ++ [m] /\
  conversations w' = conversations w /\
  next_id w' = N.succ (next_id w) /\
  clock_reads w' = clock_reads w /\
  journal w' = journal w ++ [MessageInserted m].
Proof.
  intros H. apply store_call_inr_inv in H as [_ H].
  injection H as <- <-. done.
Qed.

Lemma utcnow_inv env w r w' :
  utcnow env w = (r, w') ->
  r = inr (clock env (clock_reads w)) /\ w' = count_clock_read w.
Proof. unfold utcnow. intros H. by injection H as <- <-. Qed.

Lemma add_message_inr_inv env self content message_type status w message self' w' :
  add_message env self content message_type status w = (inr (message, self'), w') ->
  message = Message.init (Conversation.id self) content message_type status
              (clock env (clock_reads w)) (next_id w) /\
  messages w' = messages w ++ [message] /\
  Conversation.id self' = Conversation.id self /\
  Conversation.context_window self' = Conversation.context_window self /\
  Conversation.model_config self' = Conversation.model_config self /\
  Conversation.message_count self' = Conversation.message_count self + 1 /\
  conversations w' = <[Conversation.id self := self']> (conversations w) /\
  next_id w' = N.succ (next_id w) /\
  clock_reads w' = S (S (clock_reads w)) /\
  journal w' = journal w ++ [MessageInserted message; ConversationSaved self'].
Proof.
  unfold add_message, update_timestamp. intros H.
  apply bind_inr_inv in H as (now & w1 & Hnow & H).
  apply utcnow_inv in Hnow as [[= <-] ->].
  apply bind_inr_inv in H as (m & w2 & Hins & H).
  apply Message_insert_inr_inv in Hins as (-> & Hms & Hcs & Hid & Hclk & Hj).
  apply bind_inr_inv in H as (self1 & w3 & Hts & H).
  apply bind_inr_inv in Hts as (now' & w3' & Hnow' & Hts).
  apply utcnow_inv in Hnow' as [[= Hn] ->].
  injection Hts as <- <-.
  apply bind_inr_inv in H as ([] & w4 & Hsave & H).
  injection H as <- <- <-.
  apply Conversation_save_inr_inv in Hsave as (Hms' & Hcs' & Hid' & Hclk' & Hj').
  simpl in *.
  rewrite Hms', Hms, Hcs', Hcs, Hid', Hid, Hclk', Hclk, Hj', Hj, <- app_assoc.
  done.
Qed.

Lemma store_call_reliable {A} env (op : World -> A * World) w :
  reliable env ->
  store_call env op w = (inr (op (count_store_call w)).1, (op (count_store_call w)).2).
Proof.
  intros Hrel. unfold store_call. rewrite Hrel. by destruct (op _).
Qed.

Lemma Conversation_get_inv env id w r w' :
  Conversation_get env id w = (r, w') ->
  w' = count_store_call w /\
  (r = inr (conversations w !! id) \/ exists n, r = inl (StoreError n)).
Proof.
  unfold Conversation_get, store_call. destruct (store_fails _ _); intros H;
    injection H as <- <-; eauto.
Qed.

(** ** [_get_or_create_conversation] *)

Lemma get_or_create_inr_inv env cid uid w c w' :
  _get_or_create_conversation env cid uid w = (inr c, w') ->
  messages w' = messages w /\
  ((resolves cid uid w c /\ conversations w' = conversations w /\
    next_id w' = next_id w /\ clock_reads w' = clock_reads w /\
    journal w' = journal w)
   \/
   ((forall c0, ~ resolves cid uid w c0) /\ c = new_conversation env uid w /\
    conversations w' = <[next_id w := c]> (conversations w) /\
    next_id w' = N.succ (next_id w) /\ clock_reads w' = S (S (clock_reads w)) /\
    journal w' = journal w ++ [ConversationInserted c])).
Proof.
  unfold _get_or_create_conversation. intros H.
  apply bind_inr_inv in H as (found & w1 & Hfound & H).
  assert (messages w1 = messages w /\ conversations w1 = conversations w /\
          next_id w1 = next_id w /\ clock_reads w1 = clock_reads w /\
          journal w1 = journal w /\
          match found with
          | Some c0 => resolves cid uid w c0
          | None => forall c0, ~ resolves cid uid w c0
          end) as (Hms & Hcs & Hid & Hclk & Hj & Hres).
  { destruct cid as [id|].
    - apply bind_inr_inv in Hfound as (oc & w0 & Hget & Hfound).
      apply Conversation_get_inv in Hget as [-> [[= ->]|[n [=]]]].
      destruct (conversations w !! id) as [c0|] eqn:Hc0.
      + destruct (decide _) as [Hown|Hown]; injection Hfound as <- <-;
          (repeat split; try done).
        * by exists id.
        * intros c1 (id1 & [= <-] & Hc1 & Hu). congruence.
      + injection Hfound as <- <-. repeat split; try done.
        intros c1 (id1 & [= <-] & Hc1 & Hu). congruence.
    - injection Hfound as <- <-. repeat split; try done.
      intros c1 (id1 & [=] & _). }
  destruct found as [c0|].
  - injection H as <- <-. split; [done|]. left. done.
  - apply bind_inr_inv in H as (now1 & w2 & Hn1 & H).
    apply utcnow_inv in Hn1 as [[= ->] ->].
    apply bind_inr_inv in H as (now2 & w3 & Hn2 & H).
    apply utcnow_inv in Hn2 as [[= ->] ->].
    apply store_call_inr_inv in H as [_ H]. injection H as <- <-. simpl.
    split; [done|]. right. unfold new_conversation.
    rewrite Hcs, Hid, Hclk, Hj. done.
Qed.

Lemma get_or_create_reliable env cid uid w :
  reliable env ->
  exists c w', _get_or_create_conversation env cid uid w = (inr c, w').
Proof.
  intros Hrel.
  destruct cid as [id|];
    [destruct (conversations w !! id) as [c0|] eqn:Hc0;
       [destruct (decide (Conversation.user_id c0 = uid)) as [Hown|Hown]|]|];
    do 2 eexists;
    unfold _get_or_create_conversation, bind, Conversation_get,
      Conversation_insert, utcnow, ret;
    rewrite ?store_call_reliable by done; simpl;
    rewrite ?Hc0; try (destruct (decide _); try contradiction);
    rewrite ?store_call_reliable by done; simpl; reflexivity.
Qed.

Lemma add_message_reliable env self content message_type status w :
  reliable env ->
  exists message self' w',
    add_message env self content message_type status w = (inr (message, self'), w').
Proof.
  intros Hrel. do 3 eexists.
  unfold add_message, update_timestamp, bind, utcnow, ret,
    Message_insert, Conversation_save.
  rewrite store_call_reliable by done. simpl.
  rewrite store_call_reliable by done. simpl. reflexivity.
Qed.

(** ** The three parts of [process_user_message] *)

Lemma open_turn_inr_inv env cid um uid w conversation user_msg ai_msg w3 :
  open_turn env cid um uid w = (inr (conversation, user_msg, ai_msg), w3) ->
  exists c0 w0 c1,
    _get_or_create_conversation env cid uid w = (inr c0, w0) /\
    user_msg = Message.init (Conversation.id c0) um MessageType.USER None
                 (clock env (clock_reads w0)) (next_id w0) /\
    ai_msg = Message.init (Conversation.id c0) [] MessageType.ASSISTANT
               (Some MessageStatus.PROCESSING)
               (clock env (S (S (clock_reads w0)))) (N.succ (next_id w0)) /\
    messages w3 = messages w ++ [user_msg; ai_msg] /\
    Conversation.id conversation = Conversation.id c0 /\
    Conversation.context_window conversation = Conversation.context_window c0 /\
    Conversation.model_config conversation = Conversation.model_config c0 /\
    Conversation.message_count conversation = Conversation.message_count c0 + 2 /\
    conversations w3 = <[Conversation.id c0 := conversation]> (conversations w0) /\
    next_id w3 = N.succ (N.succ (next_id w0)) /\
    journal w3 = journal w0 ++ [MessageInserted user_msg; ConversationSaved c1;
                                MessageInserted ai_msg; ConversationSaved conversation].
Proof.
  unfold open_turn. intros H.
  apply bind_inr_inv in H as (c0 & w0 & Hc0 & H).
  apply bind_inr_inv in H as ([um' c1] & w1 & Hum & H).
  apply bind_inr_inv in H as ([am' c2] & w2 & Ham & H).
  injection H as <- <- <- <-.
  apply add_message_inr_inv in Hum
    as (-> & Hms1 & Hid1 & Hcw1 & Hcfg1 & Hcnt1 & Hcs1 & Hnx1 & Hclk1 & Hj1).
  apply add_message_inr_inv in Ham
    as (-> & Hms2 & Hid2 & Hcw2 & Hcfg2 & Hcnt2 & Hcs2 & Hnx2 & Hclk2 & Hj2).
  pose proof Hc0 as Hc0'. apply get_or_create_inr_inv in Hc0' as [Hms0 _].
  exists c0, w0, c1. split; [done|].
  rewrite Hid1, Hclk1, Hnx1 in *.
  rewrite Hms2, Hms1, Hms0, Hcs2, Hcs1, Hj2, Hj1, Hnx2, Hid2, Hcw2, Hcw1,
    Hcfg2, Hcfg1, Hcnt2, Hcnt1, insert_insert_eq, <- !app_assoc. simpl.
  repeat split; try done. lia.
Qed.

Lemma open_turn_reliable env cid um uid w :
  reliable env ->
  exists conversation user_msg ai_msg w3,
    open_turn env cid um uid w = (inr (conversation, user_msg, ai_msg), w3).
Proof.
  intros Hrel.
  destruct (get_or_create_reliable env cid uid w Hrel) as (c0 & w0 & H0).
  destruct (add_message_reliable env c0 um MessageType.USER None w0 Hrel)
    as (m1 & c1 & w1 & H1).
  destruct (add_message_reliable env c1 [] MessageType.ASSISTANT
              (Some MessageStatus.PROCESSING) w1 Hrel) as (m2 & c2 & w2 & H2).
  exists c2, m1, m2, w2. unfold open_turn, bind. by rewrite H0, H1, H2.
Qed.

(** ** Context assembly *)

#[global] Instance newer_first_total : Total newer_first.
Proof. intros m1 m2. unfold newer_first. lia. Qed.

#[global] Instance newer_first_trans : Transitive newer_first.
Proof. intros m1 m2 m3. unfold newer_first. lia. Qed.

#[global] Instance older_first_trans : Transitive older_first.
Proof. intros m1 m2 m3. unfold older_first. lia. Qed.

Lemma context_loop ms acc :
  fold_left context_step ms acc = acc ++ (turn_of <$> filter completed ms).
Proof.
  revert acc. induction ms as [|m ms IH]; intros acc; simpl.
  - by rewrite app_nil_r.
  - rewrite IH. unfold context_step. rewrite filter_cons.
    destruct (decide (Message.status m = _)) as [Hc|Hc];
      destruct (decide (completed m)) as [Hc'|Hc']; try done.
    by rewrite <- app_assoc.
Qed.

Lemma get_context_inv env conversation w r w' :
  _get_conversation_context env conversation w = (r, w') ->
  w' = count_store_call w /\
  (r = inr (turn_of <$> context_sources conversation w) \/ exists n, r = inl (StoreError n)).
Proof.
  unfold _get_conversation_context, get_messages, Message_find_newest, bind, store_call.
  destruct (store_fails _ _); intros H; injection H as <- <-; [eauto|].
  split; [done|]. left. by rewrite context_loop.
Qed.

Lemma get_context_ok env conversation w :
  store_fails env (store_calls w) = false ->
  _get_conversation_context env conversation w
  = (inr (turn_of <$> context_sources conversation w), count_store_call w).
Proof.
  intros Hok.
  unfold _get_conversation_context, get_messages, Message_find_newest, bind, store_call.
  rewrite Hok. simpl. by rewrite context_loop.
Qed.

Lemma StronglySorted_sublist {A} (R : relation A) l1 l2 :
  l1 `sublist_of` l2 -> StronglySorted R l2 -> StronglySorted R l1.
Proof.
  induction 1 as [|x l1 l2 Hsub IH|x l1 l2 Hsub IH]; intros Hs.
  - constructor.
  - apply StronglySorted_inv in Hs as [Hs Hx]. constructor; [by apply IH|].
    rewrite Forall_forall in *. intros y Hy. apply Hx.
    by eapply elem_of_sublist.
  - apply StronglySorted_inv in Hs as [Hs _]. by apply IH.
Qed.

Lemma store_limit_sublist {A} n (l : list A) : store_limit n l `sublist_of` l.
Proof. unfold store_limit. destruct (n =? 0); [done|apply sublist_take]. Qed.

Lemma store_limit_length {A} n (l : list A) :
  1 <= n -> len (store_limit n l) <= n.
Proof.
  intros Hn. unfold store_limit, len.
  destruct (n =? 0) eqn:E; [lia|]. rewrite length_take. lia.
Qed.

Lemma fetched_sorted conversation w : StronglySorted newer_first (fetched conversation w).
Proof.
  unfold fetched. eapply StronglySorted_sublist; [apply store_limit_sublist|].
  apply StronglySorted_merge_sort; apply _.
Qed.

Lemma fetched_elem conversation w m :
  m ∈ fetched conversation w ->
  m ∈ messages w /\ Message.conversation_id m = Conversation.id conversation.
Proof.
  unfold fetched. intros Hm.
  eapply elem_of_sublist in Hm; [|apply store_limit_sublist].
  rewrite merge_sort_Permutation in Hm.
  apply list_elem_of_filter in Hm. tauto.
Qed.

Lemma context_sources_sorted conversation w :
  StronglySorted older_first (context_sources conversation w).
Proof.
  unfold context_sources.
  eapply StronglySorted_sublist; [apply sublist_filter|].
  apply (Sorted_StronglySorted older_first).
  apply (Sorted_reverse newer_first).
  apply StronglySorted_Sorted, fetched_sorted.
Qed.

Lemma context_sources_length conversation w :
  1 <= Conversation.context_window conversation ->
  len (context_sources conversation w) <= Conversation.context_window conversation.
Proof.
  intros HW. unfold context_sources.
  pose proof (length_filter completed (reverse (fetched conversation w))) as Hf.
  rewrite length_reverse in Hf.
  pose proof (store_limit_length (Conversation.context_window conversation)
    (merge_sort newer_first
       (filter (fun m => Message.conversation_id m = Conversation.id conversation)
               (messages w))) HW) as Hl.
  unfold fetched, len in *. lia.
Qed.

(** X23: for a conversation whose [context_window] is at least 1, context
    assembly returns one entry per message of a list [srcs] of stored
    messages of that conversation, all of them COMPLETED, at most
    [context_window] of them, oldest first by timestamp. *)
Theorem context_completed_bounded_chronological env conversation w :
  1 <= Conversation.context_window conversation ->
  store_fails env (store_calls w) = false ->
  exists srcs,
    _get_conversation_context env conversation w
      = (inr (turn_of <$> srcs), count_store_call w) /\
    Forall completed srcs /\
    Forall (fun m => m ∈ messages w /\
                     Message.conversation_id m = Conversation.id conversation) srcs /\
    len (turn_of <$> srcs) <= Conversation.context_window conversation /\
    StronglySorted older_first srcs.
Proof.
  intros HW Hok. exists (context_sources conversation w).
  split; [by apply get_context_ok|].
  split; [|split; [|split]].
  - unfold context_sources. apply Forall_forall. intros m Hm.
    apply list_elem_of_filter in Hm. tauto.
  - apply Forall_forall. intros m Hm. unfold context_sources in Hm.
    apply list_elem_of_filter in Hm as [_ Hm]. rewrite elem_of_reverse in Hm.
    by apply fetched_elem.
  - unfold len. rewrite length_fmap. by apply context_sources_length.
  - apply context_sources_sorted.
Qed.

Lemma context_completed_bounded_chronological_witness :
  exists srcs,
    _get_conversation_context echo_env short_window_conversation short_window_world
      = (inr (turn_of <$> srcs), count_store_call short_window_world) /\
    Forall completed srcs /\
    Forall (fun m => m ∈ messages short_window_world /\
                     Message.conversation_id m = Conversation.id short_window_conversation) srcs /\
    len (turn_of <$> srcs) <= Conversation.context_window short_window_conversation /\
    StronglySorted older_first srcs.
Proof.
  apply (context_completed_bounded_chronological echo_env
           short_window_conversation short_window_world).
  - simpl. lia.
  - reflexivity.
Defined.

(** Scenario B: with a window of two and five completed messages, the
    context is the two most recent, oldest first. *)
Example short_window_context :
  (_get_conversation_context echo_env short_window_conversation short_window_world).1
  = inr [ {| Turn.role := "assistant"; Turn.content := lit "four" |};
          {| Turn.role := "user"; Turn.content := lit "five" |} ].
Proof. vm_compute. reflexivity. Qed.

(** C2 on the code: [get_messages] hands [context_window] to the limit of
    the query, and a limit of 0 is no limit: with a window of 0 the context
    of [zero_window_conversation] is not empty, it has an entry for each of
    the two stored messages, more than its window. *)
Lemma zero_window_context_unbounded :
  _get_conversation_context echo_env zero_window_conversation zero_window_world
  = (inr [ {| Turn.role := "user"; Turn.content := lit "one" |};
           {| Turn.role := "assistant"; Turn.content := lit "two" |} ],
     count_store_call zero_window_world) /\
  ~ (forall ctx w',
       _get_conversation_context echo_env zero_window_conversation zero_window_world
       = (inr ctx, w') ->
       len ctx <= Conversation.context_window zero_window_conversation).
Proof.
  assert (_get_conversation_context echo_env zero_window_conversation zero_window_world
          = (inr [ {| Turn.role := "user"; Turn.content := lit "one" |};
                   {| Turn.role := "assistant"; Turn.content := lit "two" |} ],
             count_store_call zero_window_world)) as Hrun
    by (vm_compute; reflexivity).
  split; [exact Hrun|].
  intros Hclaim. specialize (Hclaim _ _ Hrun). vm_compute in Hclaim. by apply Hclaim.
Qed.

(** C5, as amended: context assembly keeps SYSTEM messages.  Every COMPLETED
    message among those fetched, whatever its type, gives an entry with its
    content; the entry has role "user" for a USER message and "assistant"
    for any other, SYSTEM included. *)
Theorem context_keeps_every_completed_message env conversation w m :
  store_fails env (store_calls w) = false ->
  m ∈ fetched conversation w ->
  completed m ->
  exists ctx,
    _get_conversation_context env conversation w = (inr ctx, count_store_call w) /\
    turn_of m ∈ ctx /\
    Turn.content (turn_of m) = Message.content m /\
    Turn.role (turn_of m)
    = if decide (Message.message_type m = MessageType.USER)
      then "user"%string else "assistant"%string.
Proof.
  intros Hok Hm Hc. eexists. split; [by apply get_context_ok|].
  split; [|done].
  apply list_elem_of_fmap. exists m. split; [done|].
  unfold context_sources. apply list_elem_of_filter. split; [done|].
  by apply elem_of_reverse.
Qed.

Lemma context_keeps_every_completed_message_witness :
  exists ctx,
    _get_conversation_context echo_env system_conversation system_world
      = (inr ctx, count_store_call system_world) /\
    turn_of system_message ∈ ctx /\
    Turn.content (turn_of system_message) = Message.content system_message /\
    Turn.role (turn_of system_message)
    = if decide (Message.message_type system_message = MessageType.USER)
      then "user"%string else "assistant"%string.
Proof.
  apply (context_keeps_every_completed_message echo_env system_conversation
           system_world system_message).
  - reflexivity.
  - vm_compute. apply list_elem_of_here.
  - reflexivity.
Defined.

(** C5, as stated, fails: the only stored message is a SYSTEM message, and
    the context has an entry made from it. *)
Lemma system_message_reaches_context :
  Message.message_type system_message = MessageType.SYSTEM /\
  context_sources system_conversation system_world = [system_message] /\
  _get_conversation_context echo_env system_conversation system_world
  = (inr [ {| Turn.role := "assistant"; Turn.content := lit "Be brief." |} ],
     count_store_call system_world).
Proof. split; [reflexivity|]. split; vm_compute; reflexivity. Qed.

Lemma generate_response_inv env history mt temp w r w' :
  generate_response env history mt temp w = (r, w') ->
  messages w' = messages w /\ conversations w' = conversations w /\
  next_id w' = next_id w /\ store_calls w' = store_calls w /\
  journal w' = journal w ++
    [ Generate history mt temp;
      PipelineCall (_format_conversation (env_settings env) history)
        (py_or mt (VInt (Settings.max_tokens (env_settings env))))
        (py_or temp (VFloat (Settings.temperature (env_settings env)))) ] /\
  match pipeline env (_format_conversation (env_settings env) history)
          (py_or mt (VInt (Settings.max_tokens (env_settings env))))
          (py_or temp (VFloat (Settings.temperature (env_settings env)))) with
  | inl msg => r = inl (GenerationError msg)
  | inr (text, secs) =>
      exists md, r = inr (text, md) /\
        md !! "confidence_score" = Some (VFloat (_calculate_confidence text)) /\
        md !! "tokens_used" = None
  end.
Proof.
  unfold generate_response, bind, record, ret, raise. simpl.
  destruct (pipeline _ _ _ _) as [msg|[text secs]]; intros H;
    injection H as <- <-; simpl; rewrite <- app_assoc; repeat split; try done.
  eexists. split; [done|]. split; by simplify_map_eq.
Qed.

Lemma generate_turn_inv env conversation w r w' :
  generate_turn env conversation w = (r, w') ->
  (exists n, r = inl (StoreError n) /\ journal w' = journal w /\
             messages w' = messages w /\ conversations w' = conversations w) \/
  (messages w' = messages w /\ conversations w' = conversations w /\
   next_id w' = next_id w /\
   let history := turn_of <$> context_sources conversation w in
   let mt := py_or (dict_get (Conversation.model_config conversation) "max_tokens")
               (VInt (Settings.max_tokens (env_settings env))) in
   let temp := py_or (dict_get (Conversation.model_config conversation) "temperature")
               (VFloat (Settings.temperature (env_settings env))) in
   journal w' = journal w ++
     [ Generate history (dict_get (Conversation.model_config conversation) "max_tokens")
         (dict_get (Conversation.model_config conversation) "temperature");
       PipelineCall (_format_conversation (env_settings env) history) mt temp ] /\
   match pipeline env (_format_conversation (env_settings env) history) mt temp with
   | inl msg => r = inl (GenerationError msg)
   | inr (text, secs) =>
       exists md, r = inr (text, md) /\
         md !! "confidence_score" = Some (VFloat (_calculate_confidence text)) /\
         md !! "tokens_used" = None
   end).
Proof.
  unfold generate_turn, bind. intros H.
  destruct (_get_conversation_context env conversation w) as [[e|history] w1] eqn:Hctx;
    apply get_context_inv in Hctx as [-> [Hr|[n Hr]]]; try discriminate.
  - injection Hr as ->. injection H as <- <-. left. eauto.
  - injection Hr as ->. right.
    apply generate_response_inv in H as (Hms & Hcs & Hid & _ & Hj & Hr).
    rewrite Hms, Hcs, Hid, Hj. done.
Qed.

Lemma close_turn_inr_inv env conversation user_msg ai_msg text md w reply w' :
  md !! "tokens_used" = None ->
  close_turn env conversation user_msg ai_msg text md w = (inr reply, w') ->
  let conversation' :=
    Conversation.set_total_tokens_used (Conversation.total_tokens_used conversation + 0)
      conversation in
  messages w' = replace_message ai_msg (messages w) /\
  conversations w' = <[Conversation.id conversation := conversation']> (conversations w) /\
  next_id w' = next_id w /\
  journal w' = journal w ++ [MessageSaved ai_msg; ConversationSaved conversation'] /\
  reply = {| reply_conversation_id := Conversation.id conversation;
             reply_user_message_id := Message.id user_msg;
             reply_ai_message_id := Message.id ai_msg;
             reply_response := text; reply_metadata := md |}.
Proof.
  intros Hmd. unfold close_turn, dict_get_default. rewrite Hmd. simpl. intros H.
  apply bind_inr_inv in H as ([] & w1 & Hsave & H).
  apply bind_inr_inv in H as (c' & w2 & Hc' & H).
  injection Hc' as <- <-.
  apply bind_inr_inv in H as ([] & w3 & Hsave' & H).
  injection H as <- <-.
  apply Message_save_inr_inv in Hsave as (Hms & Hcs & Hid & _ & Hj).
  apply Conversation_save_inr_inv in Hsave' as (Hms' & Hcs' & Hid' & _ & Hj').
  simpl in *. rewrite Hms', Hms, Hcs', Hcs, Hid', Hid, Hj', Hj, <- app_assoc. done.
Qed.

Lemma process_inr_inv env cid um uid w reply w' :
  process_user_message env cid um uid w = (inr reply, w') ->
  exists conversation user_msg ai_msg w3 text md w5,
    open_turn env cid um uid w = (inr (conversation, user_msg, ai_msg), w3) /\
    generate_turn env conversation w3 = (inr (text, md), w5) /\
    close_turn env conversation user_msg (Message.complete ai_msg text md) text md w5
    = (inr reply, w').
Proof.
  unfold process_user_message. intros H.
  apply bind_inr_inv in H as ([[conversation user_msg] ai_msg] & w3 & Hopen & H).
  apply try_except_inr_inv in Hopen; [|intros; apply raise_not_inr].
  apply bind_inr_inv in H as ([text md] & w5 & Hgen & H).
  apply try_except_inr_inv in Hgen; [|intros; apply mark_failed_not_inr].
  apply try_except_inr_inv in H; [|intros; apply mark_failed_not_inr].
  by exists conversation, user_msg, ai_msg, w3, text, md, w5.
Qed.

(** C10: [_calculate_confidence] returns a value between 0.1 and 0.9 for
    every text, and so the confidence score stored on the ASSISTANT message
    that a successful call completes lies between 0.1 and 0.9. *)
Theorem confidence_within_bounds :
  (forall text, in_confidence_range (_calculate_confidence text)) /\
  (forall env conversation_id user_message user_id w reply w',
     process_user_message env conversation_id user_message user_id w = (inr reply, w') ->
     exists ai_msg v,
       ai_msg ∈ messages w' /\
       Message.id ai_msg = reply_ai_message_id reply /\
       Message.message_type ai_msg = MessageType.ASSISTANT /\
       Message.status ai_msg = MessageStatus.COMPLETED /\
       Message.confidence_score ai_msg = VFloat v /\
       in_confidence_range v).
Proof.
  split; [apply calculate_confidence_range|].
  intros env cid um uid w reply w' H.
  apply process_inr_inv in H
    as (conversation & user_msg & ai_msg & w3 & text & md & w5 & Hopen & Hgen & Hclose).
  apply open_turn_inr_inv in Hopen as (c0 & w0 & c1 & _ & _ & Hai & _).
  apply generate_turn_inv in Hgen as [(n & [=] & _)|(_ & _ & _ & Hgen)].
  simpl in Hgen. destruct Hgen as [_ Hgen].
  destruct (pipeline _ _ _ _) as [msg|[text' secs]]; [discriminate|].
  destruct Hgen as (md' & [= <- <-] & Hconf & Htok).
  apply close_turn_inr_inv in Hclose as (Hms & _ & _ & _ & ->); [|done].
  exists (Message.complete ai_msg text md), (_calculate_confidence text).
  split; [rewrite Hms; apply replace_message_elem|].
  split; [done|]. split; [by rewrite Hai|]. split; [done|].
  split; [|apply calculate_confidence_range].
  simpl. unfold dict_get. by rewrite Hconf.
Qed.

Lemma confidence_within_bounds_witness :
  in_confidence_range (_calculate_confidence (lit "I am fine, thank you for asking")) /\
  exists ai_msg v,
    ai_msg ∈ messages (process_user_message echo_env None (lit "Hello") 7%N empty_world).2 /\
    Message.message_type ai_msg = MessageType.ASSISTANT /\
    Message.status ai_msg = MessageStatus.COMPLETED /\
    Message.confidence_score ai_msg = VFloat v /\
    in_confidence_range v.
Proof.
  destruct confidence_within_bounds as [Htext Hrun].
  split; [apply Htext|].
  destruct (process_user_message echo_env None (lit "Hello") 7%N empty_world)
    as [[e|reply] w'] eqn:Hres.
  - vm_compute in Hres. discriminate.
  - destruct (Hrun _ _ _ _ _ _ _ Hres) as (ai_msg & v & H1 & _ & H2).
    exists ai_msg, v. split; [exact H1|exact H2].
Defined.

Lemma Message_save_reliable env m w :
  reliable env ->
  exists w', Message_save env m w = (inr tt, w') /\
    messages w' = replace_message m (messages w) /\
    conversations w' = conversations w /\
    next_id w' = next_id w /\
    journal w' = journal w ++ [MessageSaved m].
Proof.
  intros Hrel. eexists. unfold Message_save.
  rewrite store_call_reliable by done. simpl. done.
Qed.

Lemma Conversation_save_reliable env c w :
  reliable env ->
  exists w', Conversation_save env c w = (inr tt, w') /\
    messages w' = messages w /\
    conversations w' = <[Conversation.id c := c]> (conversations w) /\
    next_id w' = next_id w /\
    journal w' = journal w ++ [ConversationSaved c].
Proof.
  intros Hrel. eexists. unfold Conversation_save.
  rewrite store_call_reliable by done. simpl. done.
Qed.

Lemma mark_failed_reliable {A} env ai_msg e w :
  reliable env ->
  exists w', @mark_failed env A ai_msg e w = (inl e, w') /\
    messages w' = replace_message (Message.fail ai_msg (str_exn e)) (messages w) /\
    conversations w' = conversations w /\
    next_id w' = next_id w /\
    journal w' = journal w ++ [MessageSaved (Message.fail ai_msg (str_exn e))].
Proof.
  intros Hrel.
  destruct (Message_save_reliable env (Message.fail ai_msg (str_exn e)) w Hrel)
    as (w' & Hsave & Hfacts).
  exists w'. unfold mark_failed, bind. by rewrite Hsave.
Qed.

Lemma close_turn_reliable env conversation user_msg ai_msg text md w :
  reliable env ->
  md !! "tokens_used" = None ->
  exists reply w',
    close_turn env conversation user_msg ai_msg text md w = (inr reply, w').
Proof.
  intros Hrel Hmd.
  destruct (Message_save_reliable env ai_msg w Hrel) as (w1 & Hsave & _).
  destruct (Conversation_save_reliable env
              (Conversation.set_total_tokens_used
                 (Conversation.total_tokens_used conversation + 0) conversation)
              w1 Hrel) as (w2 & Hsave' & _).
  do 2 eexists. unfold close_turn, bind, dict_get_default, ret.
  rewrite Hmd, Hsave. simpl. rewrite Hsave'. done.
Qed.

(** What a call does when the store is reliable: it opens the turn, asks the
    pipeline, and either completes the placeholder or marks it failed. *)
Lemma process_reliable env cid um uid w :
  reliable env ->
  exists conversation user_msg ai_msg w3,
    open_turn env cid um uid w = (inr (conversation, user_msg, ai_msg), w3) /\
    let history := turn_of <$> context_sources conversation w3 in
    let mt0 := dict_get (Conversation.model_config conversation) "max_tokens" in
    let temp0 := dict_get (Conversation.model_config conversation) "temperature" in
    let mt := py_or mt0 (VInt (Settings.max_tokens (env_settings env))) in
    let temp := py_or temp0 (VFloat (Settings.temperature (env_settings env))) in
    let prompt := _format_conversation (env_settings env) history in
    match pipeline env prompt mt temp with
    | inl msg =>
        exists w',
          process_user_message env cid um uid w = (inl (GenerationError msg), w') /\
          messages w' = replace_message (Message.fail ai_msg msg) (messages w3) /\
          conversations w' = conversations w3 /\
          journal w' = journal w3 ++
            [ Generate history mt0 temp0; PipelineCall prompt mt temp;
              MessageSaved (Message.fail ai_msg msg) ]
    | inr (text, secs) =>
        exists md reply w',
          process_user_message env cid um uid w = (inr reply, w') /\
          md !! "confidence_score" = Some (VFloat (_calculate_confidence text)) /\
          let ai_msg' := Message.complete ai_msg text md in
          let conversation' :=
            Conversation.set_total_tokens_used
              (Conversation.total_tokens_used conversation + 0) conversation in
          reply = {| reply_conversation_id := Conversation.id conversation;
                     reply_user_message_id := Message.id user_msg;
                     reply_ai_message_id := Message.id ai_msg;
                     reply_response := text; reply_metadata := md |} /\
          messages w' = replace_message ai_msg' (messages w3) /\
          conversations w' = <[Conversation.id conversation := conversation']> (conversations w3) /\
          journal w' = journal w3 ++
            [ Generate history mt0 temp0; PipelineCall prompt mt temp;
              MessageSaved ai_msg'; ConversationSaved conversation' ]
    end.
Proof.
  intros Hrel.
  destruct (open_turn_reliable env cid um uid w Hrel)
    as (conversation & user_msg & ai_msg & w3 & Hopen).
  exists conversation, user_msg, ai_msg, w3. split; [done|]. simpl.
  destruct (generate_turn env conversation w3) as [r w5] eqn:Hgen.
  pose proof Hgen as Hgen'.
  apply generate_turn_inv in Hgen' as [(n & -> & _)|(Hms & Hcs & Hid & Hgen')].
  { exfalso. unfold generate_turn, bind in Hgen.
    rewrite get_context_ok in Hgen by apply Hrel.
    apply generate_response_inv in Hgen as (_ & _ & _ & _ & _ & Hr).
    destruct (pipeline _ _ _ _) as [msg|[text secs]]; [done|].
    by destruct Hr as (md & [=] & _). }
  simpl in Hgen'. destruct Hgen' as [Hj Hr].
  destruct (pipeline _ _ _ _) as [msg|[text secs]].
  - subst r.
    destruct (@mark_failed_reliable (pystr * gmap string PyVal) env ai_msg
                (GenerationError msg) w5 Hrel) as (w' & Hfail & Hms' & Hcs' & _ & Hj').
    exists w'. unfold process_user_message, bind, try_except.
    rewrite Hopen. simpl. rewrite Hgen, Hfail.
    rewrite Hms', Hms, Hcs', Hcs, Hj', Hj, <- app_assoc. done.
  - destruct Hr as (md & -> & Hconf & Htok).
    destruct (close_turn_reliable env conversation user_msg
                (Message.complete ai_msg text md) text md w5 Hrel Htok)
      as (reply & w' & Hclose).
    exists md, reply, w'. unfold process_user_message, bind, try_except.
    rewrite Hopen. simpl. rewrite Hgen, Hclose.
    apply close_turn_inr_inv in Hclose as (Hms' & Hcs' & _ & Hj' & ->); [|done].
    rewrite Hms', Hms, Hcs', Hcs, Hj', Hj, <- app_assoc. done.
Qed.

(** The tail of the journal of such a call: the two calls of the model,
    the one save of the placeholder, and nothing else that touches a message
    or the model. *)
Lemma process_reliable_trace env cid um uid w :
  reliable env ->
  exists conversation user_msg ai_msg w3 r w' final tail,
    open_turn env cid um uid w = (inr (conversation, user_msg, ai_msg), w3) /\
    process_user_message env cid um uid w = (r, w') /\
    let history := turn_of <$> context_sources conversation w3 in
    let mt0 := dict_get (Conversation.model_config conversation) "max_tokens" in
    let temp0 := dict_get (Conversation.model_config conversation) "temperature" in
    journal w' = journal w3 ++
      [ Generate history mt0 temp0;
        PipelineCall (_format_conversation (env_settings env) history)
          (py_or mt0 (VInt (Settings.max_tokens (env_settings env))))
          (py_or temp0 (VFloat (Settings.temperature (env_settings env))));
        MessageSaved final ] ++ tail /\
    message_writes tail = [] /\ generate_calls tail = [] /\ pipeline_calls tail = [] /\
    Message.id final = Message.id ai_msg /\
    Message.message_type final = Message.message_type ai_msg /\
    ((Message.status final = MessageStatus.COMPLETED /\ exists reply, r = inr reply) \/
     (Message.status final = MessageStatus.FAILED /\ exists e, r = inl e)).
Proof.
  intros Hrel.
  destruct (process_reliable env cid um uid w Hrel)
    as (conversation & user_msg & ai_msg & w3 & Hopen & Hrun).
  exists conversation, user_msg, ai_msg, w3. simpl in Hrun.
  destruct (pipeline _ _ _ _) as [msg|[text secs]].
  - destruct Hrun as (w' & Hres & _ & _ & Hj).
    exists (inl (GenerationError msg)), w', (Message.fail ai_msg msg), [].
    rewrite Hj. repeat split; try done. right. eauto.
  - destruct Hrun as (md & reply & w' & Hres & _ & _ & _ & _ & Hj).
    eexists (inr reply), w', (Message.complete ai_msg text md), [_].
    rewrite Hj. repeat split; try done. left. eauto.
Qed.

Lemma replace_message_other m x ms :
  m ∈ ms -> Message.id m <> Message.id x -> m ∈ replace_message x ms.
Proof.
  intros Hm Hne. induction ms as [|m' ms IH]; simpl; [by apply elem_of_nil in Hm|].
  apply elem_of_cons in Hm as [->|Hm].
  - destruct (_ =? _)%N eqn:E; [apply N.eqb_eq in E; congruence|set_solver].
  - destruct (_ =? _)%N; set_solver.
Qed.

Lemma replace_message_length x ms :
  (exists m, m ∈ ms /\ Message.id m = Message.id x) ->
  length (replace_message x ms) = length ms.
Proof.
  intros (m & Hm & Hid). induction ms as [|m' ms IH]; simpl; [by apply elem_of_nil in Hm|].
  destruct (_ =? _)%N eqn:E; [done|]. simpl. f_equal. apply IH.
  apply elem_of_cons in Hm as [->|Hm]; [|done].
  apply N.eqb_neq in E. congruence.
Qed.

Lemma get_or_create_calls env cid uid w c0 w0 :
  _get_or_create_conversation env cid uid w = (inr c0, w0) ->
  exists pre, journal w0 = journal w ++ pre /\
              message_writes pre = [] /\ generate_calls pre = [] /\
              pipeline_calls pre = [] /\
              (clock_reads w <= clock_reads w0)%nat.
Proof.
  intros H.
  apply get_or_create_inr_inv in H
    as [_ [(_ & _ & _ & Hclk & Hj)|(_ & _ & _ & _ & Hclk & Hj)]].
  - exists []. rewrite app_nil_r. repeat split; try done. lia.
  - eexists. split; [exact Hj|]. repeat split; try done. lia.
Qed.

(** C3, as amended: in every run in which no call of the store raises, the
    writes to the messages collection are exactly three: the USER message is
    inserted COMPLETED, the ASSISTANT message is inserted PROCESSING, and the
    ASSISTANT message is saved once, COMPLETED when the call returns and
    FAILED when it raises. *)
Theorem message_status_lifecycle env conversation_id user_message user_id w :
  reliable env ->
  exists r w' delta id_user id_ai final,
    process_user_message env conversation_id user_message user_id w = (r, w') /\
    journal w' = journal w ++ delta /\
    message_writes delta
    = [ (id_user, MessageType.USER, MessageStatus.COMPLETED);
        (id_ai, MessageType.ASSISTANT, MessageStatus.PROCESSING);
        (id_ai, MessageType.ASSISTANT, final) ] /\
    id_user <> id_ai /\
    ((final = MessageStatus.COMPLETED /\ exists reply, r = inr reply) \/
     (final = MessageStatus.FAILED /\ exists e, r = inl e)).
Proof.
  intros Hrel.
  destruct (process_reliable_trace env conversation_id user_message user_id w Hrel)
    as (conversation & user_msg & ai_msg & w3 & r & w' & final & tail
        & Hopen & Hres & Hj & Htail & _ & _ & Hfid & Hftype & Hfinal).
  apply open_turn_inr_inv in Hopen
    as (c0 & w0 & c1 & Hc0 & Hum & Ham & _ & _ & _ & _ & _ & _ & _ & Hj3).
  apply get_or_create_calls in Hc0 as (pre & Hj0 & Hpre & _).
  simpl in Hj.
  exists r, w'. eexists. exists (Message.id user_msg), (Message.id ai_msg), (Message.status final).
  split; [exact Hres|].
  split; [rewrite Hj, Hj3, Hj0, <- !app_assoc; reflexivity|].
  split; [|split; [|done]].
  - unfold message_writes in *. rewrite !omap_app, Hpre. csimpl.
    rewrite Htail, Hfid, Hftype. by subst user_msg ai_msg.
  - subst user_msg ai_msg. simpl. lia.
Qed.

Lemma message_status_lifecycle_witness :
  exists r w' delta id_user id_ai final,
    process_user_message echo_env None (lit "Hello") 7%N empty_world = (r, w') /\
    journal w' = journal empty_world ++ delta /\
    message_writes delta
    = [ (id_user, MessageType.USER, MessageStatus.COMPLETED);
        (id_ai, MessageType.ASSISTANT, MessageStatus.PROCESSING);
        (id_ai, MessageType.ASSISTANT, final) ] /\
    id_user <> id_ai /\
    ((final = MessageStatus.COMPLETED /\ exists reply, r = inr reply) \/
     (final = MessageStatus.FAILED /\ exists e, r = inl e)).
Proof.
  apply (message_status_lifecycle echo_env None (lit "Hello") 7%N empty_world).
  intros n. reflexivity.
Defined.

(** C3, as stated, fails: when the save of the conversation raises after
    the placeholder has been saved COMPLETED, the handler saves it again,
    FAILED. *)
Lemma completed_message_marked_failed :
  let '(r, w') := process_user_message late_fault_env None (lit "Hello") 7%N empty_world in
  r = inl (StoreError 7) /\
  message_writes (journal w')
  = [ (2%N, MessageType.USER, MessageStatus.COMPLETED);
      (3%N, MessageType.ASSISTANT, MessageStatus.PROCESSING);
      (3%N, MessageType.ASSISTANT, MessageStatus.COMPLETED);
      (3%N, MessageType.ASSISTANT, MessageStatus.FAILED) ].
Proof. vm_compute. split; reflexivity. Qed.

(** C4: when the store is reliable and the pipeline raises, the call raises
    the same error; the USER message and the ASSISTANT message are both
    stored, the latter FAILED with the error under ["error"] in its
    metadata; and the stored conversation counts two more messages than the
    conversation the call started from (the one the id resolves to, or the
    new one, which starts at 0). *)
Theorem generation_failure_recorded env conversation_id user_message user_id w error :
  reliable env ->
  (forall prompt max_length temperature,
     pipeline env prompt max_length temperature = inl error) ->
  exists w' c0 conversation' user_msg ai_msg,
    process_user_message env conversation_id user_message user_id w
    = (inl (GenerationError error), w') /\
    (resolves conversation_id user_id w c0 \/
     ((forall c, ~ resolves conversation_id user_id w c) /\
      c0 = new_conversation env user_id w)) /\
    conversations w' !! Conversation.id c0 = Some conversation' /\
    Conversation.message_count conversation' = Conversation.message_count c0 + 2 /\
    length (messages w') = (length (messages w) + 2)%nat /\
    user_msg ∈ messages w' /\
    Message.conversation_id user_msg = Conversation.id c0 /\
    Message.message_type user_msg = MessageType.USER /\
    Message.content user_msg = user_message /\
    Message.status user_msg = MessageStatus.COMPLETED /\
    ai_msg ∈ messages w' /\
    Message.conversation_id ai_msg = Conversation.id c0 /\
    Message.message_type ai_msg = MessageType.ASSISTANT /\
    Message.status ai_msg = MessageStatus.FAILED /\
    Message.metadata ai_msg !! "error" = Some (VStr error).
Proof.
  intros Hrel Hfail.
  destruct (process_reliable env conversation_id user_message user_id w Hrel)
    as (conversation & user_msg & ai_msg & w3 & Hopen & Hrun).
  apply open_turn_inr_inv in Hopen
    as (c0 & w0 & c1 & Hc0 & Hum & Ham & Hms3 & Hid & _ & _ & Hcnt & Hcs3 & _ & _).
  simpl in Hrun. rewrite Hfail in Hrun. destruct Hrun as (w' & Hres & Hms & Hcs & _).
  exists w', c0, conversation, user_msg, (Message.fail ai_msg error).
  split; [exact Hres|].
  split.
  { apply get_or_create_inr_inv in Hc0 as [_ [(Hr & _)|(Hr & Hnew & _)]]; [by left|by right]. }
  split; [by rewrite Hcs, Hcs3, lookup_insert_eq|].
  split; [done|].
  split.
  { rewrite Hms, replace_message_length.
    - rewrite Hms3, length_app. simpl. lia.
    - exists ai_msg. split; [rewrite Hms3; set_solver|done]. }
  split.
  { rewrite Hms. apply replace_message_other; [rewrite Hms3; set_solver|].
    subst user_msg ai_msg. simpl. lia. }
  subst user_msg. do 4 (split; [done|]).
  split; [rewrite Hms; apply replace_message_elem|].
  subst ai_msg. do 3 (split; [done|]).
  simpl. by rewrite lookup_singleton_eq.
Qed.

Lemma generation_failure_recorded_witness :
  exists w' c0 conversation' user_msg ai_msg,
    process_user_message failing_env None (lit "Hello") 7%N empty_world
    = (inl (GenerationError (lit "model not loaded")), w') /\
    (resolves None 7%N empty_world c0 \/
     ((forall c, ~ resolves None 7%N empty_world c) /\
      c0 = new_conversation failing_env 7%N empty_world)) /\
    conversations w' !! Conversation.id c0 = Some conversation' /\
    Conversation.message_count conversation' = Conversation.message_count c0 + 2 /\
    length (messages w') = (length (messages empty_world) + 2)%nat /\
    user_msg ∈ messages w' /\
    Message.conversation_id user_msg = Conversation.id c0 /\
    Message.message_type user_msg = MessageType.USER /\
    Message.content user_msg = lit "Hello" /\
    Message.status user_msg = MessageStatus.COMPLETED /\
    ai_msg ∈ messages w' /\
    Message.conversation_id ai_msg = Conversation.id c0 /\
    Message.message_type ai_msg = MessageType.ASSISTANT /\
    Message.status ai_msg = MessageStatus.FAILED /\
    Message.metadata ai_msg !! "error" = Some (VStr (lit "model not loaded")).
Proof.
  apply (generation_failure_recorded failing_env None (lit "Hello") 7%N empty_world
           (lit "model not loaded")).
  - intros n. reflexivity.
  - intros prompt max_length temperature. reflexivity.
Defined.

(** Scenario C on the empty store. *)
Example generation_failure_run :
  let '(r, w') := process_user_message failing_env None (lit "Hello") 7%N empty_world in
  r = inl (GenerationError (lit "model not loaded")) /\
  Conversation.message_count <$> conversations w' !! 1%N = Some 2 /\
  (fun m => (Message.id m, Message.status m)) <$> messages w'
  = [ (2%N, MessageStatus.COMPLETED); (3%N, MessageStatus.FAILED) ].
Proof. vm_compute. repeat split; reflexivity. Qed.

Lemma replace_message_fresh x' x l :
  (forall m, m ∈ l -> Message.id m <> Message.id x') ->
  Message.id x = Message.id x' ->
  replace_message x' (l ++ [x]) = l ++ [x'].
Proof.
  intros Hl Hx. induction l as [|m l IH]; simpl.
  - rewrite Hx, N.eqb_refl. done.
  - destruct (_ =? _)%N eqn:E.
    + apply N.eqb_eq in E. exfalso. apply (Hl m); [set_solver|done].
    + f_equal. apply IH. intros m' Hm'. apply Hl. set_solver.
Qed.

Lemma count_after_turn id (ms : list Message.t) m1 m2 :
  len (filter (fun m => Message.conversation_id m = id) (ms ++ [m1; m2]))
  = len (filter (fun m => Message.conversation_id m = id) ms)
    + (if decide (Message.conversation_id m1 = id) then 1 else 0)
    + (if decide (Message.conversation_id m2 = id) then 1 else 0).
Proof.
  unfold len. rewrite filter_app, length_app, !filter_cons, filter_nil.
  repeat destruct (decide _); simpl; lia.
Qed.

(** What a call that returns leaves in the store, when the store was in
    order before it. *)
Lemma process_inr_store env cid um uid w reply w' :
  store_ok w ->
  process_user_message env cid um uid w = (inr reply, w') ->
  exists c0 final user_msg ai_msg first_id,
    (resolves cid uid w c0 /\ first_id = next_id w \/
     (forall c, ~ resolves cid uid w c) /\ c0 = new_conversation env uid w /\
     first_id = N.succ (next_id w)) /\
    Conversation.id final = Conversation.id c0 /\
    Conversation.message_count final = Conversation.message_count c0 + 2 /\
    Message.conversation_id user_msg = Conversation.id c0 /\
    Message.conversation_id ai_msg = Conversation.id c0 /\
    Message.id user_msg = first_id /\
    Message.id ai_msg = N.succ first_id /\
    messages w' = messages w ++ [user_msg; ai_msg] /\
    conversations w' = <[Conversation.id c0 := final]> (conversations w) /\
    next_id w' = N.succ (N.succ first_id).
Proof.
  intros [Hkeys Hfresh] H.
  apply process_inr_inv in H
    as (conversation & user_msg & ai_msg & w3 & text & md & w5 & Hopen & Hgen & Hclose).
  apply open_turn_inr_inv in Hopen
    as (c0 & w0 & c1 & Hc0 & Hum & Ham & Hms3 & Hid & _ & _ & Hcnt & Hcs3 & Hnext3 & _).
  apply generate_turn_inv in Hgen as [(n & [=] & _)|(Hms5 & Hcs5 & Hnext5 & Hgen)].
  simpl in Hgen. destruct Hgen as [_ Hgen].
  destruct (pipeline _ _ _ _) as [msg|[text' secs]]; [discriminate|].
  destruct Hgen as (md' & [= <- <-] & _ & Htok).
  apply close_turn_inr_inv in Hclose as (Hms & Hcs & Hnext & _ & _); [|done].
  apply get_or_create_inr_inv in Hc0 as [Hms0 Hcase].
  exists c0,
    (Conversation.set_total_tokens_used
       (Conversation.total_tokens_used conversation + 0) conversation),
    user_msg, (Message.complete ai_msg text md), (next_id w0).
  assert (Hrep : messages w' = messages w ++ [user_msg; Message.complete ai_msg text md]).
  { rewrite Hms, Hms5, Hms3.
    change (messages w ++ [user_msg; ai_msg]) with (messages w ++ [user_msg] ++ [ai_msg]).
    rewrite app_assoc, replace_message_fresh; [by rewrite <- app_assoc| |done].
    intros m Hm. apply elem_of_app in Hm as [Hm|Hm].
    - apply Hfresh in Hm as [Hm _]. subst ai_msg. simpl.
      destruct Hcase as [(_ & _ & Hn & _)|(_ & _ & _ & Hn & _)]; rewrite Hn; lia.
    - apply list_elem_of_singleton in Hm as ->. subst user_msg ai_msg. simpl. lia. }
  split.
  { destruct Hcase as [(Hr & _ & Hn & _)|(Hr & Hnew & _ & Hn & _)]; [left|right]; done. }
  split; [done|]. split; [done|]. split; [by subst user_msg|].
  split; [by subst ai_msg|]. split; [by subst user_msg|]. split; [by subst ai_msg|].
  split; [done|]. split; [|by rewrite Hnext, Hnext5, Hnext3].
  rewrite Hcs, Hcs5, Hcs3. simpl. rewrite Hid, insert_insert_eq.
  destruct Hcase as [(_ & -> & _)|(_ & Hnew & -> & _)]; [done|].
  assert (Hk : Conversation.id c0 = next_id w) by (by rewrite Hnew).
  by rewrite Hk, insert_insert_eq.
Qed.

(** C6: a call that returns keeps the invariant that every stored
    conversation counts the stored messages that refer to it (and keeps the
    store in order, so that the invariant holds after any sequence of such
    calls from a store where it holds). *)
Theorem message_count_matches_stored env conversation_id user_message user_id w reply w' :
  store_ok w ->
  counts_agree w ->
  process_user_message env conversation_id user_message user_id w = (inr reply, w') ->
  counts_agree w' /\ store_ok w' /\
  exists c, conversations w' !! reply_conversation_id reply = Some c /\
            Conversation.message_count c = stored_count (reply_conversation_id reply) w'.
Proof.
  intros Hok Hagree Hrun.
  destruct (process_inr_store _ _ _ _ _ _ _ Hok Hrun)
    as (c0 & final & user_msg & ai_msg & first_id & Hcase & Hid & Hcnt & Hcu & Hca
        & Hiu & Hia & Hms & Hcs & Hnext).
  destruct Hok as [Hkeys Hfresh].
  assert (Hc0 : Conversation.message_count c0 = stored_count (Conversation.id c0) w
                /\ (Conversation.id c0 < first_id)%N
                /\ (next_id w <= first_id)%N
                /\ (forall id c, conversations w !! id = Some c -> id <> Conversation.id c0 \/
                                 c = c0)).
  { destruct Hcase as [((id & -> & Hlook & _) & ->)|(_ & -> & ->)].
    - destruct (Hkeys _ _ Hlook) as [Hk Hlt]. rewrite Hk.
      split; [by apply Hagree|]. split; [done|]. split; [lia|].
      intros id' c' Hlook'. destruct (decide (id' = id)) as [->|]; [right; congruence|by left].
    - simpl. split.
      + unfold stored_count, len.
        destruct (filter _ (messages w)) as [|m ms] eqn:Hf; [done|].
        assert (Hm : m ∈ filter (fun m => Message.conversation_id m = next_id w) (messages w))
          by (rewrite Hf; apply list_elem_of_here).
        apply list_elem_of_filter in Hm as [Hm1 Hm2]. apply Hfresh in Hm2. lia.
      + split; [lia|]. split; [lia|]. intros id' c' Hlook'. left.
        apply Hkeys in Hlook'. lia. }
  destruct Hc0 as (Hc0 & Hlt & Hle & Hothers).
  assert (Hagree' : counts_agree w').
  { intros id c Hlook. rewrite Hcs in Hlook. unfold stored_count. rewrite Hms.
    rewrite count_after_turn, Hcu, Hca.
    destruct (decide (Conversation.id c0 = id)) as [<-|Hne].
    - rewrite lookup_insert_eq in Hlook. injection Hlook as <-.
      rewrite Hcnt, Hc0. unfold stored_count. lia.
    - rewrite lookup_insert_ne in Hlook by done.
      rewrite (Hagree _ _ Hlook). unfold stored_count. lia. }
  assert (Hok' : store_ok w').
  { split.
    - intros id c Hlook. rewrite Hcs in Hlook. rewrite Hnext.
      destruct (decide (Conversation.id c0 = id)) as [<-|Hne].
      + rewrite lookup_insert_eq in Hlook. injection Hlook as <-. split; [done|lia].
      + rewrite lookup_insert_ne in Hlook by done.
        apply Hkeys in Hlook as [? ?]. split; [done|lia].
    - intros m Hm. rewrite Hms in Hm. rewrite Hnext.
      apply elem_of_app in Hm as [Hm|Hm].
      + apply Hfresh in Hm. lia.
      + apply elem_of_cons in Hm as [->|Hm]; [lia|].
        apply list_elem_of_singleton in Hm as ->. lia. }
  split; [done|]. split; [done|].
  apply process_inr_inv in Hrun
    as (conversation & um' & am' & w3 & text & md & w5 & Hopen & Hgen & Hclose).
  apply open_turn_inr_inv in Hopen as (c0' & w0 & c1 & Hget & _ & _ & _ & Hid' & _).
  apply generate_turn_inv in Hgen as [(n & [=] & _)|(_ & _ & _ & Hgen)].
  simpl in Hgen. destruct Hgen as [_ Hgen].
  destruct (pipeline _ _ _ _) as [msg|[text' secs]]; [discriminate|].
  destruct Hgen as (md' & [= <- <-] & _ & Htok).
  apply close_turn_inr_inv in Hclose as (_ & Hcs' & _ & _ & ->); [|done]. simpl.
  eexists. split; [by rewrite Hcs', lookup_insert_eq|].
  eapply Hagree'. by rewrite Hcs', lookup_insert_eq.
Qed.

Lemma message_count_matches_stored_witness :
  exists reply w',
    process_user_message echo_env (Some 1%N) (lit "Hello") 7%N short_window_world
    = (inr reply, w') /\
    counts_agree w' /\ store_ok w' /\
    exists c, conversations w' !! reply_conversation_id reply = Some c /\
              Conversation.message_count c = stored_count (reply_conversation_id reply) w'.
Proof.
  destruct (process_user_message echo_env (Some 1%N) (lit "Hello") 7%N short_window_world)
    as [[e|reply] w'] eqn:Hrun.
  - vm_compute in Hrun. discriminate.
  - exists reply, w'. split; [reflexivity|].
    apply (message_count_matches_stored echo_env (Some 1%N) (lit "Hello") 7%N
             short_window_world reply w'); [| |exact Hrun].
    + split.
      * intros id c Hc. unfold short_window_world, store_of in Hc. cbn [conversations] in Hc.
        apply lookup_singleton_Some in Hc as [<- <-]. simpl. lia.
      * intros m Hm. simpl in Hm.
        repeat (apply elem_of_cons in Hm as [->|Hm]; [simpl; lia|]).
        by apply elem_of_nil in Hm.
    + intros id c Hc. unfold short_window_world, store_of in Hc. cbn [conversations] in Hc.
      apply lookup_singleton_Some in Hc as [<- <-]. reflexivity.
Defined.

(** Scenario A: a first message on the empty store. *)
Example first_message_run :
  let '(r, w') := process_user_message echo_env None (lit "Hello") 7%N empty_world in
  match r with inr reply => reply_conversation_id reply = 1%N | inl _ => False end /\
  (fun c => (Conversation.status c, Conversation.message_count c)) <$> conversations w' !! 1%N
  = Some (ConversationStatus.ACTIVE, 2) /\
  (fun m => (Message.message_type m, Message.status m, Message.content m)) <$> messages w'
  = [ (MessageType.USER, MessageStatus.COMPLETED, lit "Hello");
      (MessageType.ASSISTANT, MessageStatus.COMPLETED, lit "I am fine, thank you for asking") ].
Proof. vm_compute. repeat split; reflexivity. Qed.

Lemma set_status_reliable env new_status conversation_id current_user_id id c w :
  reliable env ->
  ObjectId_of_str conversation_id = Some id ->
  conversations w !! id = Some c ->
  Conversation.user_id c = current_user_id ->
  let c' := Conversation.set_updated_at (clock env (clock_reads w))
              (Conversation.set_status new_status c) in
  exists w',
    set_conversation_status env new_status conversation_id current_user_id w = (inr tt, w') /\
    conversations w' = <[Conversation.id c := c']> (conversations w) /\
    messages w' = messages w /\
    clock_reads w' = S (clock_reads w).
Proof.
  intros Hrel Hid Hc Hown. eexists.
  unfold set_conversation_status, get_object_id, bind, ret, Conversation_get,
    update_timestamp, utcnow, Conversation_save.
  rewrite Hid. simpl. rewrite store_call_reliable by done. simpl. rewrite Hc.
  rewrite decide_True by done. unfold bind. simpl.
  rewrite store_call_reliable by done. simpl. done.
Qed.

(** C7, as amended: for a conversation stored under its id and owned by the
    caller, archive followed by restore leaves it ACTIVE, with [updated_at]
    set to the time of the restore and every other field as it was. *)
Theorem archive_then_restore env conversation_id current_user_id id c w :
  reliable env ->
  ObjectId_of_str conversation_id = Some id ->
  conversations w !! id = Some c ->
  Conversation.id c = id ->
  Conversation.user_id c = current_user_id ->
  exists w1 w2 c',
    archive_conversation env conversation_id current_user_id w = (inr tt, w1) /\
    restore_conversation env conversation_id current_user_id w1 = (inr tt, w2) /\
    conversations w2 !! id = Some c' /\
    Conversation.status c' = ConversationStatus.ACTIVE /\
    Conversation.updated_at c' = clock env (S (clock_reads w)) /\
    Conversation.id c' = Conversation.id c /\
    Conversation.user_id c' = Conversation.user_id c /\
    Conversation.title c' = Conversation.title c /\
    Conversation.created_at c' = Conversation.created_at c /\
    Conversation.model_config c' = Conversation.model_config c /\
    Conversation.context_window c' = Conversation.context_window c /\
    Conversation.message_count c' = Conversation.message_count c /\
    Conversation.total_tokens_used c' = Conversation.total_tokens_used c /\
    Conversation.metadata c' = Conversation.metadata c /\
    messages w2 = messages w.
Proof.
  intros Hrel Hid Hc Hkey Hown.
  destruct (set_status_reliable env ConversationStatus.ARCHIVED _ _ _ _ _ Hrel Hid Hc Hown)
    as (w1 & Harch & Hcs1 & Hms1 & Hclk1).
  assert (Hc1 : conversations w1 !! id
                = Some (Conversation.set_updated_at (clock env (clock_reads w))
                          (Conversation.set_status ConversationStatus.ARCHIVED c)))
    by (by rewrite Hcs1, Hkey, lookup_insert_eq).
  destruct (set_status_reliable env ConversationStatus.ACTIVE _ _ _ _ _ Hrel Hid Hc1 Hown)
    as (w2 & Hrest & Hcs2 & Hms2 & _).
  exists w1, w2. eexists.
  split; [unfold archive_conversation, http_errors, try_except; by rewrite Harch|].
  split; [unfold restore_conversation, http_errors, try_except; by rewrite Hrest|].
  split; [rewrite Hcs2; simpl; rewrite Hkey; apply lookup_insert_eq|].
  simpl. rewrite Hclk1, Hms2, Hms1. done.
Qed.

Lemma archive_then_restore_witness :
  exists w1 w2 c',
    archive_conversation echo_env id_one 7%N archive_world = (inr tt, w1) /\
    restore_conversation echo_env id_one 7%N w1 = (inr tt, w2) /\
    conversations w2 !! 1%N = Some c' /\
    Conversation.status c' = ConversationStatus.ACTIVE /\
    Conversation.updated_at c' = clock echo_env (S (clock_reads archive_world)) /\
    Conversation.id c' = Conversation.id archive_conversation_sample /\
    Conversation.user_id c' = Conversation.user_id archive_conversation_sample /\
    Conversation.title c' = Conversation.title archive_conversation_sample /\
    Conversation.created_at c' = Conversation.created_at archive_conversation_sample /\
    Conversation.model_config c' = Conversation.model_config archive_conversation_sample /\
    Conversation.context_window c' = Conversation.context_window archive_conversation_sample /\
    Conversation.message_count c' = Conversation.message_count archive_conversation_sample /\
    Conversation.total_tokens_used c' = Conversation.total_tokens_used archive_conversation_sample /\
    Conversation.metadata c' = Conversation.metadata archive_conversation_sample /\
    messages w2 = messages archive_world.
Proof.
  apply (archive_then_restore echo_env id_one 7%N 1%N archive_conversation_sample archive_world).
  - intros n. reflexivity.
  - reflexivity.
  - reflexivity.
  - reflexivity.
  - reflexivity.
Defined.

(** C7, as stated, fails: the conversation was last written at time 0, and
    after archive and restore its [updated_at] is the time of the restore. *)
Lemma restore_changes_updated_at :
  let '(r1, w1) := archive_conversation echo_env id_one 7%N archive_world in
  let '(r2, w2) := restore_conversation echo_env id_one 7%N w1 in
  r1 = inr tt /\ r2 = inr tt /\
  Conversation.updated_at <$> conversations archive_world !! 1%N = Some 0 /\
  Conversation.status <$> conversations w2 !! 1%N = Some ConversationStatus.ACTIVE /\
  Conversation.updated_at <$> conversations w2 !! 1%N = Some 101.
Proof. vm_compute. repeat split; reflexivity. Qed.

(** Newest first, a message strictly newer than all the others comes first. *)
Lemma newest_is_head (l rest : list Message.t) x :
  StronglySorted newer_first l ->
  l ≡ₚ x :: rest ->
  Forall (fun m => Message.timestamp m < Message.timestamp x) rest ->
  exists l', l = x :: l' /\ l' ≡ₚ rest.
Proof.
  intros Hs Hp Hrest.
  destruct l as [|h t]; [by apply Permutation_nil_cons in Hp|].
  apply StronglySorted_inv in Hs as [_ Hh].
  assert (Hhx : h ∈ x :: rest) by (rewrite <- Hp; apply list_elem_of_here).
  apply elem_of_cons in Hhx as [->|Hhr].
  - exists t. split; [done|]. by apply Permutation_cons_inv in Hp.
  - exfalso. rewrite Forall_forall in Hrest, Hh.
    specialize (Hrest _ Hhr).
    assert (Hxl : x ∈ h :: t) by (rewrite Hp; apply list_elem_of_here).
    apply elem_of_cons in Hxl as [->|Hxt]; [lia|].
    specialize (Hh _ Hxt). unfold newer_first in Hh. lia.
Qed.

(** After the two appends, the store hands the placeholder first and the
    user's message second. *)
Lemma fetched_after_turn conversation w (old : list Message.t) user_msg ai_msg :
  messages w = old ++ [user_msg; ai_msg] ->
  Message.conversation_id user_msg = Conversation.id conversation ->
  Message.conversation_id ai_msg = Conversation.id conversation ->
  Forall (fun m => Message.timestamp m < Message.timestamp user_msg) old ->
  Message.timestamp user_msg < Message.timestamp ai_msg ->
  2 <= Conversation.context_window conversation ->
  exists older, fetched conversation w = ai_msg :: user_msg :: older /\
                Forall (fun m => m ∈ old) older.
Proof.
  intros Hms Hcu Hca Hold Hlt HW. unfold fetched. rewrite Hms.
  set (mine := fun m => Message.conversation_id m = Conversation.id conversation).
  assert (Hfilter : filter mine (old ++ [user_msg; ai_msg])
                    = filter mine old ++ [user_msg; ai_msg]).
  { rewrite filter_app, !filter_cons, filter_nil. unfold mine.
    by rewrite !decide_True by done. }
  rewrite Hfilter.
  pose proof (StronglySorted_merge_sort newer_first
                (filter mine old ++ [user_msg; ai_msg])) as Hs.
  pose proof (merge_sort_Permutation newer_first
                (filter mine old ++ [user_msg; ai_msg])) as Hp.
  assert (Holdf : Forall (fun m => Message.timestamp m < Message.timestamp user_msg)
                    (filter mine old)).
  { rewrite Forall_forall in *. intros m Hm. apply list_elem_of_filter in Hm as [_ Hm]. auto. }
  destruct (newest_is_head _ (user_msg :: filter mine old) ai_msg Hs) as (l1 & Hl1 & Hp1).
  { rewrite Hp. change [user_msg; ai_msg] with ([user_msg] ++ [ai_msg]).
    rewrite app_assoc, <- Permutation_cons_append. f_equiv.
    by rewrite <- Permutation_cons_append. }
  { constructor; [done|]. eapply Forall_impl; [exact Holdf|]. simpl. intros; lia. }
  rewrite Hl1 in Hs. apply StronglySorted_inv in Hs as [Hs _].
  destruct (newest_is_head _ (filter mine old) user_msg Hs Hp1 Holdf) as (l2 & Hl2 & Hp2).
  rewrite Hl1, Hl2. unfold store_limit.
  destruct (Conversation.context_window conversation =? 0) eqn:E; [lia|].
  destruct (Z.abs_nat (Conversation.context_window conversation)) as [|[|n]] eqn:En; [lia|lia|].
  simpl. exists (take n l2). split; [done|].
  apply Forall_forall. intros m Hm. apply subseteq_take in Hm. rewrite Hp2 in Hm.
  apply list_elem_of_filter in Hm. tauto.
Qed.

Lemma context_after_turn conversation w (old : list Message.t) user_msg ai_msg :
  messages w = old ++ [user_msg; ai_msg] ->
  Message.conversation_id user_msg = Conversation.id conversation ->
  Message.conversation_id ai_msg = Conversation.id conversation ->
  Forall (fun m => Message.timestamp m < Message.timestamp user_msg) old ->
  Message.timestamp user_msg < Message.timestamp ai_msg ->
  2 <= Conversation.context_window conversation ->
  completed user_msg -> ~ completed ai_msg ->
  exists earlier, context_sources conversation w = earlier ++ [user_msg] /\
                  Forall (fun m => m ∈ old) earlier.
Proof.
  intros Hms Hcu Hca Hold Hlt HW Hcompl Hproc.
  destruct (fetched_after_turn conversation w old user_msg ai_msg)
    as (older & Hf & Holder); try done.
  unfold context_sources. rewrite Hf, !reverse_cons, !filter_app, !filter_cons, filter_nil.
  rewrite decide_True, decide_False by done. rewrite app_nil_r.
  eexists. split; [done|].
  rewrite Forall_forall in *. intros m Hm.
  apply list_elem_of_filter in Hm as [_ Hm]. rewrite elem_of_reverse in Hm. auto.
Qed.

Lemma clock_monotone env i j :
  (forall i j, (i < j)%nat -> clock env i < clock env j) ->
  (i <= j)%nat -> clock env i <= clock env j.
Proof.
  intros Hclock Hij. destruct (decide (i = j)) as [->|Hne]; [lia|].
  assert (i < j)%nat as Hlt by lia. apply Hclock in Hlt. lia.
Qed.

(** X24: when the store is reliable, the clock is strictly increasing and
    the stored messages are older than the clock, and the conversation's
    [context_window] is at least 2, the history handed to
    [generate_response] ends with the entry of the USER message just
    appended and has no entry for the placeholder. *)
Theorem context_ends_with_user_message env conversation_id user_message user_id w :
  reliable env ->
  (forall i j, (i < j)%nat -> clock env i < clock env j) ->
  (forall m, m ∈ messages w -> Message.timestamp m < clock env (clock_reads w)) ->
  (forall c0, resolves conversation_id user_id w c0 ->
              2 <= Conversation.context_window c0) ->
  exists r w' delta srcs user_msg ai_msg,
    process_user_message env conversation_id user_message user_id w = (r, w') /\
    journal w' = journal w ++ delta /\
    generate_calls delta = [turn_of <$> srcs] /\
    MessageInserted user_msg ∈ delta /\
    MessageInserted ai_msg ∈ delta /\
    Message.message_type ai_msg = MessageType.ASSISTANT /\
    Message.status ai_msg = MessageStatus.PROCESSING /\
    last srcs = Some user_msg /\
    last (turn_of <$> srcs)
    = Some {| Turn.role := "user"; Turn.content := user_message |} /\
    Forall completed srcs /\
    ai_msg ∉ srcs.
Proof.
  intros Hrel Hclock Hpast Hwindow.
  destruct (process_reliable_trace env conversation_id user_message user_id w Hrel)
    as (conversation & user_msg & ai_msg & w3 & r & w' & final & tail
        & Hopen & Hres & Hj & _ & Htail & _).
  apply open_turn_inr_inv in Hopen
    as (c0 & w0 & c1 & Hc0 & Hum & Ham & Hms3 & Hid & Hcw & _ & _ & _ & _ & Hj3).
  destruct (get_or_create_calls _ _ _ _ _ _ Hc0) as (pre & Hj0 & _ & Hpre & _ & Hclk).
  assert (HW : 2 <= Conversation.context_window conversation).
  { rewrite Hcw. apply get_or_create_inr_inv in Hc0 as [_ [(Hr & _)|(_ & -> & _)]];
      [by apply Hwindow|simpl; lia]. }
  destruct (context_after_turn conversation w3 (messages w) user_msg ai_msg)
    as (earlier & Hsrcs & Hearlier); try done.
  { by subst user_msg. }
  { by subst ai_msg. }
  { apply Forall_forall. intros m Hm. apply Hpast in Hm. subst user_msg. simpl.
    pose proof (clock_monotone env _ _ Hclock Hclk). lia. }
  { subst user_msg ai_msg. simpl. apply Hclock. lia. }
  { by subst user_msg. }
  { by subst ai_msg. }
  assert (Hcompleted : Forall completed (earlier ++ [user_msg])).
  { rewrite <- Hsrcs. unfold context_sources. apply Forall_forall. intros m Hm.
    apply list_elem_of_filter in Hm. tauto. }
  assert (Hexcluded : ai_msg ∉ earlier ++ [user_msg]).
  { intros Hin. rewrite Forall_forall in Hcompleted. apply Hcompleted in Hin.
    by subst ai_msg. }
  assert (Hturn : turn_of user_msg = {| Turn.role := "user"; Turn.content := user_message |})
    by (by subst user_msg).
  simpl in Hj. rewrite Hsrcs in Hj.
  exists r, w'. eexists. exists (earlier ++ [user_msg]), user_msg, ai_msg.
  split; [exact Hres|].
  split; [rewrite Hj, Hj3, Hj0, <- !app_assoc; reflexivity|].
  split; [unfold generate_calls in *; rewrite !omap_app, Hpre; csimpl; by rewrite Htail|].
  split; [set_solver|]. split; [set_solver|].
  split; [by subst ai_msg|]. split; [by subst ai_msg|].
  split; [apply last_snoc|].
  split; [by rewrite fmap_last, last_snoc, <- Hturn|done].
Qed.

Lemma context_ends_with_user_message_witness :
  exists r w' delta srcs user_msg ai_msg,
    process_user_message echo_env (Some 1%N) (lit "Hello") 7%N short_window_world = (r, w') /\
    journal w' = journal short_window_world ++ delta /\
    generate_calls delta = [turn_of <$> srcs] /\
    MessageInserted user_msg ∈ delta /\
    MessageInserted ai_msg ∈ delta /\
    Message.message_type ai_msg = MessageType.ASSISTANT /\
    Message.status ai_msg = MessageStatus.PROCESSING /\
    last srcs = Some user_msg /\
    last (turn_of <$> srcs)
    = Some {| Turn.role := "user"; Turn.content := lit "Hello" |} /\
    Forall completed srcs /\
    ai_msg ∉ srcs.
Proof.
  apply (context_ends_with_user_message echo_env (Some 1%N) (lit "Hello") 7%N
           short_window_world).
  - intros n. reflexivity.
  - intros i j Hij. simpl. lia.
  - intros m Hm. simpl in Hm.
    repeat (apply elem_of_cons in Hm as [->|Hm]; [simpl; lia|]).
    by apply elem_of_nil in Hm.
  - intros c0 (id & Hid & Hc0 & _). injection Hid as <-.
    unfold short_window_world, store_of in Hc0. cbn [conversations] in Hc0.
    apply lookup_singleton_Some in Hc0 as [_ <-]. simpl. lia.
Defined.

(** With the window of two of [short_window_conversation], the placeholder
    takes one of the two places: the history is the new message alone. *)
Example short_window_turn :
  generate_calls
    (journal (process_user_message echo_env (Some 1%N) (lit "Hello") 7%N
                short_window_world).2)
  = [ [ {| Turn.role := "user"; Turn.content := lit "Hello" |} ] ].
Proof. vm_compute. reflexivity. Qed.

(** C8 on the code: at a window of 1 the limit of the query is applied
    before the loop drops what is not COMPLETED, and the newest message is
    the placeholder the call has just inserted: the one message the store
    hands over is the placeholder, the loop drops it, and
    [generate_response] is called with an empty history, without the
    message of the user that the call has stored. *)
Lemma unit_window_context_empty :
  Conversation.context_window unit_window_conversation = 1 /\
  let '(r, w') :=
    process_user_message echo_env (Some 1%N) (lit "Hello") 7%N unit_window_world in
  (exists reply, r = inr reply /\ reply_conversation_id reply = 1%N) /\
  generate_calls (journal w') = [ [] ].
Proof. split; [reflexivity|]. vm_compute. split; [eexists; split|]; reflexivity. Qed.

(** The parameters in force are the overrides when they are truthy, and the
    settings otherwise: absent, [None], [0] and [0.0] all give the default. *)
Lemma effective_parameters env conversation_id user_message user_id w :
  reliable env ->
  exists r w' delta conversation,
    process_user_message env conversation_id user_message user_id w = (r, w') /\
    journal w' = journal w ++ delta /\
    (resolves conversation_id user_id w conversation \/
     conversation = new_conversation env user_id w) /\
    pipeline_calls delta
    = [ (py_or (dict_get (Conversation.model_config conversation) "max_tokens")
           (VInt (Settings.max_tokens (env_settings env))),
         py_or (dict_get (Conversation.model_config conversation) "temperature")
           (VFloat (Settings.temperature (env_settings env)))) ].
Proof.
  intros Hrel.
  destruct (process_reliable_trace env conversation_id user_message user_id w Hrel)
    as (conversation & user_msg & ai_msg & w3 & r & w' & final & tail
        & Hopen & Hres & Hj & _ & _ & Htail & _).
  apply open_turn_inr_inv in Hopen
    as (c0 & w0 & c1 & Hc0 & _ & _ & _ & _ & _ & Hcfg & _ & _ & _ & Hj3).
  destruct (get_or_create_calls _ _ _ _ _ _ Hc0) as (pre & Hj0 & _ & _ & Hpre & _).
  simpl in Hj. rewrite Hcfg in Hj.
  exists r, w'. eexists. exists c0. split; [exact Hres|].
  split; [rewrite Hj, Hj3, Hj0, <- !app_assoc; reflexivity|].
  split.
  { apply get_or_create_inr_inv in Hc0 as [_ [(Hr & _)|(_ & Hnew & _)]]; [by left|by right]. }
  unfold pipeline_calls in *. rewrite !omap_app, Hpre. csimpl. by rewrite Htail.
Qed.

(** C9 on the code: with the overrides [max_tokens = 0] and
    [temperature = 0.0] present in [model_config], the pipeline is called
    with the defaults 512 and 0.7, and the metadata reports them. *)
Theorem zero_overrides_replaced_by_defaults :
  Conversation.model_config zero_overrides_conversation !! "max_tokens" = Some (VInt 0) /\
  Conversation.model_config zero_overrides_conversation !! "temperature"
  = Some (VFloat 0%float) /\
  let '(r, w') :=
    process_user_message echo_env (Some 1%N) (lit "Hello") 7%N zero_overrides_world in
  pipeline_calls (journal w') = [ (VInt 512, VFloat 0.7%float) ] /\
  exists reply, r = inr reply /\
    reply_conversation_id reply = 1%N /\
    reply_metadata reply !! "max_tokens" = Some (VInt 512) /\
    reply_metadata reply !! "temperature" = Some (VFloat 0.7%float).
Proof.
  split; [vm_compute; reflexivity|]. split; [vm_compute; reflexivity|].
  vm_compute. split; [reflexivity|]. eexists. repeat split; reflexivity.
Qed.

(** C1 on the code: a conversation id that belongs to another user, or to
    no conversation, does not make the call fail: a new conversation is
    inserted for the caller and both messages are written to it, while
    [send_message] answers with the id of the request. *)
Theorem unowned_conversation_id_starts_new_conversation :
  (Conversation.user_id <$> conversations short_window_world !! 1%N = Some 7%N /\
   let '(r, w') :=
     process_user_message echo_env (Some 1%N) (lit "Hello") 8%N short_window_world in
   (exists reply, r = inr reply /\ reply_conversation_id reply = 7%N) /\
   Conversation.user_id <$> conversations w' !! 7%N = Some 8%N /\
   conversations w' !! 1%N = conversations short_window_world !! 1%N /\
   (fun m => (Message.id m, Message.conversation_id m)) <$> drop 5 (messages w')
   = [ (8%N, 7%N); (9%N, 7%N) ])
  /\
  (conversations empty_world !! 5%N = None /\
   let '(r, w') :=
     process_user_message echo_env (Some 5%N) (lit "Hello") 8%N empty_world in
   (exists reply, r = inr reply /\ reply_conversation_id reply = 1%N) /\
   Conversation.user_id <$> conversations w' !! 1%N = Some 8%N /\
   (fun m => (Message.id m, Message.conversation_id m)) <$> messages w'
   = [ (2%N, 1%N); (3%N, 1%N) ])
  /\
  (let '(r, w') := send_message echo_env (lit "Hello") (Some id_one) 8%N short_window_world in
   (exists response, r = inr response /\ chat_conversation_id response = 1%N) /\
   (fun m => (Message.id m, Message.conversation_id m)) <$> drop 5 (messages w')
   = [ (8%N, 7%N); (9%N, 7%N) ]).
Proof.
  split; [|split].
  - split; [vm_compute; reflexivity|]. vm_compute.
    split; [eexists; split; reflexivity|]. repeat split; reflexivity.
  - split; [vm_compute; reflexivity|]. vm_compute.
    split; [eexists; split; reflexivity|]. repeat split; reflexivity.
  - vm_compute. split; [eexists; split; reflexivity|reflexivity].
Qed.

(** * Properties of the rest of the code *)

(** ** The prelude of the handlers *)

Lemma http_errors_inv {A} detail (c : M A) w r w' :
  http_errors detail c w = (r, w') ->
  exists r0, c w = (r0, w') /\
    r = match r0 with
        | inr a => inr a
        | inl (HTTPException code d) => inl (HTTPException code d)
        | inl _ => inl (HTTPException 500 detail)
        end.
Proof.
  unfold http_errors, try_except. destruct (c w) as [[e|a] w1].
  - destruct e; intros H; injection H as <- <-; eauto.
  - intros H; injection H as <- <-; eauto.
Qed.

Lemma get_owned_inv env s uid w r w' :
  get_owned_conversation env s uid w = (r, w') ->
  messages w' = messages w /\ conversations w' = conversations w /\
  next_id w' = next_id w /\ clock_reads w' = clock_reads w /\ journal w' = journal w /\
  match ObjectId_of_str s with
  | None => r = inl (HTTPException 400 (lit "Invalid ID format")) /\ w' = w
  | Some id =>
      w' = count_store_call w /\
      if store_fails env (store_calls w) then r = inl (StoreError (store_calls w))
      else match conversations w !! id with
           | Some c =>
               if decide (Conversation.user_id c = uid) then r = inr (id, c)
               else r = inl (HTTPException 404 (lit "Conversation not found"))
           | None => r = inl (HTTPException 404 (lit "Conversation not found"))
           end
  end.
Proof.
  unfold get_owned_conversation, get_object_id, bind, Conversation_get, store_call, ret, raise.
  destruct (ObjectId_of_str s) as [id|]; [|intros H; by injection H as <- <-].
  destruct (store_fails env (store_calls w)); [intros H; by injection H as <- <-|].
  simpl. destruct (conversations w !! id) as [c|]; [destruct (decide _)|];
    intros H; by injection H as <- <-.
Qed.

(** The same prelude as [archive_conversation] and [restore_conversation]
    have it. *)
Lemma set_conversation_status_unowned env st s uid id w :
  ObjectId_of_str s = Some id ->
  store_fails env (store_calls w) = false ->
  (forall c, conversations w !! id = Some c -> Conversation.user_id c <> uid) ->
  set_conversation_status env st s uid w
  = (inl (HTTPException 404 (lit "Conversation not found")), count_store_call w).
Proof.
  intros Hid Hok Hno.
  unfold set_conversation_status, get_object_id, bind, Conversation_get, store_call, ret, raise.
  rewrite Hid. simpl. rewrite Hok. simpl.
  destruct (conversations w !! id) as [c|] eqn:Hc; [|done].
  destruct (decide _) as [Hown|_]; [|done]. by apply Hno in Hown.
Qed.

Lemma get_owned_unowned env s uid id w :
  ObjectId_of_str s = Some id ->
  store_fails env (store_calls w) = false ->
  (forall c, conversations w !! id = Some c -> Conversation.user_id c <> uid) ->
  get_owned_conversation env s uid w
  = (inl (HTTPException 404 (lit "Conversation not found")), count_store_call w).
Proof.
  intros Hid Hok Hno.
  destruct (get_owned_conversation env s uid w) as [r w'] eqn:H.
  apply get_owned_inv in H as (_ & _ & _ & _ & _ & H).
  rewrite Hid, Hok in H. destruct H as [-> H]. f_equal.
  destruct (conversations w !! id) as [c|] eqn:Hc; [|done].
  destruct (decide _) as [Hown|_]; [|done]. by apply Hno in Hown.
Qed.

Lemma get_owned_owned env s uid id c w :
  ObjectId_of_str s = Some id ->
  store_fails env (store_calls w) = false ->
  conversations w !! id = Some c ->
  Conversation.user_id c = uid ->
  get_owned_conversation env s uid w = (inr (id, c), count_store_call w).
Proof.
  intros Hid Hok Hc Hown.
  destruct (get_owned_conversation env s uid w) as [r w'] eqn:H.
  apply get_owned_inv in H as (_ & _ & _ & _ & _ & H).
  rewrite Hid, Hok, Hc in H. destruct H as [-> H]. f_equal.
  by rewrite decide_True in H.
Qed.

(** X1: a conversation that is missing, or that belongs to another user, is
    "not found" for every handler that takes a conversation id: the call
    raises 404 and leaves both collections as they were. *)
Theorem unowned_conversation_not_found env conversation_id current_user_id id w :
  ObjectId_of_str conversation_id = Some id ->
  store_fails env (store_calls w) = false ->
  (forall c, conversations w !! id = Some c -> Conversation.user_id c <> current_user_id) ->
  (forall limit offset,
     get_conversation_messages env conversation_id limit offset current_user_id w
     = (inl not_found, count_store_call w)) /\
  (forall update_data,
     update_conversation env conversation_id update_data current_user_id w
     = (inl not_found, count_store_call w)) /\
  archive_conversation env conversation_id current_user_id w
  = (inl not_found, count_store_call w) /\
  restore_conversation env conversation_id current_user_id w
  = (inl not_found, count_store_call w) /\
  get_conversation env conversation_id current_user_id w
  = (inl not_found, count_store_call w) /\
  delete_conversation env conversation_id current_user_id w
  = (inl not_found, count_store_call w) /\
  messages (count_store_call w) = messages w /\
  conversations (count_store_call w) = conversations w.
Proof.
  intros Hid Hok Hno. unfold not_found.
  pose proof (get_owned_unowned env _ _ _ _ Hid Hok Hno) as Hget.
  pose proof (fun st => set_conversation_status_unowned env st _ _ _ _ Hid Hok Hno) as Hset.
  repeat split; intros;
    unfold get_conversation_messages, update_conversation, archive_conversation,
      restore_conversation, get_conversation, delete_conversation,
      http_errors, try_except, bind;
    rewrite ?Hget, ?Hset; reflexivity.
Qed.

Lemma unowned_conversation_not_found_witness :
  (forall limit offset,
     get_conversation_messages echo_env id_one limit offset 8%N short_window_world
     = (inl not_found, count_store_call short_window_world)) /\
  (forall update_data,
     update_conversation echo_env id_one update_data 8%N short_window_world
     = (inl not_found, count_store_call short_window_world)) /\
  archive_conversation echo_env id_one 8%N short_window_world
  = (inl not_found, count_store_call short_window_world) /\
  restore_conversation echo_env id_one 8%N short_window_world
  = (inl not_found, count_store_call short_window_world) /\
  get_conversation echo_env id_one 8%N short_window_world
  = (inl not_found, count_store_call short_window_world) /\
  delete_conversation echo_env id_one 8%N short_window_world
  = (inl not_found, count_store_call short_window_world) /\
  messages (count_store_call short_window_world) = messages short_window_world /\
  conversations (count_store_call short_window_world) = conversations short_window_world.
Proof.
  apply (unowned_conversation_not_found echo_env id_one 8%N 1%N short_window_world).
  - reflexivity.
  - reflexivity.
  - intros c Hc. unfold short_window_world, store_of in Hc. cbn [conversations] in Hc.
    apply lookup_singleton_Some in Hc as [_ <-]. simpl. lia.
Defined.

(** A string of 24 characters with whitespace around its digits is an
    ObjectId, of eleven bytes here: the handler does not answer 400, it goes
    on to the store, which has no document under such an id, and answers
    404.  Whitespace between the two digits of a byte is not skipped. *)
Example blank_padded_id :
  ObjectId_of_str (lit " 0000000000000000000001 ") = Some (2 ^ 96 + 1)%N /\
  archive_conversation echo_env (lit " 0000000000000000000001 ") 7%N short_window_world
  = (inl not_found, count_store_call short_window_world) /\
  ObjectId_of_str (lit "0 0000000000000000000001") = None /\
  archive_conversation echo_env (lit "0 0000000000000000000001") 7%N short_window_world
  = (inl (HTTPException 400 (lit "Invalid ID format")), short_window_world).
Proof. repeat split; vm_compute; reflexivity. Qed.

(** ** What the handlers raise *)

Lemma passes_ret {A} codes (a : A) : passes codes (ret a).
Proof. by intros w. Qed.

Lemma passes_raise {A} codes code detail :
  code ∈ codes -> passes codes (@raise A (HTTPException code detail)).
Proof. by intros Hin w. Qed.

Lemma passes_bind {A B} codes (c : M A) (k : A -> M B) :
  passes codes c -> (forall a, passes codes (k a)) -> passes codes (bind c k).
Proof.
  intros Hc Hk w. unfold bind. specialize (Hc w).
  destruct (c w) as [[e|a] w1]; [exact Hc|apply Hk].
Qed.

Lemma passes_store_call {A} env codes (op : World -> A * World) :
  passes codes (store_call env op).
Proof.
  intros w. unfold store_call. destruct (store_fails env (store_calls w)); [done|].
  by destruct (op (count_store_call w)).
Qed.

Lemma passes_utcnow env codes : passes codes (utcnow env).
Proof. by intros w. Qed.

Lemma passes_new_document {A} codes cls (fields : A) : passes codes (new_document cls fields).
Proof. intros w. unfold new_document. by destruct (decide _). Qed.

Lemma passes_for_each {A B} codes (f : A -> M B) (l : list A) :
  (forall a, passes codes (f a)) -> passes codes (for_each f l).
Proof.
  intros Hf. induction l as [|a l IH]; [apply passes_ret|].
  cbn [for_each]. apply passes_bind; [apply Hf|]. intros b.
  apply passes_bind; [apply IH|]. intros bs. apply passes_ret.
Qed.

Lemma passes_get_owned env s uid : passes [400; 404] (get_owned_conversation env s uid).
Proof.
  unfold get_owned_conversation, get_object_id.
  apply passes_bind.
  { destruct (ObjectId_of_str s); [apply passes_ret|apply passes_raise; set_solver]. }
  intros id. apply passes_bind; [apply passes_store_call|].
  intros [c|]; [|apply passes_raise; set_solver].
  destruct (decide _); [apply passes_ret|apply passes_raise; set_solver].
Qed.

Lemma passes_set_status env st s uid :
  passes [400; 404] (set_conversation_status env st s uid).
Proof.
  unfold set_conversation_status, get_object_id.
  apply passes_bind.
  { destruct (ObjectId_of_str s); [apply passes_ret|apply passes_raise; set_solver]. }
  intros id. apply passes_bind; [apply passes_store_call|].
  intros [c|]; [|apply passes_raise; set_solver].
  destruct (decide _); [|apply passes_raise; set_solver].
  apply passes_bind; [|intros c'; apply passes_store_call].
  unfold update_timestamp. apply passes_bind; [apply passes_utcnow|].
  intros now. apply passes_ret.
Qed.

Lemma http_errors_passes {A} detail (c : M A) w :
  passes [400; 404] c ->
  raises_only (http_error [400; 404; 500]) (http_errors detail c w).1.
Proof.
  intros Hc. specialize (Hc w). unfold http_errors, try_except, raise, raises_only.
  destruct (c w) as [[e|a] w1]; [|exact I].
  assert (H500 : 500 ∈ [400; 404; 500]) by (rewrite !elem_of_cons; by right; right; left).
  destruct e as [n|msg| |code detail0|]; cbn [fst]; eexists _, _;
    (split; [reflexivity|]); try exact H500.
  cbn [fst] in Hc. rewrite !elem_of_cons. rewrite !elem_of_cons in Hc.
  destruct Hc as [->|[->|Hc]]; [by left|by right; left|by apply elem_of_nil in Hc].
Qed.

Lemma only_500 {A} detail (c : M A) w :
  raises_only (http_error [500])
    (try_except c (fun _ => raise (HTTPException 500 detail)) w).1.
Proof.
  unfold try_except, raise, raises_only.
  destruct (c w) as [[e|a] w1]; [|exact I].
  eexists _, _. split; [reflexivity|set_solver].
Qed.

(** X2: whatever goes wrong, in the store included, the handlers of
    [conversations.py] and [chat.py] raise nothing but an [HTTPException]:
    400, 404 or 500 for those that take a conversation id, 500 alone for
    [send_message] and [create_conversation]. *)
Theorem handlers_raise_http_errors env w conversation_id current_user_id :
  (forall limit offset,
     raises_only (http_error [400; 404; 500])
       (get_conversation_messages env conversation_id limit offset current_user_id w).1) /\
  (forall update_data,
     raises_only (http_error [400; 404; 500])
       (update_conversation env conversation_id update_data current_user_id w).1) /\
  raises_only (http_error [400; 404; 500])
    (archive_conversation env conversation_id current_user_id w).1 /\
  raises_only (http_error [400; 404; 500])
    (restore_conversation env conversation_id current_user_id w).1 /\
  raises_only (http_error [400; 404; 500])
    (get_conversation env conversation_id current_user_id w).1 /\
  raises_only (http_error [400; 404; 500])
    (delete_conversation env conversation_id current_user_id w).1 /\
  (forall message request_conversation_id,
     raises_only (http_error [500])
       (send_message env message request_conversation_id current_user_id w).1) /\
  (forall title model_config,
     raises_only (http_error [500])
       (create_conversation env title model_config current_user_id w).1).
Proof.
  split; [|split; [|split; [|split; [|split; [|split; [|split]]]]]].
  - intros limit offset. apply http_errors_passes.
    apply passes_bind; [apply passes_get_owned|]. intros [id c].
    apply passes_bind; [apply passes_store_call|]. intros page.
    apply passes_for_each. intros m. apply passes_new_document.
  - intros update_data. apply http_errors_passes.
    apply passes_bind; [apply passes_get_owned|]. intros [id c].
    destruct (apply_update update_data c) as [c' [|f fs]]; [apply passes_ret|].
    apply passes_bind.
    { unfold update_timestamp. apply passes_bind; [apply passes_utcnow|].
      intros now. apply passes_ret. }
    intros c''. apply passes_bind; [apply passes_store_call|]. intros []. apply passes_ret.
  - apply http_errors_passes, passes_set_status.
  - apply http_errors_passes, passes_set_status.
  - apply http_errors_passes.
    apply passes_bind; [apply passes_get_owned|]. intros [id c].
    apply passes_bind; [apply passes_store_call|]. intros page.
    apply passes_bind; [|intros rs; apply passes_new_document].
    apply passes_for_each. intros m. apply passes_new_document.
  - apply http_errors_passes.
    apply passes_bind; [apply passes_get_owned|]. intros [id c].
    apply passes_bind; [apply passes_store_call|]. intros []. apply passes_store_call.
  - intros message request_conversation_id. apply only_500.
  - intros title model_config. apply only_500.
Qed.

(** ** [update_conversation] *)

(** X3: [update_conversation] on the caller's conversation reports the
    fields that were given, in the order title, status, model_config.  With
    none given it writes nothing.  Otherwise the stored conversation has the
    given title and status, a [model_config] in which the given keys
    replace the old ones and the other old keys stay, [updated_at] at the
    time of the call, and every other field as before; the messages are
    not touched. *)
Theorem update_conversation_effect env conversation_id update_data current_user_id id c w :
  reliable env ->
  ObjectId_of_str conversation_id = Some id ->
  conversations w !! id = Some c ->
  Conversation.id c = id ->
  Conversation.user_id c = current_user_id ->
  exists w',
    update_conversation env conversation_id update_data current_user_id w
    = (inr (if_given (ConversationUpdate.title update_data) "title"
            ++ if_given (ConversationUpdate.status update_data) "status"
            ++ if_given (ConversationUpdate.model_config update_data) "model_config"), w') /\
    messages w' = messages w /\
    match ConversationUpdate.title update_data, ConversationUpdate.status update_data,
          ConversationUpdate.model_config update_data with
    | None, None, None => conversations w' = conversations w /\ journal w' = journal w
    | _, _, _ =>
        exists c',
          conversations w' = <[id := c']> (conversations w) /\
          Conversation.title c'
          = match ConversationUpdate.title update_data with
            | Some title => Some title
            | None => Conversation.title c
            end /\
          Conversation.status c'
          = default (Conversation.status c) (ConversationUpdate.status update_data) /\
          (forall k,
             Conversation.model_config c' !! k
             = match ConversationUpdate.model_config update_data with
               | Some d => match d !! k with
                           | Some v => Some v
                           | None => Conversation.model_config c !! k
                           end
               | None => Conversation.model_config c !! k
               end) /\
          Conversation.updated_at c' = clock env (clock_reads w) /\
          Conversation.id c' = Conversation.id c /\
          Conversation.user_id c' = Conversation.user_id c /\
          Conversation.created_at c' = Conversation.created_at c /\
          Conversation.context_window c' = Conversation.context_window c /\
          Conversation.message_count c' = Conversation.message_count c /\
          Conversation.total_tokens_used c' = Conversation.total_tokens_used c /\
          Conversation.metadata c' = Conversation.metadata c
    end.
Proof.
  intros Hrel Hid Hc Hkey Hown.
  pose proof (get_owned_owned env _ _ _ _ w Hid (Hrel _) Hc Hown) as Hget.
  destruct update_data as [[title|] [status|] [d|]];
    eexists;
    unfold update_conversation, http_errors, try_except, bind;
    rewrite Hget; unfold apply_update, update_timestamp, bind, utcnow, ret, Conversation_save;
    cbn [ConversationUpdate.title ConversationUpdate.status ConversationUpdate.model_config
         app];
    rewrite ?store_call_reliable by done;
    (split; [reflexivity|]); (split; [reflexivity|]);
    try (split; reflexivity);
    (eexists; split; [cbn; rewrite ?Hkey; reflexivity|]);
    cbn; repeat split; try reflexivity;
    intros k; rewrite ?lookup_union; destruct (d !! k), (Conversation.model_config c !! k);
    reflexivity.
Qed.

Lemma update_conversation_effect_witness :
  exists w',
    update_conversation echo_env id_one rename_update 7%N titled_world
    = (inr ["title"%string; "model_config"%string], w') /\
    messages w' = messages titled_world /\
    exists c',
      conversations w' = <[1%N := c']> (conversations titled_world) /\
      Conversation.title c' = Some (lit "Holiday plans") /\
      Conversation.status c' = ConversationStatus.ACTIVE /\
      (forall k,
         Conversation.model_config c' !! k
         = match ({[ "max_tokens" := VInt 64 ]} : gmap string PyVal) !! k with
           | Some v => Some v
           | None => Conversation.model_config titled_conversation !! k
           end) /\
      Conversation.updated_at c' = clock echo_env (clock_reads titled_world) /\
      Conversation.id c' = Conversation.id titled_conversation /\
      Conversation.user_id c' = Conversation.user_id titled_conversation /\
      Conversation.created_at c' = Conversation.created_at titled_conversation /\
      Conversation.context_window c' = Conversation.context_window titled_conversation /\
      Conversation.message_count c' = Conversation.message_count titled_conversation /\
      Conversation.total_tokens_used c' = Conversation.total_tokens_used titled_conversation /\
      Conversation.metadata c' = Conversation.metadata titled_conversation.
Proof.
  apply (update_conversation_effect echo_env id_one rename_update 7%N 1%N
           titled_conversation titled_world).
  - intros n. reflexivity.
  - reflexivity.
  - reflexivity.
  - reflexivity.
  - reflexivity.
Defined.

(** The update of [rename_update]: the new [max_tokens], the old
    [temperature]. *)
Example rename_update_run :
  let '(r, w') := update_conversation echo_env id_one rename_update 7%N titled_world in
  r = inr ["title"%string; "model_config"%string] /\
  (fun c => (Conversation.model_config c !! "max_tokens",
             Conversation.model_config c !! "temperature",
             Conversation.updated_at c)) <$> conversations w' !! 1%N
  = Some (Some (VInt 64), Some (VFloat 0.5%float), 100).
Proof. vm_compute. split; reflexivity. Qed.

(** ** The responses that are documents *)

Lemma response_classes_not_given :
  (MessageResponse_class ∉ document_models) /\ (ConversationResponse_class ∉ document_models).
Proof.
  split; intros Hin; unfold document_models in Hin;
    repeat (apply elem_of_cons in Hin as [Hin|Hin]; [discriminate|]);
    by apply elem_of_nil in Hin.
Qed.

Lemma MessageResponse_of_raises msg w :
  MessageResponse_of msg w = (inl CollectionWasNotInitialized, w).
Proof.
  unfold MessageResponse_of, new_document.
  destruct (decide _) as [Hin|_]; [|done].
  by apply (proj1 response_classes_not_given) in Hin.
Qed.

Lemma ConversationResponse_of_raises conversation recent_messages w :
  ConversationResponse_of conversation recent_messages w
  = (inl CollectionWasNotInitialized, w).
Proof.
  unfold ConversationResponse_of, new_document.
  destruct (decide _) as [Hin|_]; [|done].
  by apply (proj2 response_classes_not_given) in Hin.
Qed.

Lemma for_each_response_of (l : list Message.t) w :
  for_each MessageResponse_of l w
  = (match l with [] => inr [] | _ :: _ => inl CollectionWasNotInitialized end, w).
Proof.
  destruct l as [|m l]; [done|].
  cbn [for_each]. unfold bind. by rewrite MessageResponse_of_raises.
Qed.

(** ** [get_conversation_messages] *)

Lemma get_conversation_messages_owned env s uid id c w limit offset :
  reliable env ->
  ObjectId_of_str s = Some id ->
  conversations w !! id = Some c ->
  Conversation.user_id c = uid ->
  get_conversation_messages env s limit offset uid w
  = (match store_limit limit (store_skip offset (newest_first_of id w)) with
     | [] => inr []
     | _ :: _ => inl (HTTPException 500 (lit "Failed to retrieve messages"))
     end,
     count_store_call (count_store_call w)).
Proof.
  intros Hrel Hid Hc Hown.
  unfold get_conversation_messages, http_errors, try_except, bind.
  rewrite (get_owned_owned env _ _ _ _ w Hid (Hrel _) Hc Hown).
  unfold Message_find_page. rewrite store_call_reliable by done.
  cbn [fst snd]. rewrite for_each_response_of.
  unfold newest_first_of. cbn [messages count_store_call].
  by destruct (store_limit _ _).
Qed.

Lemma store_limit_positive {A} n (l : list A) :
  1 <= n -> store_limit n l = take (Z.to_nat n) l.
Proof.
  intros Hn. unfold store_limit. destruct (n =? 0) eqn:E; [lia|].
  f_equal. lia.
Qed.

(** X4: [get_conversation_messages] builds its answer from
    [MessageResponse], a document class that [init_beanie] is not given,
    inside its [try].  For the caller's conversation and the arguments the
    route admits, with a store that does not raise, it answers the empty
    list when the page (the messages of the conversation newest first,
    [offset] skipped, [limit] taken) is empty, and 500 "Failed to retrieve
    messages" when the page holds a message; it writes nothing.  Whatever
    the arguments and the store, the list it returns is empty. *)
Theorem message_page_not_returned env conversation_id current_user_id id c w limit offset :
  reliable env ->
  ObjectId_of_str conversation_id = Some id ->
  conversations w !! id = Some c ->
  Conversation.user_id c = current_user_id ->
  1 <= limit -> 0 <= offset ->
  (exists w',
     get_conversation_messages env conversation_id limit offset current_user_id w
     = (match take (Z.to_nat limit) (drop (Z.to_nat offset) (newest_first_of id w)) with
        | [] => inr []
        | _ :: _ => inl (HTTPException 500 (lit "Failed to retrieve messages"))
        end, w') /\
     messages w' = messages w /\ conversations w' = conversations w /\
     journal w' = journal w) /\
  (forall env0 conversation_id0 limit0 offset0 user0 w0 page w',
     get_conversation_messages env0 conversation_id0 limit0 offset0 user0 w0
     = (inr page, w') ->
     page = []).
Proof.
  intros Hrel Hid Hc Hown Hl Ho. split.
  - eexists.
    rewrite (get_conversation_messages_owned env _ _ _ _ _ _ _ Hrel Hid Hc Hown).
    rewrite store_limit_positive by lia. unfold store_skip. done.
  - intros env0 s0 limit0 offset0 user0 w0 page w' Hrun.
    apply http_errors_inv in Hrun as (r0 & Hrun & Hr).
    destruct r0 as [e|page0]; [destruct e; discriminate|].
    assert (page0 = page) as -> by congruence.
    apply bind_inr_inv in Hrun as ([id0 c0] & w1 & _ & Hrun).
    apply bind_inr_inv in Hrun as (found & w2 & _ & Hrun).
    rewrite for_each_response_of in Hrun. destruct found; congruence.
Qed.

Lemma message_page_not_returned_witness :
  (exists w',
     get_conversation_messages echo_env id_one 2 1 7%N short_window_world
     = (match take (Z.to_nat 2) (drop (Z.to_nat 1) (newest_first_of 1%N short_window_world))
        with
        | [] => inr []
        | _ :: _ => inl (HTTPException 500 (lit "Failed to retrieve messages"))
        end, w') /\
     messages w' = messages short_window_world /\
     conversations w' = conversations short_window_world /\
     journal w' = journal short_window_world) /\
  (forall env0 conversation_id0 limit0 offset0 user0 w0 page w',
     get_conversation_messages env0 conversation_id0 limit0 offset0 user0 w0
     = (inr page, w') ->
     page = []).
Proof.
  apply (message_page_not_returned echo_env id_one 7%N 1%N short_window_conversation
           short_window_world 2 1).
  - intros n. reflexivity.
  - reflexivity.
  - reflexivity.
  - reflexivity.
  - lia.
  - lia.
Defined.

(** Of the five messages, the page of two after the newest is not empty,
    and the page after all five is. *)
Example second_page :
  (get_conversation_messages echo_env id_one 2 1 7%N short_window_world).1
  = inl (HTTPException 500 (lit "Failed to retrieve messages")) /\
  (get_conversation_messages echo_env id_one 2 5 7%N short_window_world).1 = inr [].
Proof. split; vm_compute; reflexivity. Qed.

(** ** [get_conversation_summary] and [update_conversation_title] *)

Lemma preview_content_length content : len (preview_content content) <= 103.
Proof.
  unfold preview_content, len. destruct (100 <? _) eqn:E.
  - rewrite length_app, length_take.
    change (length (lit "...")) with 3%nat. lia.
  - lia.
Qed.

(** X5: [get_conversation_summary] raises [ValueError] for an id that is
    not stored.  For a stored conversation it reports the stored counter,
    and at most five previews, the newest messages of the conversation
    first; a preview is the content itself up to 100 code points, and the
    first 100 followed by three dots beyond, so never more than 103.  It
    writes nothing. *)
Theorem summary_previews env conversation_id w :
  reliable env ->
  match conversations w !! conversation_id with
  | None =>
      get_conversation_summary env conversation_id w
      = (inr (inl (ValueError_of (lit "Conversation not found"))), count_store_call w)
  | Some c =>
      exists summary w',
        get_conversation_summary env conversation_id w = (inr (inr summary), w') /\
        messages w' = messages w /\ conversations w' = conversations w /\
        journal w' = journal w /\
        Summary.message_count summary = Conversation.message_count c /\
        Summary.recent_messages summary
        = preview_of <$> take 5 (newest_first_of (Conversation.id c) w) /\
        (length (Summary.recent_messages summary) <= 5)%nat /\
        Forall (fun p => len (Preview.content p) <= 103) (Summary.recent_messages summary) /\
        Forall (fun m =>
                  len (Message.content m) <= 100 ->
                  Preview.content (preview_of m) = Message.content m)
               (take 5 (newest_first_of (Conversation.id c) w)) /\
        Forall (fun m =>
                  100 < len (Message.content m) ->
                  Preview.content (preview_of m)
                  = take 100 (Message.content m) ++ lit "...")
               (take 5 (newest_first_of (Conversation.id c) w))
  end.
Proof.
  intros Hrel.
  unfold get_conversation_summary, bind, Conversation_get, get_messages,
    Message_find_newest, ret.
  rewrite store_call_reliable by done. simpl.
  destruct (conversations w !! conversation_id) as [c|]; [|done].
  rewrite store_call_reliable by done. simpl.
  do 2 eexists. split; [reflexivity|]. simpl.
  assert (Htake : forall l : list Message.t, take 5 (store_limit 10 l) = take 5 l).
  { intros l. unfold store_limit. simpl. rewrite take_take. done. }
  rewrite Htake. fold (newest_first_of (Conversation.id c) w).
  repeat split.
  - rewrite length_fmap, length_take. lia.
  - apply Forall_fmap, Forall_forall. intros m _. apply preview_content_length.
  - apply Forall_forall. intros m _ Hlen. simpl. unfold preview_content.
    destruct (100 <? _) eqn:E; [lia|done].
  - apply Forall_forall. intros m _ Hlen. simpl. unfold preview_content.
    destruct (100 <? _) eqn:E; [done|lia].
Qed.

Lemma summary_previews_witness :
  exists summary w',
    get_conversation_summary echo_env 1%N busy_world = (inr (inr summary), w') /\
    messages w' = messages busy_world /\ conversations w' = conversations busy_world /\
    journal w' = journal busy_world /\
    Summary.message_count summary = Conversation.message_count busy_conversation /\
    Summary.recent_messages summary
    = preview_of <$> take 5 (newest_first_of (Conversation.id busy_conversation) busy_world) /\
    (length (Summary.recent_messages summary) <= 5)%nat /\
    Forall (fun p => len (Preview.content p) <= 103) (Summary.recent_messages summary) /\
    Forall (fun m =>
              len (Message.content m) <= 100 ->
              Preview.content (preview_of m) = Message.content m)
           (take 5 (newest_first_of (Conversation.id busy_conversation) busy_world)) /\
    Forall (fun m =>
              100 < len (Message.content m) ->
              Preview.content (preview_of m)
              = take 100 (Message.content m) ++ lit "...")
           (take 5 (newest_first_of (Conversation.id busy_conversation) busy_world)).
Proof.
  apply (summary_previews echo_env 1%N busy_world).
  intros n. reflexivity.
Defined.

(** Seven messages stored: five previews, the newest cut to 103. *)
Example busy_summary :
  match (get_conversation_summary echo_env 1%N busy_world).1 with
  | inr (inr summary) =>
      (Summary.message_count summary,
       (fun p => (Preview.id p, len (Preview.content p))) <$> Summary.recent_messages summary)
  | _ => (0, [])
  end
  = (7, [ (8%N, 103); (7%N, 3); (6%N, 4); (5%N, 4); (4%N, 5) ]).
Proof. vm_compute. reflexivity. Qed.

(** X6: [update_conversation_title] never raises.  It answers [True] only
    when the conversation is stored, and then the stored conversation has
    the new title, [updated_at] at the time of the call and every other
    field as before; it answers [False] when there is no such conversation
    and when the store raises, and then both collections are as before.
    With a reliable store it answers [True] exactly when the conversation
    is stored. *)
Theorem update_title_never_raises env conversation_id title w :
  exists b w',
    update_conversation_title env conversation_id title w = (inr b, w') /\
    messages w' = messages w /\
    (b = false -> conversations w' = conversations w) /\
    (b = true ->
     exists c,
       conversations w !! conversation_id = Some c /\
       conversations w'
       = <[Conversation.id c :=
             Conversation.set_updated_at (clock env (clock_reads w))
               (Conversation_set_title (Some title) c)]> (conversations w)) /\
    (reliable env -> (b = true <-> is_Some (conversations w !! conversation_id))).
Proof.
  unfold update_conversation_title, try_except, bind, Conversation_get,
    update_timestamp, bind, utcnow, Conversation_save, store_call, ret.
  destruct (store_fails env (store_calls w)) eqn:Hf1; simpl.
  { exists false. eexists. split; [reflexivity|]. simpl.
    split; [done|]. split; [done|]. split; [done|].
    intros Hrel. by rewrite Hrel in Hf1. }
  destruct (conversations w !! conversation_id) as [c|] eqn:Hc; simpl.
  - destruct (store_fails env (S (store_calls w))) eqn:Hf2; simpl.
    + exists false. eexists. split; [reflexivity|]. simpl.
      split; [done|]. split; [done|]. split; [done|].
      intros Hrel. by rewrite Hrel in Hf2.
    + exists true. eexists. split; [reflexivity|]. simpl.
      split; [done|]. split; [done|]. split; [intros _; by exists c|].
      intros _. split; [by eexists|done].
  - exists false. eexists. split; [reflexivity|]. simpl.
    split; [done|]. split; [done|]. split; [done|].
    intros _. split; [done|]. by intros [? [=]].
Qed.

(** ** The invariants under the writes of the handlers *)

(** Saving a stored conversation again, under its id and with its counter. *)
Lemma healthy_resave w w' id c c' :
  healthy w ->
  conversations w !! id = Some c ->
  Conversation.id c' = Conversation.id c ->
  Conversation.message_count c' = Conversation.message_count c ->
  conversations w' = <[Conversation.id c' := c']> (conversations w) ->
  messages w' = messages w ->
  next_id w' = next_id w ->
  healthy w'.
Proof.
  intros [[Hkeys Hfresh] Hagree] Hc Hid Hcnt Hcs Hms Hnext.
  destruct (Hkeys _ _ Hc) as [Hk Hlt]. rewrite Hid, Hk in Hcs.
  split; [split|].
  - intros id' c1 Hlook. rewrite Hcs in Hlook. rewrite Hnext.
    destruct (decide (id = id')) as [<-|Hne].
    + rewrite lookup_insert_eq in Hlook. injection Hlook as <-. split; [congruence|done].
    + rewrite lookup_insert_ne in Hlook by done. by apply Hkeys.
  - intros m Hm. rewrite Hms in Hm. rewrite Hnext. by apply Hfresh.
  - intros id' c1 Hlook. rewrite Hcs in Hlook. unfold stored_count. rewrite Hms.
    destruct (decide (id = id')) as [<-|Hne].
    + rewrite lookup_insert_eq in Hlook. injection Hlook as <-.
      rewrite Hcnt. by apply Hagree.
    + rewrite lookup_insert_ne in Hlook by done. by apply Hagree.
Qed.

(** Reading only. *)
Lemma healthy_same w w' :
  healthy w ->
  conversations w' = conversations w -> messages w' = messages w ->
  next_id w' = next_id w ->
  healthy w'.
Proof.
  intros [[Hkeys Hfresh] Hagree] Hcs Hms Hnext.
  unfold healthy, store_ok, counts_agree, stored_count. rewrite Hcs, Hms, Hnext. done.
Qed.

Lemma no_message_of_fresh_id w :
  store_ok w ->
  filter (fun m => Message.conversation_id m = next_id w) (messages w) = [].
Proof.
  intros [_ Hfresh].
  destruct (filter _ (messages w)) as [|m ms] eqn:Hf; [done|].
  assert (Hm : m ∈ filter (fun m => Message.conversation_id m = next_id w) (messages w))
    by (rewrite Hf; apply list_elem_of_here).
  apply list_elem_of_filter in Hm as [Hm1 Hm2]. apply Hfresh in Hm2. lia.
Qed.

(** Inserting a conversation with no messages under the next id. *)
Lemma healthy_new w w' c :
  healthy w ->
  Conversation.id c = next_id w ->
  Conversation.message_count c = 0 ->
  conversations w' = <[next_id w := c]> (conversations w) ->
  messages w' = messages w ->
  next_id w' = N.succ (next_id w) ->
  healthy w'.
Proof.
  intros [Hok Hagree] Hid Hcnt Hcs Hms Hnext.
  pose proof (no_message_of_fresh_id w Hok) as Hnone.
  destruct Hok as [Hkeys Hfresh].
  split; [split|].
  - intros id' c1 Hlook. rewrite Hcs in Hlook. rewrite Hnext.
    destruct (decide (next_id w = id')) as [<-|Hne].
    + rewrite lookup_insert_eq in Hlook. injection Hlook as <-. split; [done|lia].
    + rewrite lookup_insert_ne in Hlook by done. apply Hkeys in Hlook as [? ?].
      split; [done|lia].
  - intros m Hm. rewrite Hms in Hm. rewrite Hnext. apply Hfresh in Hm. lia.
  - intros id' c1 Hlook. rewrite Hcs in Hlook. unfold stored_count. rewrite Hms.
    destruct (decide (next_id w = id')) as [<-|Hne].
    + rewrite lookup_insert_eq in Hlook. injection Hlook as <-.
      by rewrite Hcnt, Hnone.
    + rewrite lookup_insert_ne in Hlook by done. by apply Hagree.
Qed.

Lemma filter_other_conversation (ms : list Message.t) id id' :
  id <> id' ->
  filter (fun m => Message.conversation_id m = id')
    (filter (fun m => Message.conversation_id m <> id) ms)
  = filter (fun m => Message.conversation_id m = id') ms.
Proof.
  intros Hne. induction ms as [|m ms IH]; [done|].
  rewrite !filter_cons.
  destruct (decide (Message.conversation_id m <> id)) as [Hm|Hm].
  - rewrite filter_cons. destruct (decide _); by rewrite IH.
  - rewrite IH. destruct (decide (Message.conversation_id m = id')) as [He|]; [|done].
    exfalso. apply Hm. congruence.
Qed.

(** Deleting a conversation with its messages. *)
Lemma healthy_delete w w' id :
  healthy w ->
  conversations w' = delete id (conversations w) ->
  messages w' = filter (fun m => Message.conversation_id m <> id) (messages w) ->
  next_id w' = next_id w ->
  healthy w'.
Proof.
  intros [[Hkeys Hfresh] Hagree] Hcs Hms Hnext.
  split; [split|].
  - intros id' c1 Hlook. rewrite Hcs in Hlook. rewrite Hnext.
    apply lookup_delete_Some in Hlook as [_ Hlook]. by apply Hkeys.
  - intros m Hm. rewrite Hms in Hm. rewrite Hnext.
    apply list_elem_of_filter in Hm as [_ Hm]. by apply Hfresh.
  - intros id' c1 Hlook. rewrite Hcs in Hlook.
    apply lookup_delete_Some in Hlook as [Hne Hlook].
    unfold stored_count. rewrite Hms, filter_other_conversation by done.
    by apply Hagree.
Qed.

(** ** [create_conversation] and [delete_conversation] *)

Lemma create_conversation_ok env title cfg uid w :
  store_fails env (store_calls w) = false ->
  let c := Conversation.init uid
             (Some match title with Some (ch :: s) => ch :: s | _ => lit "New Conversation" end)
             cfg (clock env (clock_reads w)) (clock env (S (clock_reads w))) (next_id w) in
  exists w',
    create_conversation env title cfg uid w
    = (inl (HTTPException 500 (lit "Failed to create conversation")), w') /\
    conversations w' = <[next_id w := c]> (conversations w) /\
    messages w' = messages w /\
    next_id w' = N.succ (next_id w).
Proof.
  intros Hok. eexists.
  unfold create_conversation, try_except, bind, utcnow, Conversation_insert, store_call, ret.
  cbn -[ConversationResponse_of]. rewrite Hok. cbn -[ConversationResponse_of].
  rewrite ConversationResponse_of_raises. done.
Qed.




Lemma delete_conversation_ok env s uid id c w :
  reliable env ->
  ObjectId_of_str s = Some id ->
  conversations w !! id = Some c ->
  Conversation.id c = id ->
  Conversation.user_id c = uid ->
  exists w',
    delete_conversation env s uid w = (inr tt, w') /\
    conversations w' = delete id (conversations w) /\
    messages w' = filter (fun m => Message.conversation_id m <> id) (messages w) /\
    next_id w' = next_id w.
Proof.
  intros Hrel Hid Hc Hkey Hown. eexists.
  unfold delete_conversation, http_errors, try_except, bind.
  rewrite (get_owned_owned env _ _ _ _ w Hid (Hrel _) Hc Hown).
  unfold Message_delete_many, Conversation_delete.
  rewrite store_call_reliable by done. simpl.
  rewrite store_call_reliable by done. simpl. rewrite Hkey. done.
Qed.

(** X8: [delete_conversation] on the caller's conversation removes it and
    every message that refers to it, and nothing else: the other
    conversations and the messages of the other conversations stay, in
    their order; a healthy store stays healthy. *)
Theorem delete_conversation_cascades env conversation_id current_user_id id c w :
  reliable env ->
  ObjectId_of_str conversation_id = Some id ->
  conversations w !! id = Some c ->
  Conversation.id c = id ->
  Conversation.user_id c = current_user_id ->
  exists w',
    delete_conversation env conversation_id current_user_id w = (inr tt, w') /\
    conversations w' !! id = None /\
    (forall id', id' <> id -> conversations w' !! id' = conversations w !! id') /\
    (forall m, m ∈ messages w' -> Message.conversation_id m <> id) /\
    (forall id', id' <> id ->
       filter (fun m => Message.conversation_id m = id') (messages w')
       = filter (fun m => Message.conversation_id m = id') (messages w)) /\
    (healthy w -> healthy w').
Proof.
  intros Hrel Hid Hc Hkey Hown.
  destruct (delete_conversation_ok env _ _ _ _ w Hrel Hid Hc Hkey Hown)
    as (w' & Hrun & Hcs & Hms & Hnext).
  exists w'. split; [exact Hrun|].
  split; [by rewrite Hcs, lookup_delete_eq|].
  split; [intros id' Hne; by rewrite Hcs, lookup_delete_ne|].
  split; [intros m Hm; rewrite Hms in Hm; apply list_elem_of_filter in Hm; tauto|].
  split; [intros id' Hne; rewrite Hms; by apply filter_other_conversation|].
  intros Hh. by eapply healthy_delete.
Qed.

Lemma delete_conversation_cascades_witness :
  exists w',
    delete_conversation echo_env id_one 7%N short_window_world = (inr tt, w') /\
    conversations w' !! 1%N = None /\
    (forall id', id' <> 1%N ->
                 conversations w' !! id' = conversations short_window_world !! id') /\
    (forall m, m ∈ messages w' -> Message.conversation_id m <> 1%N) /\
    (forall id', id' <> 1%N ->
       filter (fun m => Message.conversation_id m = id') (messages w')
       = filter (fun m => Message.conversation_id m = id') (messages short_window_world)) /\
    (healthy short_window_world -> healthy w').
Proof.
  apply (delete_conversation_cascades echo_env id_one 7%N 1%N short_window_conversation
           short_window_world).
  - intros n. reflexivity.
  - reflexivity.
  - reflexivity.
  - reflexivity.
  - reflexivity.
Defined.

(** X9: [delete_conversation] is not atomic.  When the delete of the
    conversation raises after the messages have been deleted, the handler
    answers 500, the messages are gone and the conversation is still
    stored, with the counter it had: if it counted any message, the counter
    no longer agrees with the store. *)
Theorem delete_conversation_interrupted env conversation_id current_user_id id c w :
  store_fails env (store_calls w) = false ->
  store_fails env (S (store_calls w)) = false ->
  store_fails env (S (S (store_calls w))) = true ->
  ObjectId_of_str conversation_id = Some id ->
  conversations w !! id = Some c ->
  Conversation.user_id c = current_user_id ->
  exists w',
    delete_conversation env conversation_id current_user_id w
    = (inl (HTTPException 500 (lit "Failed to delete conversation")), w') /\
    conversations w' = conversations w /\
    messages w' = filter (fun m => Message.conversation_id m <> id) (messages w) /\
    stored_count id w' = 0 /\
    (0 < Conversation.message_count c -> ~ counts_agree w').
Proof.
  intros H0 H1 H2 Hid Hc Hown. eexists.
  unfold delete_conversation, http_errors, try_except, bind.
  rewrite (get_owned_owned env _ _ _ _ w Hid H0 Hc Hown).
  unfold Message_delete_many, Conversation_delete, store_call. simpl.
  rewrite H1. simpl. rewrite H2. simpl.
  split; [reflexivity|]. split; [done|]. split; [done|].
  assert (Hzero : stored_count id
                    (count_store_call
                       (set_messages
                          (filter (fun m => Message.conversation_id m <> id) (messages w))
                          (count_store_call (count_store_call w)))) = 0).
  { unfold stored_count, len. simpl.
    destruct (filter _ (filter _ (messages w))) as [|m ms] eqn:Hf; [done|].
    assert (Hm : m ∈ filter (fun m => Message.conversation_id m = id)
                       (filter (fun m => Message.conversation_id m <> id) (messages w)))
      by (rewrite Hf; apply list_elem_of_here).
    apply list_elem_of_filter in Hm as [Hm1 Hm2].
    apply list_elem_of_filter in Hm2 as [Hm2 _]. done. }
  split; [exact Hzero|].
  intros Hpos Hagree. specialize (Hagree id c Hc). rewrite Hzero in Hagree. lia.
Qed.

Lemma delete_conversation_interrupted_witness :
  exists w',
    delete_conversation delete_fault_env id_one 7%N short_window_world
    = (inl (HTTPException 500 (lit "Failed to delete conversation")), w') /\
    conversations w' = conversations short_window_world /\
    messages w'
    = filter (fun m => Message.conversation_id m <> 1%N) (messages short_window_world) /\
    stored_count 1%N w' = 0 /\
    (0 < Conversation.message_count short_window_conversation -> ~ counts_agree w').
Proof.
  apply (delete_conversation_interrupted delete_fault_env id_one 7%N 1%N
           short_window_conversation short_window_world).
  - reflexivity.
  - reflexivity.
  - reflexivity.
  - reflexivity.
  - reflexivity.
  - reflexivity.
Defined.



(** ** What a turn leaves in the store *)

Lemma short_window_world_healthy : healthy short_window_world.
Proof.
  split; [split|].
  - intros id c Hc. unfold short_window_world, store_of in Hc. cbn [conversations] in Hc.
    apply lookup_singleton_Some in Hc as [<- <-]. simpl. lia.
  - intros m Hm. simpl in Hm.
    repeat (apply elem_of_cons in Hm as [->|Hm]; [simpl; lia|]).
    by apply elem_of_nil in Hm.
  - intros id c Hc. unfold short_window_world, store_of in Hc. cbn [conversations] in Hc.
    apply lookup_singleton_Some in Hc as [<- <-]. reflexivity.
Qed.

Lemma add_message_inr_self env self content message_type status w message self' w' :
  add_message env self content message_type status w = (inr (message, self'), w') ->
  self' = Conversation.set_updated_at (clock env (S (clock_reads w)))
            (Conversation.set_message_count (Conversation.message_count self + 1) self).
Proof.
  unfold add_message, update_timestamp. intros H.
  apply bind_inr_inv in H as (now & w1 & Hnow & H).
  apply utcnow_inv in Hnow as [[= ->] ->].
  apply bind_inr_inv in H as (m & w2 & Hins & H).
  apply Message_insert_inr_inv in Hins as (-> & _ & _ & _ & Hclk & _).
  apply bind_inr_inv in H as (self1 & w3 & Hts & H).
  apply bind_inr_inv in Hts as (now' & w3' & Hnow' & Hts).
  apply utcnow_inv in Hnow' as [[= Hn] ->].
  injection Hts as <- <-.
  apply bind_inr_inv in H as ([] & w4 & Hsave & H).
  injection H as <- <- <-.
  rewrite Hn, Hclk. reflexivity.
Qed.

Lemma open_turn_same env cid um uid w conversation user_msg ai_msg w3 c0 w0 :
  open_turn env cid um uid w = (inr (conversation, user_msg, ai_msg), w3) ->
  _get_or_create_conversation env cid uid w = (inr c0, w0) ->
  same_but_count_and_time c0 conversation.
Proof.
  unfold open_turn. intros H Hget.
  apply bind_inr_inv in H as (c0' & w0' & Hc0 & H).
  rewrite Hget in Hc0. injection Hc0 as <- <-.
  apply bind_inr_inv in H as ([um' c1] & w1 & Hum & H).
  apply bind_inr_inv in H as ([am' c2] & w2 & Ham & H).
  injection H as <- <- <- <-.
  apply add_message_inr_self in Hum as ->.
  apply add_message_inr_self in Ham as ->.
  by repeat split.
Qed.

(** X11: when [process_user_message] returns, the store holds exactly two
    messages more, after those it held: the user's message with the text of
    the call, COMPLETED, and the assistant's message with the text and the
    metadata of the reply, COMPLETED; the three ids of the reply are those
    of the conversation and of these two messages.  Only the conversation of
    the reply is written: it is the caller's, and apart from its counter and
    [updated_at] it is as it was resolved or created; [total_tokens_used]
    in particular does not change, and neither does the status, so an
    archived conversation takes the turn and stays archived. *)
Theorem turn_recorded_as_replied env conversation_id user_message user_id w reply w' :
  store_ok w ->
  process_user_message env conversation_id user_message user_id w = (inr reply, w') ->
  exists c0 final user_msg ai_msg,
    (resolves conversation_id user_id w c0 \/
     (forall c, ~ resolves conversation_id user_id w c) /\
     c0 = new_conversation env user_id w) /\
    messages w' = messages w ++ [user_msg; ai_msg] /\
    (forall id, id <> reply_conversation_id reply ->
                conversations w' !! id = conversations w !! id) /\
    conversations w' !! reply_conversation_id reply = Some final /\
    Message.id user_msg = reply_user_message_id reply /\
    Message.id ai_msg = reply_ai_message_id reply /\
    Message.conversation_id user_msg = reply_conversation_id reply /\
    Message.conversation_id ai_msg = reply_conversation_id reply /\
    Message.content user_msg = user_message /\
    Message.message_type user_msg = MessageType.USER /\
    Message.status user_msg = MessageStatus.COMPLETED /\
    Message.content ai_msg = reply_response reply /\
    Message.message_type ai_msg = MessageType.ASSISTANT /\
    Message.status ai_msg = MessageStatus.COMPLETED /\
    Message.metadata ai_msg = reply_metadata reply /\
    Conversation.user_id final = user_id /\
    Conversation.message_count final = Conversation.message_count c0 + 2 /\
    same_but_count_and_time c0 final.
Proof.
  intros Hok Hrun.
  destruct (process_inr_store _ _ _ _ _ _ _ Hok Hrun)
    as (c0 & final & user_msg & ai_msg & first_id & Hcase & Hid & Hcnt & Hcu & Hca
        & Hiu & Hia & Hms & Hcs & Hnext).
  apply process_inr_inv in Hrun
    as (conversation & um' & am' & w3 & text & md & w5 & Hopen & Hgen & Hclose).
  pose proof Hopen as Hopen'.
  apply open_turn_inr_inv in Hopen'
    as (c0' & w0 & c1 & Hget & Hum & Ham & Hms3 & Hid3 & _ & _ & _ & Hcs3 & _).
  pose proof (open_turn_same _ _ _ _ _ _ _ _ _ _ _ Hopen Hget) as Hsame.
  pose proof Hget as Hget'. apply get_or_create_inr_inv in Hget' as [_ Hcase'].
  apply generate_turn_inv in Hgen as [(n & [=] & _)|(Hms5 & Hcs5 & _ & Hgen)].
  simpl in Hgen. destruct Hgen as [_ Hgen].
  destruct (pipeline _ _ _ _) as [msg|[text' secs]]; [discriminate|].
  destruct Hgen as (md' & [= <- <-] & _ & Htok).
  apply close_turn_inr_inv in Hclose as (Hms' & Hcs' & _ & _ & ->); [|done]. simpl.
  assert (Hc0 : c0' = c0).
  { destruct Hcase as [[Hr _]|(Hnone & Hnew & _)];
      destruct Hcase' as [(Hr' & _)|(Hnone' & Hnew' & _)].
    - destruct Hr as (id & Hi & Hl & _), Hr' as (id' & Hi' & Hl' & _). congruence.
    - exfalso. by eapply Hnone'.
    - exfalso. by eapply Hnone.
    - congruence. }
  subst c0'.
  assert (Hlast : [user_msg; ai_msg] = [um'; Message.complete am' text md]).
  { rewrite Hms', Hms5, Hms3 in Hms.
    destruct Hok as [_ Hfresh].
    change (messages w ++ [um'; am']) with (messages w ++ [um'] ++ [am']) in Hms.
    rewrite app_assoc, replace_message_fresh in Hms.
    - rewrite <- app_assoc in Hms. by apply app_inv_head in Hms.
    - intros m Hm. apply elem_of_app in Hm as [Hm|Hm].
      + apply Hfresh in Hm as [Hm _]. subst am'. simpl.
        destruct Hcase' as [(_ & _ & Hn & _)|(_ & _ & _ & Hn & _)]; rewrite Hn; lia.
      + apply list_elem_of_singleton in Hm as ->. subst um' am'. simpl. lia.
    - done. }
  injection Hlast as -> ->.
  exists c0,
    (Conversation.set_total_tokens_used
       (Conversation.total_tokens_used conversation + 0) conversation),
    um', (Message.complete am' text md).
  split.
  { destruct Hcase as [[Hr _]|(Hnone & Hnew & _)]; [by left|by right]. }
  split; [done|].
  destruct Hsame as (Hs1 & Hs2 & Hs3 & Hs4 & Hs5 & Hs6 & Hs7 & Hs8 & Hs9).
  split.
  { intros id Hne. rewrite Hcs. rewrite lookup_insert_ne; [done|]. congruence. }
  split.
  { rewrite Hcs', lookup_insert_eq. done. }
  split; [done|]. split; [done|].
  split; [by subst um'; simpl|]. split; [by subst am'; simpl|].
  split; [by subst um'|]. split; [by subst um'|]. split; [by subst um'|].
  split; [done|]. split; [by subst am'|]. split; [done|]. split; [done|].
  split.
  { simpl. rewrite Hs2.
    destruct Hcase as [[(id & _ & _ & Hu) _]|(_ & -> & _)]; done. }
  split.
  { simpl. apply open_turn_inr_inv in Hopen
      as (c0'' & w0'' & c1'' & Hget'' & _ & _ & _ & _ & _ & _ & Hcnt'' & _).
    rewrite Hget in Hget''. by injection Hget'' as <- <-. }
  repeat split; simpl; try done. lia.
Qed.

Lemma turn_recorded_as_replied_witness :
  exists reply w' c0 final user_msg ai_msg,
    process_user_message echo_env (Some 1%N) (lit "Hello") 7%N archived_world
    = (inr reply, w') /\
    (resolves (Some 1%N) 7%N archived_world c0 \/
     (forall c, ~ resolves (Some 1%N) 7%N archived_world c) /\
     c0 = new_conversation echo_env 7%N archived_world) /\
    messages w' = messages archived_world ++ [user_msg; ai_msg] /\
    (forall id, id <> reply_conversation_id reply ->
                conversations w' !! id = conversations archived_world !! id) /\
    conversations w' !! reply_conversation_id reply = Some final /\
    Message.id user_msg = reply_user_message_id reply /\
    Message.id ai_msg = reply_ai_message_id reply /\
    Message.conversation_id user_msg = reply_conversation_id reply /\
    Message.conversation_id ai_msg = reply_conversation_id reply /\
    Message.content user_msg = lit "Hello" /\
    Message.message_type user_msg = MessageType.USER /\
    Message.status user_msg = MessageStatus.COMPLETED /\
    Message.content ai_msg = reply_response reply /\
    Message.message_type ai_msg = MessageType.ASSISTANT /\
    Message.status ai_msg = MessageStatus.COMPLETED /\
    Message.metadata ai_msg = reply_metadata reply /\
    Conversation.user_id final = 7%N /\
    Conversation.message_count final = Conversation.message_count c0 + 2 /\
    same_but_count_and_time c0 final.
Proof.
  destruct (process_user_message echo_env (Some 1%N) (lit "Hello") 7%N archived_world)
    as [[e|reply] w'] eqn:Hrun.
  - vm_compute in Hrun. discriminate.
  - exists reply, w'.
    destruct (turn_recorded_as_replied echo_env (Some 1%N) (lit "Hello") 7%N
                archived_world reply w') as (c0 & final & user_msg & ai_msg & H);
      [|exact Hrun|by exists c0, final, user_msg, ai_msg].
    split.
    + intros id c Hc. unfold archived_world, store_of in Hc. cbn [conversations] in Hc.
      apply lookup_singleton_Some in Hc as [<- <-]. simpl. lia.
    + intros m Hm. by apply elem_of_nil in Hm.
Defined.

(** The turn on the archived conversation: the reply names it, it has the
    two messages, and it is still archived. *)
Example archived_conversation_takes_turn :
  exists reply w' final,
    process_user_message echo_env (Some 1%N) (lit "Hello") 7%N archived_world
    = (inr reply, w') /\
    reply_conversation_id reply = 1%N /\
    conversations w' !! 1%N = Some final /\
    Conversation.status final = ConversationStatus.ARCHIVED /\
    Conversation.message_count final = 2 /\
    (Message.conversation_id <$> messages w') = [1%N; 1%N].
Proof.
  do 3 eexists. split; [vm_compute; reflexivity|]. by vm_compute.
Qed.

Lemma placeholder_fault_run env id user_message user_id c w :
  (forall k, (k < 4)%nat -> store_fails env (k + store_calls w) = false) ->
  store_fails env (4 + store_calls w) = true ->
  conversations w !! id = Some c ->
  Conversation.id c = id ->
  Conversation.user_id c = user_id ->
  let user_msg := Message.init id user_message MessageType.USER None
                    (clock env (clock_reads w)) (next_id w) in
  let ai_msg := Message.init id [] MessageType.ASSISTANT (Some MessageStatus.PROCESSING)
                  (clock env (S (S (clock_reads w)))) (N.succ (next_id w)) in
  let c' := Conversation.set_updated_at (clock env (S (clock_reads w)))
              (Conversation.set_message_count (Conversation.message_count c + 1) c) in
  exists w',
    process_user_message env (Some id) user_message user_id w
    = (inl (StoreError (4 + store_calls w)), w') /\
    messages w' = messages w ++ [user_msg; ai_msg] /\
    conversations w' = <[id := c']> (conversations w) /\
    journal w' = journal w ++ [MessageInserted user_msg; ConversationSaved c';
                               MessageInserted ai_msg].
Proof.
  intros Hok Hfail Hc Hkey Hown.
  pose proof (Hok 0%nat ltac:(lia)) as H0. pose proof (Hok 1%nat ltac:(lia)) as H1.
  pose proof (Hok 2%nat ltac:(lia)) as H2. pose proof (Hok 3%nat ltac:(lia)) as H3.
  simpl in H0, H1, H2, H3, Hfail.
  eexists.
  unfold process_user_message, try_except, open_turn, bind, _get_or_create_conversation,
    bind, Conversation_get, add_message, update_timestamp, bind, utcnow, Message_insert,
    Conversation_save, store_call, ret, raise.
  simpl. rewrite H0. simpl. rewrite Hc.
  destruct (decide (Conversation.user_id c = user_id)) as [_|Hne]; [|done].
  simpl. rewrite H1. simpl. rewrite H2. simpl. rewrite H3. simpl. rewrite Hfail. simpl.
  rewrite Hkey.
  split; [reflexivity|]. simpl.
  split; [by rewrite <- app_assoc|]. split; [done|]. by rewrite <- !app_assoc.
Qed.

(** X12: [add_message] inserts the message before it saves the counter, and
    the handler of [process_user_message] can mark only a placeholder that
    has been bound.  When the save of the conversation in the second
    [add_message] raises, the call raises that error with both messages
    stored, the placeholder in PROCESSING for good (no message is saved
    afterwards), and the stored conversation counting one message of the
    two: a counter that agreed with the store no longer does. *)
Theorem placeholder_left_processing env id user_message user_id c w :
  (forall k, (k < 4)%nat -> store_fails env (k + store_calls w) = false) ->
  store_fails env (4 + store_calls w) = true ->
  conversations w !! id = Some c ->
  Conversation.id c = id ->
  Conversation.user_id c = user_id ->
  exists user_msg ai_msg c' w',
    process_user_message env (Some id) user_message user_id w
    = (inl (StoreError (4 + store_calls w)), w') /\
    messages w' = messages w ++ [user_msg; ai_msg] /\
    Message.conversation_id user_msg = id /\
    Message.conversation_id ai_msg = id /\
    Message.message_type ai_msg = MessageType.ASSISTANT /\
    Message.status ai_msg = MessageStatus.PROCESSING /\
    message_writes (journal w')
    = message_writes (journal w)
      ++ [(Message.id user_msg, MessageType.USER, MessageStatus.COMPLETED);
          (Message.id ai_msg, MessageType.ASSISTANT, MessageStatus.PROCESSING)] /\
    conversations w' = <[id := c']> (conversations w) /\
    Conversation.message_count c' = Conversation.message_count c + 1 /\
    stored_count id w' = stored_count id w + 2 /\
    (counts_agree w -> ~ counts_agree w').
Proof.
  intros Hok Hfail Hc Hkey Hown.
  destruct (placeholder_fault_run env id user_message user_id c w Hok Hfail Hc Hkey Hown)
    as (w' & Hrun & Hms & Hcs & Hj).
  eexists _, _, _, w'. split; [exact Hrun|]. split; [exact Hms|].
  split; [done|]. split; [done|]. split; [done|]. split; [done|].
  split.
  { rewrite Hj. unfold message_writes. by rewrite omap_app. }
  split; [exact Hcs|]. split; [done|].
  assert (Hcount : stored_count id w' = stored_count id w + 2).
  { unfold stored_count. rewrite Hms, count_after_turn. simpl.
    rewrite !decide_True by done. lia. }
  split; [exact Hcount|].
  intros Hagree Hagree'.
  specialize (Hagree _ _ Hc).
  specialize (Hagree' id). rewrite Hcs, lookup_insert_eq in Hagree'.
  specialize (Hagree' _ eq_refl).
  rewrite Hcount in Hagree'. simpl in Hagree'. lia.
Qed.

Lemma placeholder_left_processing_witness :
  exists user_msg ai_msg c' w',
    process_user_message placeholder_fault_env (Some 1%N) (lit "Hello") 7%N
      short_window_world
    = (inl (StoreError (4 + store_calls short_window_world)), w') /\
    messages w' = messages short_window_world ++ [user_msg; ai_msg] /\
    Message.conversation_id user_msg = 1%N /\
    Message.conversation_id ai_msg = 1%N /\
    Message.message_type ai_msg = MessageType.ASSISTANT /\
    Message.status ai_msg = MessageStatus.PROCESSING /\
    message_writes (journal w')
    = message_writes (journal short_window_world)
      ++ [(Message.id user_msg, MessageType.USER, MessageStatus.COMPLETED);
          (Message.id ai_msg, MessageType.ASSISTANT, MessageStatus.PROCESSING)] /\
    conversations w' = <[1%N := c']> (conversations short_window_world) /\
    Conversation.message_count c'
    = Conversation.message_count short_window_conversation + 1 /\
    stored_count 1%N w' = stored_count 1%N short_window_world + 2 /\
    (counts_agree short_window_world -> ~ counts_agree w').
Proof.
  apply (placeholder_left_processing placeholder_fault_env 1%N (lit "Hello") 7%N
           short_window_conversation short_window_world).
  - intros k Hk. simpl. do 4 (destruct k as [|k]; [reflexivity|]). lia.
  - reflexivity.
  - reflexivity.
  - reflexivity.
  - reflexivity.
Defined.

(** ** The prompt *)

Lemma format_turn_app (acc : pystr) (t : Turn.t) :
  format_turn acc t = acc ++ format_turn [] t.
Proof.
  unfold format_turn.
  destruct (String.eqb (Turn.role t) "user"); [done|].
  destruct (String.eqb (Turn.role t) "assistant"); [done|].
  by rewrite app_nil_r.
Qed.

Lemma fold_format_turn (l : list Turn.t) (acc : pystr) :
  fold_left format_turn l acc = acc ++ concat (format_turn [] <$> l).
Proof.
  revert acc. induction l as [|t l IH]; intros acc.
  - simpl. by rewrite app_nil_r.
  - cbn [fold_left fmap list_fmap concat]. rewrite IH, (format_turn_app acc t).
    by rewrite <- app_assoc.
Qed.

Lemma format_window st k :
  1 <= k ->
  50 * (k - 1) < Settings.max_tokens st <= 50 * k ->
  floordiv (- Settings.max_tokens st) 50 = - k.
Proof.
  intros Hk Hm. unfold floordiv. symmetry.
  apply (Z.div_unique _ _ _ (- Settings.max_tokens st + 50 * k)); lia.
Qed.

Lemma format_conversation_drop st k (history : list Turn.t) :
  1 <= k ->
  50 * (k - 1) < Settings.max_tokens st <= 50 * k ->
  _format_conversation st history
  = concat (format_turn [] <$> drop (length history - Z.to_nat k) history)
    ++ lit "Assistant: ".
Proof.
  intros Hk Hm. unfold _format_conversation. rewrite (format_window st k Hk Hm).
  rewrite fold_format_turn. simpl. f_equal. f_equal. f_equal.
  unfold slice_from. destruct (- k <? 0) eqn:Hneg; [|lia].
  f_equal. lia.
Qed.

(** X13: [_format_conversation] reads only the end of the history.  With
    [max_tokens] between [50 (k - 1) + 1] and [50 k] the slice
    [[-max_tokens//50:]] keeps the last [k] turns (11 for the default 512):
    the prompt is the lines of these turns, oldest first, followed by
    "Assistant: "; turns before them do not change it, and a history of at
    most [k] turns is used whole. *)
Theorem format_conversation_window st k :
  1 <= k ->
  50 * (k - 1) < Settings.max_tokens st <= 50 * k ->
  (forall history,
     _format_conversation st history
     = concat (format_turn [] <$> drop (length history - Z.to_nat k) history)
       ++ lit "Assistant: ") /\
  (forall older recent,
     len recent = k ->
     _format_conversation st (older ++ recent) = _format_conversation st recent) /\
  (forall history,
     len history <= k ->
     _format_conversation st history
     = concat (format_turn [] <$> history) ++ lit "Assistant: ").
Proof.
  intros Hk Hm. split; [|split].
  - intros history. by apply format_conversation_drop.
  - intros older recent Hlen. unfold len in Hlen.
    rewrite !(format_conversation_drop st k) by done.
    rewrite length_app.
    replace (length older + length recent - Z.to_nat k)%nat with (length older) by lia.
    replace (length recent - Z.to_nat k)%nat with 0%nat by lia.
    by rewrite drop_app_length.
  - intros history Hlen. unfold len in Hlen.
    rewrite (format_conversation_drop st k) by done.
    replace (length history - Z.to_nat k)%nat with 0%nat by lia.
    done.
Qed.

Lemma format_conversation_window_witness :
  (forall history,
     _format_conversation settings history
     = concat (format_turn [] <$> drop (length history - Z.to_nat 11) history)
       ++ lit "Assistant: ") /\
  (forall older recent,
     len recent = 11 ->
     _format_conversation settings (older ++ recent) = _format_conversation settings recent) /\
  (forall history,
     len history <= 11 ->
     _format_conversation settings history
     = concat (format_turn [] <$> history) ++ lit "Assistant: ").
Proof.
  apply (format_conversation_window settings 11).
  - lia.
  - simpl. lia.
Defined.

(** Of twelve turns the oldest is not in the prompt. *)
Example twelve_turns_prompt :
  _format_conversation settings twelve_turns
  = _format_conversation settings (drop 1 twelve_turns) /\
  _format_conversation settings (take 2 twelve_turns)
  = lit "Human: 0" ++ [10%N] ++ lit "Assistant: 1" ++ [10%N] ++ lit "Assistant: ".
Proof. split; reflexivity. Qed.

Lemma prompts_of_no_pipeline_call (j : list Event) :
  pipeline_calls j = [] -> prompts j = [].
Proof.
  unfold pipeline_calls, prompts. induction j as [|e j IH]; [done|].
  destruct e; csimpl; try done; apply IH.
Qed.

Lemma format_conversation_last st (l : list Turn.t) (t : Turn.t) :
  0 <= Settings.max_tokens st ->
  exists before,
    _format_conversation st (l ++ [t]) = before ++ format_turn [] t ++ lit "Assistant: ".
Proof.
  intros Hm. unfold _format_conversation.
  assert (Hk : floordiv (- Settings.max_tokens st) 50 <= 0).
  { unfold floordiv. apply Z.div_le_upper_bound; lia. }
  assert (Hdrop : exists j, (j <= length l)%nat /\
            slice_from (l ++ [t]) (floordiv (- Settings.max_tokens st) 50)
            = drop j (l ++ [t])).
  { unfold slice_from. eexists. split; [|reflexivity].
    rewrite length_app. simpl.
    destruct (_ <? 0) eqn:Hneg; lia. }
  destruct Hdrop as (j & Hj & ->).
  rewrite drop_app_le by done.
  rewrite fold_format_turn, fmap_app, concat_app. simpl.
  exists (concat (format_turn [] <$> drop j l)).
  by rewrite app_nil_r, <- app_assoc.
Qed.

(** X14: in a turn on a conversation whose window is at least 2, with a
    store that does not raise, a clock that advances and [max_tokens] not
    negative, the pipeline is called exactly once, and its prompt ends with
    the line of the message just sent, "Human: <user_message>", followed by
    the cue "Assistant: ". *)
Theorem prompt_ends_with_user_line env conversation_id user_message user_id w :
  reliable env ->
  (forall i j, (i < j)%nat -> clock env i < clock env j) ->
  (forall m, m ∈ messages w -> Message.timestamp m < clock env (clock_reads w)) ->
  (forall c0, resolves conversation_id user_id w c0 ->
              2 <= Conversation.context_window c0) ->
  0 <= Settings.max_tokens (env_settings env) ->
  exists r w' delta before,
    process_user_message env conversation_id user_message user_id w = (r, w') /\
    journal w' = journal w ++ delta /\
    prompts delta
    = [before ++ (lit "Human: " ++ user_message ++ [10%N]) ++ lit "Assistant: "].
Proof.
  intros Hrel Hclock Hpast Hwindow Htokens.
  destruct (process_reliable_trace env conversation_id user_message user_id w Hrel)
    as (conversation & user_msg & ai_msg & w3 & r & w' & final & tail
        & Hopen & Hres & Hj & _ & _ & Htail & _).
  apply open_turn_inr_inv in Hopen
    as (c0 & w0 & c1 & Hc0 & Hum & Ham & Hms3 & Hid & Hcw & _ & _ & _ & _ & Hj3).
  destruct (get_or_create_calls _ _ _ _ _ _ Hc0) as (pre & Hj0 & _ & _ & Hpre & Hclk).
  assert (HW : 2 <= Conversation.context_window conversation).
  { rewrite Hcw. apply get_or_create_inr_inv in Hc0 as [_ [(Hr & _)|(_ & -> & _)]];
      [by apply Hwindow|simpl; lia]. }
  destruct (context_after_turn conversation w3 (messages w) user_msg ai_msg)
    as (earlier & Hsrcs & Hearlier); try done.
  { by subst user_msg. }
  { by subst ai_msg. }
  { apply Forall_forall. intros m Hm. apply Hpast in Hm. subst user_msg. simpl.
    pose proof (clock_monotone env _ _ Hclock Hclk). lia. }
  { subst user_msg ai_msg. simpl. apply Hclock. lia. }
  { by subst user_msg. }
  { by subst ai_msg. }
  simpl in Hj. rewrite Hsrcs, fmap_app in Hj. simpl in Hj.
  destruct (format_conversation_last (env_settings env) (turn_of <$> earlier)
              (turn_of user_msg) Htokens) as (before & Hprompt).
  rewrite Hprompt in Hj.
  assert (Hline : format_turn [] (turn_of user_msg)
                  = lit "Human: " ++ user_message ++ [10%N]) by (by subst user_msg).
  rewrite Hline in Hj.
  exists r, w'. eexists. exists before.
  split; [exact Hres|].
  split; [rewrite Hj, Hj3, Hj0, <- !app_assoc; reflexivity|].
  unfold prompts. rewrite !omap_app.
  apply prompts_of_no_pipeline_call in Hpre, Htail. unfold prompts in Hpre, Htail.
  rewrite Hpre. csimpl. rewrite Htail. f_equal. f_equal.
  by rewrite <- !app_assoc.
Qed.

Lemma prompt_ends_with_user_line_witness :
  exists r w' delta before,
    process_user_message echo_env (Some 1%N) (lit "Hello") 7%N short_window_world = (r, w') /\
    journal w' = journal short_window_world ++ delta /\
    prompts delta
    = [before ++ (lit "Human: " ++ lit "Hello" ++ [10%N]) ++ lit "Assistant: "].
Proof.
  apply (prompt_ends_with_user_line echo_env (Some 1%N) (lit "Hello") 7%N short_window_world).
  - intros n. reflexivity.
  - intros i j Hij. simpl. lia.
  - intros m Hm. simpl in Hm.
    repeat (apply elem_of_cons in Hm as [->|Hm]; [simpl; lia|]).
    by apply elem_of_nil in Hm.
  - intros c0 (id & [= <-] & Hc & _).
    unfold short_window_world, store_of in Hc. cbn [conversations] in Hc.
    apply lookup_singleton_Some in Hc as [_ <-]. simpl. lia.
  - simpl. lia.
Defined.

(** ** [send_message] and [get_conversation] *)

(** X15: [send_message] answers every failure with the same 500.  A
    conversation id that is not an ObjectId does not give the 400 of
    [get_object_id]: the call raises 500 "Failed to process message" before
    any access to the store, and leaves the world as it was; and whatever
    else is raised under it, by the store or by the model, reaches the
    client as that same exception. *)
Theorem send_message_masks_errors env message conversation_id current_user_id w :
  conversation_id <> [] ->
  ObjectId_of_str conversation_id = None ->
  send_message env message (Some conversation_id) current_user_id w
  = (inl (HTTPException 500 (lit "Failed to process message")), w) /\
  (forall request_conversation_id w0 e w',
     send_message env message request_conversation_id current_user_id w0 = (inl e, w') ->
     e = HTTPException 500 (lit "Failed to process message")).
Proof.
  intros Hne Hbad. split.
  - unfold send_message, try_except, bind, get_object_id.
    destruct conversation_id as [|ch s]; [done|]. by rewrite Hbad.
  - intros rid w0 e w'. unfold send_message, try_except.
    match goal with
    | |- context [match ?c w0 with _ => _ end] => destruct (c w0) as [[e0|a] w1]
    end; unfold raise; congruence.
Qed.

Lemma send_message_masks_errors_witness :
  send_message echo_env (lit "Hello") (Some (lit "not-an-id")) 7%N short_window_world
  = (inl (HTTPException 500 (lit "Failed to process message")), short_window_world) /\
  (forall request_conversation_id w0 e w',
     send_message echo_env (lit "Hello") request_conversation_id 7%N w0 = (inl e, w') ->
     e = HTTPException 500 (lit "Failed to process message")).
Proof.
  apply (send_message_masks_errors echo_env (lit "Hello") (lit "not-an-id") 7%N
           short_window_world).
  - discriminate.
  - reflexivity.
Defined.

(** X16: [get_conversation] builds its answer from [MessageResponse] and
    [ConversationResponse], document classes that [init_beanie] is not
    given, inside its [try]: the call never returns, whatever the id, the
    user and the store.  For the caller's own conversation, with a store
    that does not raise, it answers 500 "Failed to retrieve conversation",
    after reading the conversation and its messages and writing nothing. *)
Theorem get_conversation_never_returns env conversation_id current_user_id id c w :
  reliable env ->
  ObjectId_of_str conversation_id = Some id ->
  conversations w !! id = Some c ->
  Conversation.user_id c = current_user_id ->
  (exists w',
     get_conversation env conversation_id current_user_id w
     = (inl (HTTPException 500 (lit "Failed to retrieve conversation")), w') /\
     store_calls w' = S (S (store_calls w)) /\
     messages w' = messages w /\ conversations w' = conversations w /\
     journal w' = journal w) /\
  (forall env0 conversation_id0 user0 w0,
     exists e w1, get_conversation env0 conversation_id0 user0 w0 = (inl e, w1)).
Proof.
  intros Hrel Hid Hc Hown. split.
  - unfold get_conversation, http_errors, try_except, bind.
    rewrite (get_owned_owned env _ _ _ _ w Hid (Hrel _) Hc Hown).
    unfold get_messages, Message_find_newest. rewrite store_call_reliable by done.
    cbn [fst snd]. rewrite for_each_response_of.
    destruct (store_limit _ _); [rewrite ConversationResponse_of_raises|];
      eexists; (split; [reflexivity|done]).
  - intros env0 s0 user0 w0.
    destruct (get_conversation env0 s0 user0 w0) as [[e|r] w1] eqn:Hrun; [by eauto|].
    exfalso. apply http_errors_inv in Hrun as (r0 & Hrun & Hr).
    destruct r0 as [e|r0]; [destruct e; discriminate|].
    apply bind_inr_inv in Hrun as ([id0 c0] & w2 & _ & Hrun).
    apply bind_inr_inv in Hrun as (found & w3 & _ & Hrun).
    apply bind_inr_inv in Hrun as (recent & w4 & _ & Hrun).
    by rewrite ConversationResponse_of_raises in Hrun.
Qed.

Lemma get_conversation_never_returns_witness :
  (exists w',
     get_conversation echo_env id_one 7%N busy_world
     = (inl (HTTPException 500 (lit "Failed to retrieve conversation")), w') /\
     store_calls w' = S (S (store_calls busy_world)) /\
     messages w' = messages busy_world /\ conversations w' = conversations busy_world /\
     journal w' = journal busy_world) /\
  (forall env0 conversation_id0 user0 w0,
     exists e w1, get_conversation env0 conversation_id0 user0 w0 = (inl e, w1)).
Proof.
  apply (get_conversation_never_returns echo_env id_one 7%N 1%N busy_conversation
           busy_world).
  - intros n. reflexivity.
  - reflexivity.
  - reflexivity.
  - reflexivity.
Defined.

(** ** Input validation *)

Lemma lstrip_Forall (P : N -> Prop) (s : pystr) : Forall P s -> Forall P (lstrip s).
Proof.
  induction 1 as [|c s Hc Hs IH]; simpl; [done|].
  destruct (isspace c); [done|by constructor].
Qed.

Lemma lstrip_length (s : pystr) : (length (lstrip s) <= length s)%nat.
Proof.
  induction s as [|c s IH]; simpl; [done|].
  destruct (isspace c); simpl; lia.
Qed.

Lemma lstrip_idemp (s : pystr) : lstrip (lstrip s) = lstrip s.
Proof.
  induction s as [|c s IH]; simpl; [done|].
  destruct (isspace c) eqn:E; [done|]. simpl. by rewrite E.
Qed.

Lemma lstrip_spaces (s : pystr) : Forall (fun c => isspace c = true) s -> lstrip s = [].
Proof. induction 1 as [|c s Hc Hs IH]; simpl; [done|]. by rewrite Hc. Qed.

Lemma lstrip_snoc (s : pystr) (c : N) :
  isspace c = false -> exists p, lstrip (s ++ [c]) = p ++ [c].
Proof.
  intros Hc. induction s as [|d s IH]; simpl.
  - rewrite Hc. by exists [].
  - destruct (isspace d); [done|]. by exists (d :: s).
Qed.

Lemma strip_Forall (P : N -> Prop) (s : pystr) : Forall P s -> Forall P (strip s).
Proof.
  intros H. unfold strip.
  apply Forall_rev, lstrip_Forall, Forall_rev, lstrip_Forall, H.
Qed.

Lemma strip_length (s : pystr) : len (strip s) <= len s.
Proof.
  unfold strip, len. rewrite length_rev.
  pose proof (lstrip_length (rev (lstrip s))) as H1.
  rewrite length_rev in H1. pose proof (lstrip_length s). lia.
Qed.

Lemma strip_stripped (s : pystr) : stripped (strip s).
Proof.
  unfold stripped, strip. split.
  - destruct (lstrip s) as [|c a] eqn:Ha; [done|].
    assert (Hc : isspace c = false).
    { destruct s as [|d s]; [done|].
      pose proof (lstrip_idemp (d :: s)) as Hi. rewrite Ha in Hi. simpl in Hi.
      destruct (isspace c); [|done].
      exfalso. assert (Hl := lstrip_length a). rewrite Hi in Hl. simpl in Hl. lia. }
    simpl. destruct (lstrip_snoc (rev a) c Hc) as (p & ->).
    rewrite rev_app_distr. simpl. by rewrite Hc.
  - by rewrite rev_involutive, lstrip_idemp.
Qed.

Lemma stripped_strip (s : pystr) : stripped s -> strip s = s.
Proof. intros [H1 H2]. unfold strip. by rewrite H1, H2, rev_involutive. Qed.

Lemma strip_spaces (s : pystr) : Forall (fun c => isspace c = true) s -> strip s = [].
Proof. intros H. unfold strip. by rewrite (lstrip_spaces s H). Qed.

Lemma slice_to_length {A} (l : list A) (k : Z) : 0 <= k -> len (slice_to l k) <= k.
Proof.
  intros Hk. unfold slice_to, len. rewrite length_take.
  destruct (k <? 0) eqn:E; lia.
Qed.

Lemma slice_to_Forall {A} (P : A -> Prop) (l : list A) (k : Z) :
  Forall P l -> Forall P (slice_to l k).
Proof. intros H. unfold slice_to. by apply Forall_take. Qed.

Lemma filter_keeps_id (s : pystr) :
  Forall (fun c => keeps c = true) s -> filter (fun char => Is_true (keeps char)) s = s.
Proof.
  induction 1 as [|c s Hc Hs IH]; [done|].
  unfold pystr in *. rewrite filter_cons_True; [by rewrite IH|by rewrite Hc].
Qed.

Lemma sanitize_input_facts (text : pystr) (max_length : Z) :
  0 <= max_length ->
  len (sanitize_input text max_length) <= max_length /\
  Forall (fun c => keeps c = true) (sanitize_input text max_length) /\
  Forall (fun c => c ∈ text) (sanitize_input text max_length) /\
  stripped (sanitize_input text max_length).
Proof.
  intros Hm. unfold sanitize_input. destruct text as [|ch text]; [by repeat split|].
  cbv beta iota zeta. unfold pystr in *.
  set (kept := filter (fun char => Is_true (keeps char)) (ch :: text)).
  set (cut := if max_length <? len kept then slice_to kept max_length else kept).
  assert (Hkept : Forall (fun c => keeps c = true /\ c ∈ ch :: text) kept).
  { apply Forall_forall. intros c Hc. apply list_elem_of_filter in Hc as [Hk Hc].
    split; [by apply Is_true_true|done]. }
  assert (Hcut : Forall (fun c => keeps c = true /\ c ∈ ch :: text) cut /\
                 len cut <= max_length).
  { unfold cut. destruct (max_length <? len kept) eqn:E.
    - split; [by apply slice_to_Forall|by apply slice_to_length].
    - split; [done|lia]. }
  destruct Hcut as [Hcut Hlen].
  pose proof (strip_Forall _ _ Hcut) as Hall.
  split; [pose proof (strip_length cut); lia|].
  split; [eapply Forall_impl; [exact Hall|by intros c [? ?]]|].
  split; [eapply Forall_impl; [exact Hall|by intros c [? ?]]|].
  apply strip_stripped.
Qed.

(** X17: for a [max_length] that is not negative, [sanitize_input] returns
    at most [max_length] characters, all of them characters of the text, none
    of them a control character other than newline, carriage return and
    tab, with no whitespace at either end; and sanitizing the result again
    changes nothing. *)
Theorem sanitize_input_sound text max_length :
  0 <= max_length ->
  len (sanitize_input text max_length) <= max_length /\
  Forall (fun c => (32 <= c)%N \/ c = 10%N \/ c = 13%N \/ c = 9%N)
    (sanitize_input text max_length) /\
  Forall (fun c => c ∈ text) (sanitize_input text max_length) /\
  strip (sanitize_input text max_length) = sanitize_input text max_length /\
  sanitize_input (sanitize_input text max_length) max_length
  = sanitize_input text max_length.
Proof.
  intros Hm.
  destruct (sanitize_input_facts text max_length Hm) as (Hlen & Hkeeps & Hin & Hstripped).
  split; [done|].
  split.
  { eapply Forall_impl; [exact Hkeeps|]. intros c Hc. unfold keeps in Hc.
    rewrite !orb_true_iff, N.leb_le, !N.eqb_eq in Hc. tauto. }
  split; [done|].
  split; [by apply stripped_strip|].
  set (r := sanitize_input text max_length) in *.
  unfold sanitize_input at 1. destruct r as [|c r'] eqn:Hr; [done|].
  rewrite <- Hr in *. rewrite (filter_keeps_id r Hkeeps).
  replace (max_length <? len r) with false by lia.
  by apply stripped_strip.
Qed.

Lemma sanitize_input_sound_witness :
  len (sanitize_input (lit "  hello" ++ [0%N; 7%N] ++ lit " world  ") 9) <= 9 /\
  Forall (fun c => (32 <= c)%N \/ c = 10%N \/ c = 13%N \/ c = 9%N)
    (sanitize_input (lit "  hello" ++ [0%N; 7%N] ++ lit " world  ") 9) /\
  Forall (fun c => c ∈ lit "  hello" ++ [0%N; 7%N] ++ lit " world  ")
    (sanitize_input (lit "  hello" ++ [0%N; 7%N] ++ lit " world  ") 9) /\
  strip (sanitize_input (lit "  hello" ++ [0%N; 7%N] ++ lit " world  ") 9)
  = sanitize_input (lit "  hello" ++ [0%N; 7%N] ++ lit " world  ") 9 /\
  sanitize_input (sanitize_input (lit "  hello" ++ [0%N; 7%N] ++ lit " world  ") 9) 9
  = sanitize_input (lit "  hello" ++ [0%N; 7%N] ++ lit " world  ") 9.
Proof.
  apply (sanitize_input_sound (lit "  hello" ++ [0%N; 7%N] ++ lit " world  ") 9). lia.
Defined.

(** The text is cut before it is stripped: of the seven characters kept
    for [max_length = 7], two are leading blanks, and five remain. *)
Example sanitize_input_run :
  sanitize_input (lit "  hello" ++ [0%N; 7%N] ++ lit " world  ") 9 = lit "hello w" /\
  sanitize_input (lit "  hello" ++ [0%N; 7%N] ++ lit " world  ") 7 = lit "hello".
Proof. split; reflexivity. Qed.

(** X18: [validate_conversation_message] returns only [sanitize_input] of
    the content at 2000, between 1 and 2000 characters long and with no
    whitespace at either end; it raises 400 "Message content cannot be
    empty" exactly when the content is blank, and 400 "Message content is
    too short" when the content is not blank but nothing of it is left.
    [validate_conversation_title] never raises and never returns an empty
    title: it returns [sanitize_input] of the title at 100, or "Untitled
    Conversation" when that is empty; at most 100 characters either way. *)
Theorem validators_sound content title :
  match validate_conversation_message content with
  | inr s =>
      s = sanitize_input content 2000 /\ 1 <= len s <= 2000 /\ strip s = s /\
      strip content <> []
  | inl e =>
      (e = HTTPException 400 (lit "Message content cannot be empty") /\
       strip content = []) \/
      (e = HTTPException 400 (lit "Message content is too short") /\
       strip content <> [] /\ sanitize_input content 2000 = [])
  end /\
  1 <= len (validate_conversation_title title) <= 100 /\
  (validate_conversation_title title = sanitize_input title 100 \/
   validate_conversation_title title = lit "Untitled Conversation" /\
   sanitize_input title 100 = []).
Proof.
  split; [|split].
  - unfold validate_conversation_message.
    destruct content as [|ch content]; [by left|].
    destruct (strip (ch :: content)) as [|c1 s1] eqn:Hs; [by left|].
    cbn [orb].
    destruct (sanitize_input_facts (ch :: content) 2000 ltac:(lia))
      as (Hlen & _ & _ & Hstripped).
    destruct (len (sanitize_input (ch :: content) 2000) <? 1) eqn:E.
    + right. split; [done|]. split; [done|].
      destruct (sanitize_input (ch :: content) 2000) as [|c2 s2]; [done|].
      exfalso. unfold len in E. cbn [length] in E. apply Z.ltb_lt in E. lia.
    + split; [done|]. split; [lia|]. split; [by apply stripped_strip|done].
  - unfold validate_conversation_title. destruct title as [|ch title]; [done|].
    destruct (sanitize_input_facts (ch :: title) 100 ltac:(lia)) as (Hlen & _).
    destruct (sanitize_input (ch :: title) 100) as [|c s]; [done|].
    unfold len in *. cbn [length] in *. lia.
  - unfold validate_conversation_title. destruct title as [|ch title]; [by right|].
    destruct (sanitize_input (ch :: title) 100) as [|c s]; [by right|by left].
Qed.

(** X19: the message is cut before it is stripped, so a message that starts
    with 2000 or more characters of whitespace is rejected as too short,
    whatever follows them. *)
Theorem padded_message_rejected pad text :
  Forall (fun c => isspace c = true /\ keeps c = true) pad ->
  2000 <= len pad ->
  strip (pad ++ text) <> [] ->
  validate_conversation_message (pad ++ text)
  = inl (HTTPException 400 (lit "Message content is too short")).
Proof.
  intros Hpad Hlen Hcontent. unfold validate_conversation_message.
  destruct (pad ++ text) as [|ch content] eqn:Hc; [done|].
  destruct (strip (ch :: content)) as [|c1 s1] eqn:Hs; [done|].
  cbn [orb]. rewrite <- Hc.
  assert (Hnone : sanitize_input (pad ++ text) 2000 = []).
  { unfold sanitize_input. rewrite Hc. cbv beta iota zeta. rewrite <- Hc.
    unfold pystr in *.
    assert (Hkeeps : Forall (fun c => keeps c = true) pad)
      by (eapply Forall_impl; [exact Hpad|by intros c [_ ?]]).
    rewrite filter_app. pose proof (filter_keeps_id pad Hkeeps) as Hid.
    unfold pystr in Hid. rewrite Hid.
    assert (Hspaces : Forall (fun c => isspace c = true) pad)
      by (eapply Forall_impl; [exact Hpad|by intros c [? _]]).
    destruct (2000 <? len (pad ++ filter (fun char => Is_true (keeps char)) text)) eqn:E.
    - apply strip_spaces. unfold slice_to. cbn [Z.ltb Z.compare].
      unfold len in *. rewrite take_app_le by (rewrite length_app; lia).
      by apply Forall_take.
    - apply strip_spaces. unfold len in *. rewrite length_app in E.
      destruct (filter _ text) as [|c2 s2]; [by rewrite app_nil_r|].
      exfalso. apply Z.ltb_ge in E. cbn [length] in E. lia. }
  by rewrite Hnone.
Qed.

Lemma padded_message_rejected_witness :
  validate_conversation_message (repeat 32%N 2000 ++ lit "hi")
  = inl (HTTPException 400 (lit "Message content is too short")).
Proof.
  apply (padded_message_rejected (repeat 32%N 2000) (lit "hi")).
  - apply Forall_forall. intros c Hc. apply list_elem_of_In, repeat_spec in Hc. by subst c.
  - unfold len. rewrite repeat_length. lia.
  - by vm_compute.
Defined.

(** ** The rate limiter *)

Lemma is_allowed_step self identifier current_time :
  0 <= RateLimiter.max_requests self ->
  RateLimiter.bounded self ->
  exists kept,
    kept `sublist_of` default [] (RateLimiter.requests self !! identifier) /\
    len kept <= RateLimiter.max_requests self /\
    let allowed := negb (RateLimiter.max_requests self <=? len kept) in
    RateLimiter.is_allowed self identifier current_time
    = (allowed,
       RateLimiter.set_requests
         (<[identifier := if allowed then kept ++ [current_time] else kept]>
            (RateLimiter.requests self)) self).
Proof.
  intros Hmax Hb. unfold RateLimiter.is_allowed.
  destruct (RateLimiter.requests self !! identifier) as [times|] eqn:Hi.
  - exists (filter (fun req_time =>
                      Is_true (PrimFloat.ltb (current_time - req_time)
                                 (float_of_int (RateLimiter.window_seconds self))))
                   times).
    split; [apply sublist_filter|].
    split.
    { specialize (Hb _ _ Hi). unfold len in *.
      pose proof (length_filter
                    (fun req_time =>
                       Is_true (PrimFloat.ltb (current_time - req_time)
                                  (float_of_int (RateLimiter.window_seconds self))))
                    times). lia. }
    cbn [RateLimiter.requests RateLimiter.set_requests RateLimiter.max_requests].
    rewrite lookup_insert_eq. cbn [default].
    destruct (_ <=? _); cbn [negb]; [done|].
    unfold RateLimiter.set_requests. cbn. by rewrite insert_insert_eq.
  - exists []. split; [done|].
    cbn [RateLimiter.requests RateLimiter.set_requests RateLimiter.max_requests].
    rewrite lookup_insert_eq. cbn [default].
    split; [unfold len; simpl; lia|].
    destruct (_ <=? _); cbn [negb]; [done|].
    unfold RateLimiter.set_requests. cbn. by rewrite insert_insert_eq.
Qed.

Lemma is_allowed_bounded self identifier current_time :
  0 <= RateLimiter.max_requests self ->
  RateLimiter.bounded self ->
  RateLimiter.bounded (RateLimiter.is_allowed self identifier current_time).2 /\
  RateLimiter.max_requests (RateLimiter.is_allowed self identifier current_time).2
  = RateLimiter.max_requests self.
Proof.
  intros Hmax Hb.
  destruct (is_allowed_step self identifier current_time Hmax Hb)
    as (kept & _ & Hlen & Hrun).
  cbv zeta in Hrun. rewrite Hrun. cbn [snd]. split; [|done].
  intros other times Hlook.
  cbn [RateLimiter.requests RateLimiter.set_requests RateLimiter.max_requests] in *.
  destruct (decide (identifier = other)) as [<-|Hne].
  - rewrite lookup_insert_eq in Hlook. injection Hlook as <-.
    destruct (RateLimiter.max_requests self <=? len kept) eqn:E; cbn [negb]; [done|].
    apply Z.leb_gt in E. unfold len in *. rewrite length_app. simpl. lia.
  - rewrite lookup_insert_ne in Hlook by done. by eapply Hb.
Qed.

(** X20: with a limit that is not negative, [RateLimiter.is_allowed] keeps
    every identifier at no more than [max_requests] recorded requests, in
    each call and so after any sequence of calls.  A call keeps some of the
    recorded times of its identifier, in their order; it answers [True]
    exactly when fewer than [max_requests] are kept, and then records the
    time of the call after them; a call that is refused records nothing.
    The requests of the other identifiers are not touched. *)
Theorem rate_limiter_bounded self identifier current_time :
  0 <= RateLimiter.max_requests self ->
  RateLimiter.bounded self ->
  (forall calls, RateLimiter.bounded (RateLimiter.run self calls)) /\
  exists allowed self' kept,
    RateLimiter.is_allowed self identifier current_time = (allowed, self') /\
    kept `sublist_of` default [] (RateLimiter.requests self !! identifier) /\
    (allowed = true <-> len kept < RateLimiter.max_requests self) /\
    RateLimiter.requests self' !! identifier
    = Some (if allowed then kept ++ [current_time] else kept) /\
    (forall other, other <> identifier ->
       RateLimiter.requests self' !! other = RateLimiter.requests self !! other) /\
    RateLimiter.max_requests self' = RateLimiter.max_requests self /\
    RateLimiter.window_seconds self' = RateLimiter.window_seconds self.
Proof.
  intros Hmax Hb. split.
  - intros calls. revert self Hmax Hb. induction calls as [|[i t] calls IH]; intros self Hmax Hb.
    + exact Hb.
    + unfold RateLimiter.run. cbn [fold_left fst snd].
      destruct (is_allowed_bounded self i t Hmax Hb) as [Hb' Hmax'].
      apply IH; [by rewrite Hmax'|done].
  - destruct (is_allowed_step self identifier current_time Hmax Hb)
      as (kept & Hsub & Hlen & Hrun).
    cbv zeta in Hrun. do 2 eexists. exists kept. split; [exact Hrun|].
    split; [done|]. split.
    { destruct (RateLimiter.max_requests self <=? len kept) eqn:E; cbn [negb].
      - apply Z.leb_le in E. split; [done|lia].
      - apply Z.leb_gt in E. done. }
    cbn [RateLimiter.requests RateLimiter.set_requests RateLimiter.max_requests
         RateLimiter.window_seconds].
    split; [by rewrite lookup_insert_eq|].
    split; [intros other Hne; by rewrite lookup_insert_ne|done].
Qed.

Lemma rate_limiter_bounded_witness :
  (forall calls, RateLimiter.bounded (RateLimiter.run (RateLimiter.init 100 3600) calls)) /\
  exists allowed self' kept,
    RateLimiter.is_allowed (RateLimiter.init 100 3600) (lit "10.0.0.1") 5%float
    = (allowed, self') /\
    kept `sublist_of`
      default [] (RateLimiter.requests (RateLimiter.init 100 3600) !! lit "10.0.0.1") /\
    (allowed = true <-> len kept < RateLimiter.max_requests (RateLimiter.init 100 3600)) /\
    RateLimiter.requests self' !! lit "10.0.0.1"
    = Some (if allowed then kept ++ [5%float] else kept) /\
    (forall other, other <> lit "10.0.0.1" ->
       RateLimiter.requests self' !! other
       = RateLimiter.requests (RateLimiter.init 100 3600) !! other) /\
    RateLimiter.max_requests self' = RateLimiter.max_requests (RateLimiter.init 100 3600) /\
    RateLimiter.window_seconds self'
    = RateLimiter.window_seconds (RateLimiter.init 100 3600).
Proof.
  apply (rate_limiter_bounded (RateLimiter.init 100 3600) (lit "10.0.0.1") 5%float).
  - simpl. lia.
  - intros identifier times Hlook. cbn [RateLimiter.init RateLimiter.requests] in Hlook.
    by apply lookup_empty_Some in Hlook.
Defined.

(** A limiter of two requests in ten seconds: the third request at once is
    refused, and one made after the window is let through. *)
Example rate_limiter_run :
  let calls := [ (lit "a", 1%float); (lit "a", 2%float); (lit "a", 3%float) ] in
  let self := RateLimiter.run (RateLimiter.init 2 10) calls in
  RateLimiter.requests self !! lit "a" = Some [1%float; 2%float] /\
  (RateLimiter.is_allowed self (lit "a") 4%float).1 = false /\
  (RateLimiter.is_allowed self (lit "a") 11.5%float).1 = true /\
  RateLimiter.requests (RateLimiter.is_allowed self (lit "a") 11.5%float).2 !! lit "a"
  = Some [2%float; 11.5%float].
Proof. by vm_compute. Qed.

(** ** The connection manager *)

(** X21: the manager keeps one connection per user, the one opened last,
    and [disconnect] removes the user whichever connection is closed.  When
    a user opens a second connection, personal messages go to the second;
    when the first is then closed, the second is still among the active
    connections, but the user is no longer registered:
    [send_personal_message] answers [False] and sends nothing. *)
Theorem closing_older_connection_unregisters_user
    net self ws1 ws2 user_id connection1 connection2 message :
  user_id <> [] -> connection2 <> [] -> connection1 <> connection2 ->
  accept_raises net ws1 = false -> accept_raises net ws2 = false ->
  exists self1 self2,
    ConnectionManager.connect net ws1 user_id connection1 self = Some self1 /\
    ConnectionManager.connect net ws2 user_id connection2 self1 = Some self2 /\
    (send_raises net ws2 (ConnectionManager.attempts self) = false ->
     exists self3,
       ConnectionManager.send_personal_message net message user_id self2 = (true, self3) /\
       ConnectionManager.outbox self3 = ConnectionManager.outbox self ++ [(ws2, message)]) /\
    let closed := ConnectionManager.disconnect connection1 (Some user_id) self2 in
    ConnectionManager.active_connections closed !! connection2 = Some ws2 /\
    ConnectionManager.user_connections closed !! user_id = None /\
    ConnectionManager.send_personal_message net message user_id closed = (false, closed).
Proof.
  intros Hu Hc2 Hne Ha1 Ha2.
  unfold ConnectionManager.connect. rewrite Ha1. eexists. eexists.
  split; [reflexivity|]. cbn [ConnectionManager.active_connections
    ConnectionManager.user_connections ConnectionManager.outbox ConnectionManager.attempts].
  rewrite Ha2. split; [reflexivity|].
  destruct user_id as [|u0 us]; [done|]. destruct connection2 as [|c0 cs]; [done|].
  split.
  - intros Hsend. unfold ConnectionManager.send_personal_message.
    cbn [ConnectionManager.active_connections ConnectionManager.user_connections
         ConnectionManager.outbox ConnectionManager.attempts pred].
    rewrite !lookup_insert_eq, Hsend. eexists. split; reflexivity.
  - cbv zeta. unfold ConnectionManager.send_personal_message, ConnectionManager.disconnect.
    cbn [ConnectionManager.active_connections ConnectionManager.user_connections
         ConnectionManager.outbox ConnectionManager.attempts].
    rewrite lookup_delete_ne by done. rewrite !lookup_insert_eq.
    split; [done|]. split; [apply lookup_delete_eq|].
    by rewrite (lookup_delete_eq (M:=gmap pystr)).
Qed.

Lemma closing_older_connection_unregisters_user_witness :
  exists self1 self2,
    ConnectionManager.connect quiet_net 1%N (lit "u7") (lit "u7_1") ConnectionManager.init
    = Some self1 /\
    ConnectionManager.connect quiet_net 2%N (lit "u7") (lit "u7_2") self1 = Some self2 /\
    (send_raises quiet_net 2%N (ConnectionManager.attempts ConnectionManager.init) = false ->
     exists self3,
       ConnectionManager.send_personal_message quiet_net ∅ (lit "u7") self2 = (true, self3) /\
       ConnectionManager.outbox self3
       = ConnectionManager.outbox ConnectionManager.init ++ [(2%N, ∅)]) /\
    let closed := ConnectionManager.disconnect (lit "u7_1") (Some (lit "u7")) self2 in
    ConnectionManager.active_connections closed !! lit "u7_2" = Some 2%N /\
    ConnectionManager.user_connections closed !! lit "u7" = None /\
    ConnectionManager.send_personal_message quiet_net ∅ (lit "u7") closed = (false, closed).
Proof.
  apply (closing_older_connection_unregisters_user quiet_net ConnectionManager.init
           1%N 2%N (lit "u7") (lit "u7_1") (lit "u7_2") ∅).
  - discriminate.
  - discriminate.
  - discriminate.
  - reflexivity.
  - reflexivity.
Defined.

(** ** The invariants over sequences of requests *)

Lemma healthy_turn env cid uid w w' c0 final user_msg ai_msg first_id :
  healthy w ->
  (resolves cid uid w c0 /\ first_id = next_id w \/
   (forall c, ~ resolves cid uid w c) /\ c0 = new_conversation env uid w /\
   first_id = N.succ (next_id w)) ->
  Conversation.id final = Conversation.id c0 ->
  Conversation.message_count final = Conversation.message_count c0 + 2 ->
  Message.conversation_id user_msg = Conversation.id c0 ->
  Message.conversation_id ai_msg = Conversation.id c0 ->
  Message.id user_msg = first_id ->
  Message.id ai_msg = N.succ first_id ->
  messages w' = messages w ++ [user_msg; ai_msg] ->
  conversations w' = <[Conversation.id c0 := final]> (conversations w) ->
  next_id w' = N.succ (N.succ first_id) ->
  healthy w'.
Proof.
  intros [[Hkeys Hfresh] Hagree] Hcase Hid Hcnt Hcu Hca Hiu Hia Hms Hcs Hnext.
  assert (Hc0 : Conversation.message_count c0 = stored_count (Conversation.id c0) w
                /\ (Conversation.id c0 < first_id)%N
                /\ (next_id w <= first_id)%N).
  { destruct Hcase as [((id & -> & Hlook & _) & ->)|(_ & -> & ->)].
    - destruct (Hkeys _ _ Hlook) as [Hk Hlt]. rewrite Hk.
      split; [by apply Hagree|]. split; [done|lia].
    - simpl. split; [|lia].
      unfold stored_count. by rewrite (no_message_of_fresh_id w (conj Hkeys Hfresh)). }
  destruct Hc0 as (Hc0 & Hlt & Hle).
  split; [split|].
  - intros id c Hlook. rewrite Hcs in Hlook. rewrite Hnext.
    destruct (decide (Conversation.id c0 = id)) as [<-|Hne].
    + rewrite lookup_insert_eq in Hlook. injection Hlook as <-. split; [done|lia].
    + rewrite lookup_insert_ne in Hlook by done.
      apply Hkeys in Hlook as [? ?]. split; [done|lia].
  - intros m Hm. rewrite Hms in Hm. rewrite Hnext.
    apply elem_of_app in Hm as [Hm|Hm].
    + apply Hfresh in Hm. lia.
    + apply elem_of_cons in Hm as [->|Hm]; [lia|].
      apply list_elem_of_singleton in Hm as ->. lia.
  - intros id c Hlook. rewrite Hcs in Hlook. unfold stored_count. rewrite Hms.
    rewrite count_after_turn, Hcu, Hca.
    destruct (decide (Conversation.id c0 = id)) as [<-|Hne].
    + rewrite lookup_insert_eq in Hlook. injection Hlook as <-.
      rewrite Hcnt, Hc0. unfold stored_count. lia.
    + rewrite lookup_insert_ne in Hlook by done.
      rewrite (Hagree _ _ Hlook). unfold stored_count. lia.
Qed.

Lemma process_healthy env cid um uid w :
  reliable env -> healthy w -> healthy (process_user_message env cid um uid w).2.
Proof.
  intros Hrel Hh.
  destruct (process_user_message env cid um uid w) as [[e|reply] w'] eqn:Hrun; cbn [snd].
  - destruct (process_reliable env cid um uid w Hrel)
      as (conversation & user_msg & ai_msg & w3 & Hopen & Hcases).
    cbv zeta in Hcases.
    destruct (pipeline _ _ _ _) as [msg|[text secs]].
    2:{ destruct Hcases as (md & reply & w'' & Hrun' & _). congruence. }
    destruct Hcases as (w'' & Hrun' & _).
    rewrite Hrun in Hrun'. injection Hrun' as -> <-.
    unfold process_user_message, bind, try_except in Hrun. rewrite Hopen in Hrun.
    cbn beta iota in Hrun.
    destruct (generate_turn env conversation w3) as [r w5] eqn:Hgen.
    pose proof Hgen as Hgen'.
    apply generate_turn_inv in Hgen' as [(n & -> & _)|(Hms5 & Hcs5 & Hnext5 & Hgen')].
    { exfalso. unfold generate_turn, bind in Hgen.
      rewrite get_context_ok in Hgen by apply Hrel.
      apply generate_response_inv in Hgen as (_ & _ & _ & _ & _ & Hr).
      destruct (pipeline _ _ _ _) as [msg'|[text secs]]; [done|].
      by destruct Hr as (md & [=] & _). }
    destruct r as [e|[text md]].
    2:{ exfalso. cbv zeta in Hgen'. destruct Hgen' as [_ Hr].
        destruct (pipeline _ _ _ _) as [msg'|[text' secs]]; [done|].
        destruct Hr as (md' & [= <- <-] & _ & Htok).
        destruct (close_turn_reliable env conversation user_msg
                    (Message.complete ai_msg text md) text md w5 Hrel Htok)
          as (reply & w6 & Hclose).
        rewrite Hclose in Hrun. discriminate. }
    destruct (@mark_failed_reliable (pystr * gmap string PyVal) env ai_msg e w5 Hrel)
      as (w6 & Hfail & Hms6 & Hcs6 & Hnext6 & _).
    rewrite Hfail in Hrun. injection Hrun as _ <-.
    apply open_turn_inr_inv in Hopen
      as (c0 & w0 & c1 & Hc0 & Hum & Ham & Hms3 & Hid & _ & _ & Hcnt & Hcs3 & Hnext3 & _).
    apply get_or_create_inr_inv in Hc0 as [Hms0 Hcase].
    destruct Hh as [Hok Hagree]. pose proof Hok as [Hkeys Hfresh].
    eapply (healthy_turn env cid uid w w6 c0 conversation user_msg
              (Message.fail ai_msg (str_exn e)) (next_id w0)); try done.
    + destruct Hcase as [(Hr & _ & Hn & _)|(Hr & Hnew & _ & Hn & _)]; [left|right]; done.
    + by subst user_msg.
    + by subst ai_msg.
    + by subst user_msg.
    + by subst ai_msg.
    + rewrite Hms6, Hms5, Hms3.
      change (messages w ++ [user_msg; ai_msg]) with (messages w ++ [user_msg] ++ [ai_msg]).
      rewrite app_assoc, replace_message_fresh; [by rewrite <- app_assoc| |done].
      intros m Hm. apply elem_of_app in Hm as [Hm|Hm].
      * apply Hfresh in Hm as [Hm _]. subst ai_msg. simpl.
        destruct Hcase as [(_ & _ & Hn & _)|(_ & _ & _ & Hn & _)]; rewrite Hn; lia.
      * apply list_elem_of_singleton in Hm as ->. subst user_msg ai_msg. simpl. lia.
    + rewrite Hcs6, Hcs5, Hcs3.
      destruct Hcase as [(_ & -> & _)|(_ & Hnew & -> & _)]; [done|].
      assert (Hk : Conversation.id c0 = next_id w) by (by rewrite Hnew).
      by rewrite Hk, insert_insert_eq.
    + by rewrite Hnext6, Hnext5, Hnext3.
  - destruct Hh as [Hok Hagree].
    destruct (process_inr_store _ _ _ _ _ _ _ Hok Hrun)
      as (c0 & final & user_msg & ai_msg & first_id & Hcase & Hid & Hcnt & Hcu & Hca
          & Hiu & Hia & Hms & Hcs & Hnext).
    by eapply (healthy_turn env cid uid w w' c0 final user_msg ai_msg first_id).
Qed.

Lemma send_message_world env message request_conversation_id current_user_id w :
  (send_message env message request_conversation_id current_user_id w).2
  = match request_conversation_id with
    | Some (c :: s) =>
        match ObjectId_of_str (c :: s) with
        | Some id => (process_user_message env (Some id) message current_user_id w).2
        | None => w
        end
    | _ => (process_user_message env None message current_user_id w).2
    end.
Proof.
  unfold send_message, try_except, bind, get_object_id, ret, raise.
  destruct request_conversation_id as [[|c s]|].
  - by destruct (process_user_message env None message current_user_id w) as [[e|r] w'].
  - destruct (ObjectId_of_str (c :: s)) as [id|]; [|done].
    by destruct (process_user_message env (Some id) message current_user_id w)
      as [[e|r] w'].
  - by destruct (process_user_message env None message current_user_id w) as [[e|r] w'].
Qed.

Lemma get_owned_world env s uid w :
  healthy w -> healthy (get_owned_conversation env s uid w).2.
Proof.
  intros Hh. destruct (get_owned_conversation env s uid w) as [r w'] eqn:H.
  apply get_owned_inv in H as (Hms & Hcs & Hnext & _). by eapply healthy_same.
Qed.

Lemma get_owned_cases env s uid w :
  reliable env ->
  (exists e, get_owned_conversation env s uid w = (inl e, w) \/
             get_owned_conversation env s uid w = (inl e, count_store_call w)) \/
  (exists id c, ObjectId_of_str s = Some id /\ conversations w !! id = Some c /\
                Conversation.user_id c = uid /\
                get_owned_conversation env s uid w = (inr (id, c), count_store_call w)).
Proof.
  intros Hrel. destruct (get_owned_conversation env s uid w) as [r w'] eqn:H.
  apply get_owned_inv in H as (_ & _ & _ & _ & _ & H).
  destruct (ObjectId_of_str s) as [id|]; [|destruct H as [-> ->]; left; eauto].
  rewrite Hrel in H. destruct H as [-> H].
  destruct (conversations w !! id) as [c|] eqn:Hc; [|subst r; left; eauto].
  destruct (decide _) as [Hown|Hown]; subst r; [right; eauto 10|left; eauto].
Qed.

Lemma apply_update_keeps update_data c :
  Conversation.id (apply_update update_data c).1 = Conversation.id c /\
  Conversation.message_count (apply_update update_data c).1 = Conversation.message_count c.
Proof. by destruct update_data as [[t|] [st|] [d|]]. Qed.

Lemma set_status_healthy env st s uid w :
  reliable env -> healthy w -> healthy (set_conversation_status env st s uid w).2.
Proof.
  intros Hrel Hh.
  unfold set_conversation_status, get_object_id, bind, Conversation_get, update_timestamp,
    bind, utcnow, Conversation_save, ret, raise.
  destruct (ObjectId_of_str s) as [id|]; [|done].
  rewrite store_call_reliable by done. cbn [fst snd count_store_call conversations].
  destruct (conversations w !! id) as [c|] eqn:Hc; [|by eapply healthy_same].
  destruct (decide _) as [Hown|Hown]; [|by eapply healthy_same].
  rewrite store_call_reliable by done. cbn [fst snd].
  eapply (healthy_resave w _ id c); [done|done| | |reflexivity|done|done]; done.
Qed.

Lemma http_errors_world {A} detail (c : M A) w : (http_errors detail c w).2 = (c w).2.
Proof.
  unfold http_errors, try_except. destruct (c w) as [[e|a] w1]; [|done].
  by destruct e.
Qed.

Lemma serve_healthy env current_user_id request w :
  reliable env -> healthy w -> healthy (serve env current_user_id request w).
Proof.
  intros Hrel Hh. destruct request; cbn [serve].
  - rewrite send_message_world.
    destruct conversation_id as [[|c s]|]; [by apply process_healthy| |by apply process_healthy].
    destruct (ObjectId_of_str (c :: s)); [by apply process_healthy|done].
  - unfold get_conversation. rewrite http_errors_world. unfold bind.
    destruct (get_owned_cases env conversation_id current_user_id w Hrel)
      as [(e & [H|H])|(id & c & _ & _ & _ & H)]; rewrite H; cbn [snd]; try done.
    unfold get_messages, Message_find_newest. rewrite store_call_reliable by done.
    cbn [fst snd]. rewrite for_each_response_of.
    destruct (store_limit _ _); [rewrite ConversationResponse_of_raises|];
      by eapply healthy_same.
  - destruct (create_conversation_ok env title model_config current_user_id w (Hrel _))
      as (w' & Hrun & Hcs & Hms & Hnext).
    rewrite Hrun. cbn [snd].
    eapply (healthy_new w w'); [exact Hh| | |exact Hcs|exact Hms|exact Hnext]; reflexivity.
  - destruct (get_owned_cases env conversation_id current_user_id w Hrel)
      as [(e & [H|H])|(id & c & Hid & Hc & Hown & H)].
    + unfold delete_conversation. rewrite http_errors_world. unfold bind. by rewrite H.
    + unfold delete_conversation. rewrite http_errors_world. unfold bind. by rewrite H.
    + pose proof Hh as [[Hkeys _] _]. destruct (Hkeys _ _ Hc) as [Hkey _].
      destruct (delete_conversation_ok env _ _ _ _ w Hrel Hid Hc Hkey Hown)
        as (w' & Hrun & Hcs & Hms & Hnext).
      rewrite Hrun. cbn [snd]. by eapply healthy_delete.
  - unfold get_conversation_messages. rewrite http_errors_world. unfold bind.
    destruct (get_owned_cases env conversation_id current_user_id w Hrel)
      as [(e & [H|H])|(id & c & _ & _ & _ & H)]; rewrite H; cbn [snd]; try done.
    unfold Message_find_page. rewrite store_call_reliable by done.
    cbn [fst snd]. rewrite for_each_response_of.
    destruct (store_limit _ _); by eapply healthy_same.
  - unfold update_conversation. rewrite http_errors_world. unfold bind.
    destruct (get_owned_cases env conversation_id current_user_id w Hrel)
      as [(e & [H|H])|(id & c & _ & Hc & _ & H)]; rewrite H; cbn [snd]; try done.
    destruct (apply_update_keeps update_data c) as [Hid Hcnt].
    destruct (apply_update update_data c) as [c' [|f fs]]; [done|].
    unfold update_timestamp, bind, utcnow, Conversation_save, ret.
    rewrite store_call_reliable by done. cbn [fst snd] in *.
    eapply (healthy_resave (count_store_call w) _ id c);
      [by eapply healthy_same|done| | |reflexivity|done|done]; done.
  - unfold archive_conversation. rewrite http_errors_world. by apply set_status_healthy.
  - unfold restore_conversation. rewrite http_errors_world. by apply set_status_healthy.
Qed.

(** X22: with a store that does not raise, no sequence of requests to the
    routes breaks the invariants of the store: after any number of
    [send_message], [create_conversation], [delete_conversation],
    [update_conversation], [archive_conversation], [restore_conversation],
    [get_conversation] and [get_conversation_messages] requests by any
    users, whether they succeed, find nothing or fail in the model, every
    conversation is stored under its own id, fresh ids are unused, and
    every [message_count] is the number of stored messages of the
    conversation. *)
Theorem requests_keep_store_healthy env requests w :
  reliable env ->
  healthy w ->
  healthy (serve_all env requests w).
Proof.
  intros Hrel. revert w. unfold serve_all.
  induction requests as [|[user request] requests IH]; intros w Hh; [done|].
  cbn [fold_left fst snd]. apply IH. by apply serve_healthy.
Qed.

Lemma requests_keep_store_healthy_witness :
  healthy
    (serve_all failing_env
       [ (7%N, CreateConversation None ∅);
         (7%N, SendMessage (lit "Hello") (Some id_one));
         (8%N, DeleteConversation id_one);
         (7%N, ArchiveConversation id_one);
         (7%N, SendMessage (lit "Again") None);
         (7%N, DeleteConversation id_one) ]
       empty_world).
Proof.
  apply (requests_keep_store_healthy failing_env).
  - intros n. reflexivity.
  - split; [split|].
    + intros id c Hc. unfold empty_world in Hc. cbn [conversations] in Hc.
      by apply lookup_empty_Some in Hc.
    + intros m Hm. by apply elem_of_nil in Hm.
    + intros id c Hc. unfold empty_world in Hc. cbn [conversations] in Hc.
      by apply lookup_empty_Some in Hc.
Defined.
